(** * gherkin2robotframework: the translation and reconciliation engine

    A shallow embedding of [gherkin2robotframework/__main__.py]: the step
    renderer ([add_step]), the table transformer, the expansion of scenario
    outlines and the resource reconciler, with the properties the
    specification states about them; then the script writer
    ([generate_robot_script]), the processing of one feature file
    ([process_gherkin]) and the search of the settings directory
    ([determine_settings_dir]), with further properties of the code.

    Conventions.
    - Python [str] is [string]; a character is an [ascii] (code points
      0..255).
    - A line of the generated script is either a text or a list of fields
      ([Line]); the three global line lists, the step registry [seen_steps]
      and [background_available] are the fields of [State], passed from
      function to function.  [add_step] is given the list it appends to and
      the registry, and returns both.
    - [seen_steps] is a Python dict, insertion ordered: an association list
      that is only ever extended at the end, with keys that are not yet there.
    - An exception is a value of [exn]; a function that can raise returns a
      [result].  Nothing in the program catches an exception, so the state
      of the globals at a [raise] is not kept.
    - The file system is a finite map from the paths of the files to their
      texts, as a read or a write in text mode sees them; standard output is
      the list of the texts printed, one for each call of [print].  A
      computation on them is an [M]: it returns the world it leaves also
      when it raises.
    - What the program takes from elsewhere is a class each: the module
      [translation] ([Localization]), the [re] module ([Re.Engine]), the
      iteration order of a [set] ([SetOrder]), the paths, the clock and
      the globals set by [main] ([Host]), the directories and the clock
      when the script is written ([Target]), the Gherkin parser ([Parser])
      and the search for settings files ([Directories]). *)

From Stdlib Require Import Ascii String.
From stdpp Require Import gmap strings list pretty.

Open Scope string_scope.
Open Scope list_scope.
Open Scope nat_scope.

(** ** Python's string methods *)

Module Py.

(** [str.isspace] on one character: the code points below 256 that Unicode
    classes as white space. *)
Definition isspace (c : ascii) : bool :=
  let n := nat_of_ascii c in
  ((9 <=? n)%nat && (n <=? 13)%nat) || ((28 <=? n)%nat && (n <=? 32)%nat)
  || (n =? 133)%nat || (n =? 160)%nat.

Fixpoint lstrip (s : string) : string :=
  match s with
  | String c s' => if isspace c then lstrip s' else s
  | "" => ""
  end.

Fixpoint rstrip (s : string) : string :=
  match s with
  | String c s' =>
      match rstrip s' with
      | "" => if isspace c then "" else String c ""
      | r => String c r
      end
  | "" => ""
  end.

(** [s.strip()] *)
Definition strip (s : string) : string := rstrip (lstrip s).

(** [s.startswith(p)] *)
Definition startswith (s p : string) : bool := String.prefix p s.

(** [s.split(sep)] for a separator of one character: never empty. *)
Fixpoint split (sep : ascii) (s : string) : list string :=
  match s with
  | "" => [""]
  | String c s' =>
      if Ascii.eqb c sep then "" :: split sep s'
      else match split sep s' with
           | h :: t => String c h :: t
           | [] => [String c ""]
           end
  end.

(** [f.readlines()]: the lines of a text, each with its newline. *)
Fixpoint readlines (s : string) : list string :=
  match s with
  | "" => []
  | String c s' =>
      if Ascii.eqb c "010" then String c "" :: readlines s'
      else match readlines s' with
           | h :: t => String c h :: t
           | [] => [String c ""]
           end
  end.

(** [sep.join(l)] *)
Definition join (sep : string) (l : list string) : string :=
  String.concat sep l.

(** [s.replace(old, new)] for [old] of one character. *)
Fixpoint replace (old : ascii) (new : string) (s : string) : string :=
  match s with
  | "" => ""
  | String c s' =>
      if Ascii.eqb c old then new +:+ replace old new s'
      else String c (replace old new s')
  end.

(** [s[1:]] *)
Definition tail (s : string) : string :=
  match s with
  | String _ s' => s'
  | "" => ""
  end.

(** [str(n)] for a natural number *)
Definition str (n : nat) : string := pretty n.

(** Truth value of a string, and of a value that is a string or [None]. *)
Definition truthy (s : string) : bool :=
  match s with
  | "" => false
  | _ => true
  end.

Definition truthy_opt (v : option string) : bool :=
  match v with
  | Some s => truthy s
  | None => false
  end.

(** [x in l] for a list of strings *)
Definition mem (x : string) (l : list string) : bool :=
  bool_decide (x ∈ l).

End Py.

(** ** The fragment of Python's [re] module the program uses *)

Module Re.

Definition in_range (lo hi : nat) (c : ascii) : bool :=
  let n := nat_of_ascii c in (lo <=? n)%nat && (n <=? hi)%nat.

Definition is_digit (c : ascii) : bool := in_range 48 57 c.
Definition is_lower (c : ascii) : bool := in_range 97 122 c.
Definition is_upper (c : ascii) : bool := in_range 65 90 c.

(** the class [[a-zA-Z0-9]] *)
Definition is_alnum (c : ascii) : bool :=
  is_lower c || is_upper c || is_digit c.

(** the class [[0-9a-zA-Z_]] *)
Definition is_word (c : ascii) : bool :=
  is_digit c || is_lower c || is_upper c || Ascii.eqb c "_".

(** Length of the longest run of characters of a class at the start. *)
Fixpoint run (cls : ascii → bool) (s : string) : nat :=
  match s with
  | String c s' => if cls c then S (run cls s') else 0
  | "" => 0
  end.

Fixpoint take (n : nat) (s : string) : string :=
  match n, s with
  | S k, String c s' => String c (take k s')
  | _, _ => ""
  end.

Fixpoint drop (n : nat) (s : string) : string :=
  match n, s with
  | S k, String _ s' => drop k s'
  | _, _ => s
  end.

(** A match of [opening cls+ closing] at the start of [s]: the run of the
    class.  The run is maximal: [closing] is not in the class, so a shorter
    run is never followed by [closing]. *)
Definition enclosed (opening : string) (cls : ascii → bool)
    (closing : ascii) (s : string) : option string :=
  if Py.startswith s opening then
    let s' := drop (String.length opening) s in
    let n := run cls s' in
    if (0 <? n)%nat && Py.startswith (drop n s') (String closing "")
    then Some (take n s') else None
  else None.

(** A match of [\$\{[0-9a-zA-Z_]+\}] at the start of [s]. *)
Definition placeholder (s : string) : option string :=
  enclosed "${" is_word "}" s.

(** A match of [<([a-zA-Z0-9]+)>] at the start of [s]: its group. *)
Definition variable (s : string) : option string :=
  enclosed "<" is_alnum ">" s.

(** The replacement text of [re.sub]: a group that matches anything. *)
Definition wildcard : string := "(.*)".

(** [re.sub] of the pattern [\$\{[0-9a-zA-Z_]+\}] by [wildcard] in [s]: the
    matches are found from left to right and do not overlap; [skip] counts
    the characters of the last match that are still to be passed over. *)
Fixpoint sub_from (skip : nat) (s : string) : string :=
  match s with
  | "" => ""
  | String c s' =>
      match skip with
      | S k => sub_from k s'
      | O =>
          match placeholder s with
          | Some name => wildcard +:+ sub_from (String.length name + 2) s'
          | None => String c (sub_from 0 s')
          end
      end
  end.

Definition sub_placeholders (s : string) : string := sub_from 0 s.

(** [re.findall('<([a-zA-Z0-9]+)>', s)] *)
Fixpoint findall_from (skip : nat) (s : string) : list string :=
  match s with
  | "" => []
  | String c s' =>
      match skip with
      | S k => findall_from k s'
      | O =>
          match variable s with
          | Some name => name :: findall_from (String.length name + 1) s'
          | None => findall_from 0 s'
          end
      end
  end.

Definition findall_variables (s : string) : list string := findall_from 0 s.

(** Whether [s] has an occurrence of [${identifier}]. *)
Fixpoint has_placeholder (s : string) : bool :=
  match s with
  | "" => false
  | String _ s' => bool_decide (is_Some (placeholder s)) || has_placeholder s'
  end.

(** *** Compiling and matching

    [re.compile(p)] and [re.match(regex, s)], of which the program uses the
    truth value only.  [compile] gives [None] where Python raises
    [re.error]. *)
Class Engine := {
  pattern : Type;
  compile : string → option pattern;
  matches : pattern → string → bool
}.

(** The patterns whose meaning is fixed here: a sequence of ordinary
    characters and of groups [wildcard], which is what [sub_placeholders] makes
    of a keyword name that has no special character of its own. *)
Inductive item :=
| Chr (c : ascii)
| Any.

(** The characters with a meaning of their own in a pattern. *)
Definition special (c : ascii) : bool :=
  bool_decide (c ∈ list_ascii_of_string ".^$*+?{}[]\|()").

Fixpoint parse (p : string) : option (list item) :=
  match p with
  | "" => Some []
  | String "(" (String "." (String "*" (String ")" p'))) =>
      cons Any <$> parse p'
  | String c p' =>
      if special c then None else cons (Chr c) <$> parse p'
  end.

(** [re.match]: the pattern has to match at the start of [s], not all of
    it; [.] is any character but a newline. *)
Fixpoint match_items (its : list item) (s : string) : bool :=
  match its with
  | [] => true
  | Chr c :: r =>
      match s with
      | String d s' => Ascii.eqb c d && match_items r s'
      | "" => false
      end
  | Any :: r =>
      (fix star (s : string) : bool :=
         match_items r s ||
         match s with
         | String d s' => negb (Ascii.eqb d "010") && star s'
         | "" => false
         end) s
  end.

(** The engine restricted to these patterns: any other pattern is refused. *)
Definition fragment : Engine :=
  {| pattern := list item; compile := parse; matches := match_items |}.

(** An engine that reads the patterns of the fragment as above, whatever it
    does with the others. *)
Definition agrees_with_fragment (E : Engine) : Prop :=
  ∀ p its, parse p = Some its →
    ∃ r, compile p = Some r ∧ ∀ s, matches r s = match_items its s.

End Re.

(** ** Exceptions *)

Inductive exn :=
| RuntimeWarning (msg : string)
| RuntimeError (msg : string)
| UnboundLocalError (name : string)
| IndexError
| KeyError (key : string)
| FileNotFoundError (path : string)
| ReError (pat : string).

Inductive result (A : Type) :=
| Ok (a : A)
| Raise (e : exn).
Arguments Ok {A} a.
Arguments Raise {A} e.

#[export] Instance result_ret : MRet result := λ A a, Ok a.
#[export] Instance result_bind : MBind result := λ A B f m,
  match m with
  | Ok a => f a
  | Raise e => Raise e
  end.

(** ** The line model *)

Inductive Line :=
| Text (s : string)
| Fields (l : list string).

Definition FIELD_SEP : string := "    ".

Definition newline : string := String "010" "".

(** [write_to_script(outfile, line)]: the text it writes to [outfile]. *)
Definition write_to_script (line : Line) : string :=
  match line with
  | Fields l => Py.join FIELD_SEP l +:+ newline
  | Text s => s +:+ newline
  end.

(** ** The parsed feature, as the Gherkin parser hands it over *)

Record Tag := { tag_name : string }.
Record Cell := { value : string }.
Record TableRow := { cells : list Cell }.
Record DataTable := { rows : list TableRow }.
Record DocString := { content : string }.

Record Step := {
  step_keyword : string;
  step_text : string;
  docString : option DocString;
  dataTable : option DataTable
}.

Record Examples := {
  ex_name : string;
  ex_line : nat;
  ex_description : option string;
  ex_tags : list Tag;
  tableHeader : TableRow;
  tableBody : list TableRow
}.

Record Scenario := {
  sc_keyword : string;
  sc_name : string;
  sc_description : option string;
  sc_tags : list Tag;
  sc_steps : list Step;
  sc_examples : list Examples
}.

Record Background := {
  bg_name : string;
  bg_steps : list Step
}.

(** A child of the feature is a dict with one key. *)
Inductive Child :=
| ChildBackground (b : Background)
| ChildScenario (s : Scenario)
| ChildOther (keys : list string).

Record Feature := {
  f_name : string;
  f_description : option string;
  f_tags : list Tag;
  f_children : list Child
}.

(** ** What the program takes from outside *)

(** The module [translation], which is not among the sources: [tr key] and
    [tr key default] for the active language, and [get_language()]. *)
Class Localization := {
  tr : string → option string → string;
  get_language : string
}.

(** The order in which a Python [set] built from a list is iterated: its
    elements, each once, in an order the language leaves open. *)
Class SetOrder := {
  set_iter : list string → list string;
  set_iter_elem : ∀ l x, x ∈ set_iter l ↔ x ∈ l;
  set_iter_NoDup : ∀ l, NoDup (set_iter l)
}.

(** ** The globals of the module *)

Definition registry := list (string * option string).

Record State := {
  settings_lines : list Line;
  test_cases_lines : list Line;
  keywords_lines : list Line;
  seen_steps : registry;
  background_available : bool
}.

(** The values [process_gherkin] gives the globals before a feature. *)
Definition initial_state : State :=
  {| settings_lines := []; test_cases_lines := []; keywords_lines := [];
     seen_steps := []; background_available := false |}.

Definition set_settings_lines (l : list Line) (st : State) : State :=
  {| settings_lines := l; test_cases_lines := test_cases_lines st;
     keywords_lines := keywords_lines st; seen_steps := seen_steps st;
     background_available := background_available st |}.

Definition set_test_cases_lines (l : list Line) (st : State) : State :=
  {| settings_lines := settings_lines st; test_cases_lines := l;
     keywords_lines := keywords_lines st; seen_steps := seen_steps st;
     background_available := background_available st |}.

Definition set_keywords_lines (l : list Line) (st : State) : State :=
  {| settings_lines := settings_lines st;
     test_cases_lines := test_cases_lines st;
     keywords_lines := l; seen_steps := seen_steps st;
     background_available := background_available st |}.

Definition set_seen_steps (r : registry) (st : State) : State :=
  {| settings_lines := settings_lines st;
     test_cases_lines := test_cases_lines st;
     keywords_lines := keywords_lines st; seen_steps := r;
     background_available := background_available st |}.

Definition set_background_available (b : bool) (st : State) : State :=
  {| settings_lines := settings_lines st;
     test_cases_lines := test_cases_lines st;
     keywords_lines := keywords_lines st; seen_steps := seen_steps st;
     background_available := b |}.

(** [key in seen_steps] *)
Definition registered (key : string) (r : registry) : bool :=
  Py.mem key (r.*1).

(** ** The table transformer *)

Definition process_datatable_rows (datatable : list TableRow)
    : list (list string) :=
  map (λ row, map value (cells row)) datatable.

(** [dt[0]] is read after the first line is appended; an empty table makes it
    raise [IndexError]. *)
Definition generate_datatable_as_list_of_dict (output : list Line)
    (dt : list (list string)) : result (list Line * string) :=
  let output := output ++ [Fields [""; "${DataTable}="; "Create List"]] in
  header ← match dt with
           | h :: _ => Ok h
           | [] => Raise IndexError
           end;
  let line := [""; "FOR"] ++ map (λ col, "${" +:+ col +:+ "}") header
              ++ ["IN"] in
  let output := output ++ [Fields line] in
  let output := output ++ map (λ row, Fields ([""; "..."] ++ row)) (tail dt) in
  let line := [""; ""; "${entry}="; "Create Dictionary"]
              ++ map (λ col, col +:+ "=${" +:+ col +:+ "}") header in
  let output := output ++ [Fields line] in
  let output :=
    output ++ [Fields [""; ""; "Append To List"; "${DataTable}"; "${entry}"]] in
  let output := output ++ [Fields [""; "END"]] in
  Ok (output, "@{DataTable}").

Definition process_docstring (output : list Line) (docstring : DocString)
    : list Line * string :=
  let output :=
    output ++ [Fields [""; "${DocString}="; "Catenate"; "SEPARATOR=\n"]] in
  let content := Py.split "010" (content docstring) in
  let output :=
    output ++ map (λ line, if Py.truthy line then Fields [""; "..."; line]
                           else Fields [""; "..."; "${EMPTY}"]) content in
  (output, "${DocString}").

Definition process_datatable (output : list Line) (datatable : DataTable)
    : result (list Line * string) :=
  let dt := process_datatable_rows (rows datatable) in
  generate_datatable_as_list_of_dict output dt.

(** ** The step renderer *)

Section Translator.
Context `{!Localization} `{!SetOrder}.

(** [text.replace('<', '${').replace('>', '}')] *)
Definition rewrite_placeholders (text : string) : string :=
  Py.replace ">" "}" (Py.replace "<" "${" text).

(** Lines 359-363 of [add_step]: the lines the argument of the step adds to
    [output], and [argument_variable]. *)
Definition step_argument (output : list Line) (step : Step)
    : result (list Line * option string) :=
  match docString step, dataTable step with
  | Some d, _ =>
      let '(output, v) := process_docstring output d in
      Ok (output, Some v)
  | None, Some t =>
      '(output, v) ← process_datatable output t;
      Ok (output, Some v)
  | None, None => Ok (output, None)
  end.

(** [output] is the list the caller passes, [seen] the global [seen_steps];
    both come back extended. *)
Definition add_step (output : list Line) (seen : registry) (step : Step)
    : result (list Line * registry) :=
  let text := rewrite_placeholders (step_text step) in
  let '(keyword, resource_keyword) :=
    if String.eqb (step_keyword step) "* " then (text, text)
    else (tr (step_keyword step) (Some (step_keyword step)) +:+ text, text) in
  '(output, argument_variable) ← step_argument output step;
  let seen :=
    if registered resource_keyword seen then seen
    else seen ++ [(resource_keyword, argument_variable)] in
  if Py.truthy_opt argument_variable then
    Ok (output ++ [Fields [""; keyword; default "" argument_variable]], seen)
  else Ok (output ++ [Fields [""; keyword]], seen).

(** [for step in steps: add_step(output, step)] *)
Fixpoint add_steps (output : list Line) (seen : registry)
    (steps : list Step) : result (list Line * registry) :=
  match steps with
  | [] => Ok (output, seen)
  | step :: steps' =>
      '(output, seen) ← add_step output seen step;
      add_steps output seen steps'
  end.

(** ** The feature translator *)

Definition append_test_cases (l : list Line) (st : State) : State :=
  set_test_cases_lines (test_cases_lines st ++ l) st.

Definition append_keywords (l : list Line) (st : State) : State :=
  set_keywords_lines (keywords_lines st ++ l) st.

Definition append_settings (l : list Line) (st : State) : State :=
  set_settings_lines (settings_lines st ++ l) st.

(** [tag['name'][1:]] for every tag *)
Definition tag_names (tags : list Tag) : list string :=
  map (λ tag, Py.tail (tag_name tag)) tags.

Definition process_tags (tags : list Tag) (st : State) : State :=
  let tags_list := [""; "[" +:+ tr "tags" None +:+ "]"] ++ tag_names tags in
  append_test_cases [Fields tags_list] st.

Definition make_empty (x : string) : string :=
  if String.eqb x "" then "${EMPTY}" else x.

(** The lines both documentation helpers append. *)
Definition documentation_lines (description : string) : list Line :=
  if Py.truthy description then
    let _description := Py.split "010" (Py.strip description) in
    Fields [""; "[" +:+ tr "documentation" None +:+ "]";
            hd "" _description]
      :: map (λ doc, Fields [""; "..."; Py.strip doc]) (tail _description)
  else [].

Definition _add_test_case_documentation (description : string) (st : State)
    : State :=
  append_test_cases (documentation_lines description) st.

Definition _add_keyword_documentation (description : string) (st : State)
    : State :=
  append_keywords (documentation_lines description) st.

(** [add_step(test_cases_lines, step)] and [add_step(keywords_lines, step)]
    for every step of a list *)
Definition add_steps_to_test_cases (steps : list Step) (st : State)
    : result State :=
  '(output, seen) ← add_steps (test_cases_lines st) (seen_steps st) steps;
  Ok (set_seen_steps seen (set_test_cases_lines output st)).

Definition add_steps_to_keywords (steps : list Step) (st : State)
    : result State :=
  '(output, seen) ← add_steps (keywords_lines st) (seen_steps st) steps;
  Ok (set_seen_steps seen (set_keywords_lines output st)).

Definition process_background (background : Background) (st : State)
    : result State :=
  let st := set_background_available true st in
  let st := append_keywords [Text (tr "background" None)] st in
  let st :=
    if Py.truthy (bg_name background) then
      append_keywords
        [Fields [""; "[" +:+ tr "documentation" None +:+ "]";
                 bg_name background]] st
    else st in
  st ← add_steps_to_keywords (bg_steps background) st;
  Ok (append_keywords [Text ""] st).

Definition process_scenario_plain (scenario : Scenario) (st : State)
    : result State :=
  let st := append_test_cases [Text (sc_name scenario)] st in
  let st :=
    match sc_description scenario with
    | Some d => _add_test_case_documentation d st
    | None => st
    end in
  let st :=
    match sc_tags scenario with
    | [] => st
    | tags => process_tags tags st
    end in
  let st :=
    if background_available st then
      append_test_cases [Fields [""; tr "background" None]] st
    else st in
  st ← add_steps_to_test_cases (sc_steps scenario) st;
  Ok (append_test_cases [Text ""] st).

(** The name line 440-442 computes for the test case of an example block.
    The statement that appended it (line 444) is commented out: the value
    is not used. *)
Definition test_case_name (scenario : Scenario) (example : Examples)
    : string :=
  if Py.truthy (ex_name example) then
    sc_name scenario +:+ ": " +:+ ex_name example
  else
    sc_name scenario +:+ " example line " +:+ Py.str (ex_line example).

(** The name of the keyword an outline is turned into. *)
Definition template_name (scenario : Scenario) : string :=
  hd "" (Py.split "," (tr "scenariooutline" None)) +:+ " "
  +:+ sc_name scenario.

(** The loop over [example['tableHeader']['cells']]: the dict [header_col],
    the list [header] and the counter [col_nr]. *)
Fixpoint read_header (header_cells : list Cell)
    (header_col : gmap string nat) (header : list string) (col_nr : nat)
    : gmap string nat * list string :=
  match header_cells with
  | [] => (header_col, header)
  | header_cell :: rest =>
      let v := value header_cell in
      read_header rest (<[v := col_nr]> header_col) (header ++ [v])
                  (S col_nr)
  end.

(** [for v in variables: if v not in header: raise RuntimeWarning(...)] *)
Fixpoint check_variables (example : Examples) (header : list string)
    (variables : list string) : result () :=
  match variables with
  | [] => Ok ()
  | v :: rest =>
      if Py.mem v header then check_variables example header rest
      else Raise (RuntimeWarning ("Example " +:+ ex_name example
                                  +:+ " missing column " +:+ v))
  end.

(** [example_row['cells'][header_col[a]]['value']] for every [a] of the
    header *)
Fixpoint row_args (header_col : gmap string nat) (example_row : TableRow)
    (header : list string) : result (list string) :=
  match header with
  | [] => Ok []
  | a :: rest =>
      i ← match header_col !! a with
          | Some i => Ok i
          | None => Raise (KeyError a)
          end;
      cell ← match cells example_row !! i with
             | Some cell => Ok cell
             | None => Raise IndexError
             end;
      args ← row_args header_col example_row rest;
      Ok (value cell :: args)
  end.

(** [for example_row in example['tableBody']: ...] *)
Fixpoint add_rows (header_col : gmap string nat) (header : list string)
    (body : list TableRow) (st : State) : result State :=
  match body with
  | [] => Ok st
  | example_row :: rest =>
      args ← row_args header_col example_row header;
      let args := [""] ++ map make_empty args in
      add_rows header_col header rest (append_test_cases [Fields args] st)
  end.

(** One turn of the loop over [scenario['examples']]; the header it leaves
    in the local variable [header] is returned with the state. *)
Definition process_example (scenario : Scenario) (variables : list string)
    (example : Examples) (st : State) : result (State * list string) :=
  let _ := test_case_name scenario example in
  let st :=
    match ex_description example with
    | Some d => _add_test_case_documentation d st
    | None => st
    end in
  let tags := sc_tags scenario ++ ex_tags example in
  let st :=
    match tags with
    | [] => st
    | _ => process_tags tags st
    end in
  let st :=
    append_test_cases
      [Fields [""; "[" +:+ tr "template" None +:+ "]";
               template_name scenario]] st in
  let '(header_col, header) :=
    read_header (cells (tableHeader example)) ∅ [] 0 in
  _ ← check_variables example header variables;
  st ← add_rows header_col header (tableBody example) st;
  Ok (append_test_cases [Text ""] st, header).

(** [header] is [None] as long as the local variable is unbound. *)
Fixpoint process_examples (scenario : Scenario) (variables : list string)
    (examples : list Examples) (header : option (list string)) (st : State)
    : result (State * option (list string)) :=
  match examples with
  | [] => Ok (st, header)
  | example :: rest =>
      '(st, h) ← process_example scenario variables example st;
      process_examples scenario variables rest (Some h) st
  end.

(** [variables]: what [re.findall] gives on the steps, as a set. *)
Definition outline_variables (scenario : Scenario) : list string :=
  set_iter
    (concat (map (λ step, Re.findall_variables (step_text step))
                 (sc_steps scenario))).

Definition process_scenario_outline (scenario : Scenario) (st : State)
    : result State :=
  let variables := outline_variables scenario in
  '(st, header) ←
    process_examples scenario variables (sc_examples scenario) None st;
  let st := append_keywords [Text (template_name scenario)] st in
  let st :=
    match sc_description scenario with
    | Some d => _add_keyword_documentation d st
    | None => st
    end in
  header ← match header with
           | Some h => Ok h
           | None => Raise (UnboundLocalError "header")
           end;
  let arguments := map (λ arg, "${" +:+ arg +:+ "}") header in
  let st :=
    append_keywords
      [Fields ([""; "[" +:+ tr "arguments" None +:+ "]"] ++ arguments)] st in
  let st :=
    if background_available st then
      append_keywords [Fields [""; tr "background" None]] st
    else st in
  st ← add_steps_to_keywords (sc_steps scenario) st;
  Ok (append_keywords [Text ""] st).

Definition process_scenario (scenario : Scenario) (st : State)
    : result State :=
  if Py.mem (sc_keyword scenario)
       (["Scenario"] ++ Py.split "," (tr "scenario" None)) then
    process_scenario_plain scenario st
  else if Py.mem (sc_keyword scenario)
            (["Scenario Outline"]
             ++ Py.split "," (tr "scenariooutline" None)) then
    process_scenario_outline scenario st
  else
    Raise (RuntimeError ("Unimplemented scenario keyword: "
                         +:+ sc_keyword scenario)).

Fixpoint process_children (children : list Child) (st : State)
    : result State :=
  match children with
  | [] => Ok st
  | child :: rest =>
      st ← match child with
           | ChildBackground b => process_background b st
           | ChildScenario s => process_scenario s st
           | ChildOther keys =>
               Raise (RuntimeError ("Unimplemented child "
                                    +:+ Py.join "," keys))
           end;
      process_children rest st
  end.

(** [set_language(feature['language'])] selects the table [tr] reads from:
    [tr] stands for the provider once that call is made. *)
Definition process_feature (feature : Feature) (st : State) : result State :=
  let st := set_background_available false st in
  let st :=
    match f_description feature with
    | Some d =>
        let description := Py.split "010" (Py.strip d) in
        append_settings
          (Fields [tr "documentation" None; hd "" description]
             :: map (λ doc, Fields ["..."; doc]) (tail description)) st
    | None => st
    end in
  let st :=
    match f_tags feature with
    | [] => st
    | tags =>
        append_settings
          [Fields ([tr "testtags" None] ++ tag_names tags)] st
    end in
  process_children (f_children feature) st.

End Translator.

(** ** The resource reconciler *)

(** The file system and standard output. *)
Record World := {
  files : gmap string string;
  stdout : list string
}.

(** What a run is given: [os.path.join], [os.getcwd()], the globals
    [settings_dir] and [verbose] that [main] sets, the value of
    [datetime.now().isoformat()], and the text [pprint] prints for a value. *)
Class Host := {
  path_join : string → string → string;
  getcwd : string;
  settings_dir : string;
  verbose : bool;
  now_isoformat : string;
  pformat_keywords : list (string * string) → string;
  pformat_steps : registry → string
}.

(** A computation on the world that may raise; the world it leaves is kept
    when it does. *)
Definition M (A : Type) : Type := World → World * result A.

#[export] Instance M_ret : MRet M := λ A a w, (w, Ok a).
#[export] Instance M_bind : MBind M := λ A B f m w,
  match m w with
  | (w', Ok a) => f a w'
  | (w', Raise e) => (w', Raise e)
  end.

Definition raise {A} (e : exn) : M A := λ w, (w, Raise e).

Definition lift {A} (r : result A) : M A := λ w, (w, r).

(** [print(s)] *)
Definition print (s : string) : M () :=
  λ w, ({| files := files w; stdout := stdout w ++ [s] |}, Ok ()).

(** [os.path.exists(fn)] *)
Definition path_exists (fn : string) : M bool :=
  λ w, (w, Ok (bool_decide (is_Some (files w !! fn)))).

(** [open(fn).readlines()] *)
Definition read_lines (fn : string) : M (list string) :=
  λ w, match files w !! fn with
       | Some text => (w, Ok (Py.readlines text))
       | None => (w, Raise (FileNotFoundError fn))
       end.

(** The file [fn] with the text [text] in it: [open(fn, 'w')] leaves the
    empty text, closing the file what was written to it. *)
Definition store (fn : string) (text : string) : M () :=
  λ w, ({| files := <[fn := text]> (files w); stdout := stdout w |}, Ok ()).

Definition when (b : bool) (m : M ()) : M () :=
  if b then m else mret ().

Section Reconciler.
Context `{!Localization} `{!Re.Engine} `{!Host}.

Definition tab : string := String "009" "".

Definition dquote : string := String "034" "".

(** The message of the failing body: the word Keyword, the keyword between
    double quotes, and the words Not Implemented Yet. *)
Definition not_implemented (keyword : string) : string :=
  "Keyword " +:+ dquote +:+ keyword +:+ dquote +:+ " Not Implemented Yet".

(** The loop over the lines of a resource file. *)
Fixpoint read_keywords (lines : list string) (in_keywords : bool)
    (keywords : list (string * string)) : list (string * string) :=
  match lines with
  | [] => keywords
  | line :: rest =>
      if negb (Py.truthy (Py.strip line)) then
        read_keywords rest in_keywords keywords
      else if in_keywords then
        if negb (Py.startswith line " ") && negb (Py.startswith line tab)
        then
          let keyword := Py.strip line in
          let kw := Re.sub_placeholders keyword in
          read_keywords rest in_keywords (keywords ++ [(keyword, kw)])
        else read_keywords rest in_keywords keywords
      else if Py.startswith line "*** Keywords ***"
              || Py.startswith line (tr "keywords_section" None) then
        read_keywords rest true keywords
      else read_keywords rest in_keywords keywords
  end.

Definition _read_keywords_from_resource (fn : string)
    : M (list (string * string)) :=
  lines ← read_lines fn;
  let keywords := read_keywords lines false [] in
  _ ← when verbose (print (pformat_keywords keywords));
  mret keywords.

(** The inner loop of lines 178-185 (and 192-199): [ff] after it. *)
Fixpoint keyword_found (keyword : string) (kw : list (string * string))
    (ff : bool) : result bool :=
  match kw with
  | [] => Ok ff
  | (keyword_org, keyword_regex) :: rest =>
      if String.eqb keyword keyword_org then keyword_found keyword rest true
      else
        regex ← match Re.compile keyword_regex with
                | Some regex => Ok regex
                | None => Raise (ReError keyword_regex)
                end;
        keyword_found keyword rest
          (if Re.matches regex keyword then true else ff)
  end.

(** The first loop over [seen_steps.items()]: [found] after it. *)
Fixpoint any_missing (kw : list (string * string)) (items : registry)
    (found : bool) : result bool :=
  match items with
  | [] => Ok found
  | (keyword, argument) :: rest =>
      ff ← keyword_found keyword kw false;
      any_missing kw rest (if ff : bool then found else true)
  end.

(** What the report prints for one missing keyword. *)
Definition report_stub (keyword : string) (argument : option string)
    : M () :=
  _ ← print keyword;
  _ ← match argument with
      | Some a =>
          when (Py.truthy a)
            (print (Py.join FIELD_SEP
                      [""; "[" +:+ tr "arguments" None +:+ "]"; a]))
      | None => mret ()
      end;
  print (Py.join FIELD_SEP
           [""; "Fail"; not_implemented keyword]).

(** The second loop over [seen_steps.items()]. *)
Fixpoint report_missing (kw : list (string * string)) (items : registry)
    : M () :=
  match items with
  | [] => mret ()
  | (keyword, argument) :: rest =>
      ff ← lift (keyword_found keyword kw false);
      _ ← when (negb ff) (report_stub keyword argument);
      report_missing kw rest
  end.

(** The text [_apply_settings(outfile, filename)] writes to [outfile]. *)
Fixpoint apply_settings_from (candidates : list string) : M string :=
  match candidates with
  | [] => mret ""
  | fn :: rest =>
      b ← path_exists fn;
      if b : bool then
        _ ← when verbose (print ("Apply extra settings: " +:+ fn));
        lines ← read_lines fn;
        mret (String.concat "" lines +:+ newline)
      else apply_settings_from rest
  end.

Definition _apply_settings (filename : string) : M string :=
  apply_settings_from
    [path_join settings_dir filename; path_join getcwd filename].

Definition apply_resource_settings : M string :=
  _apply_settings "resource.settings".

(** What lines 222-228 write for one entry of [seen_steps]. *)
Definition stub (k : string) (v : option string) : string :=
  write_to_script (Text k)
  +:+ (if Py.truthy_opt v then
         write_to_script
           (Fields [""; "[" +:+ tr "arguments" None +:+ "]"; default "" v])
       else "")
  +:+ write_to_script
        (Fields [""; "Fail"; not_implemented k])
  +:+ write_to_script (Text "").

Fixpoint stubs (items : registry) : string :=
  match items with
  | [] => ""
  | (k, v) :: rest => stub k v +:+ stubs rest
  end.

(** What is written to a new resource before the stubs, given what
    [apply_resource_settings] wrote. *)
Definition resource_head (settings : string) : string :=
  (if String.eqb get_language "en" then ""
   else write_to_script (Text ("Language: " +:+ get_language +:+ newline)))
  +:+ write_to_script (Text (tr "settings_section" None))
  +:+ settings
  +:+ write_to_script
        (Fields [tr "documentation" None; "Generated by";
                 "_gherkin2robotframework on " +:+ now_isoformat +:+ "_"])
  +:+ write_to_script (Fields [tr "library" None; "Collections"])
  +:+ write_to_script (Text (newline +:+ tr "keywords_section" None)).

(** Lines 172-208: the resource exists. *)
Definition reconcile (fn step_definitions_resource : string) (seen : registry)
    : M () :=
  _ ← when verbose (print ("existing file " +:+ step_definitions_resource));
  kw ← _read_keywords_from_resource fn;
  found ← lift (any_missing kw seen false);
  when found
    (_ ← print (newline +:+ "Missing keywords for: " +:+ fn +:+ newline);
     _ ← report_missing kw seen;
     print newline).

(** Lines 210-228: the resource is new. *)
Definition create_resource (fn step_definitions_resource : string)
    (seen : registry) : M () :=
  _ ← when verbose (print ("new file " +:+ step_definitions_resource));
  _ ← store fn "";
  settings ← apply_resource_settings;
  store fn (resource_head settings +:+ stubs seen).

Definition generate_robot_script_resource (path : string)
    (step_definitions_resource : string) (seen : registry) : M () :=
  let fn := path_join path step_definitions_resource in
  b ← path_exists fn;
  _ ← (if b : bool then reconcile fn step_definitions_resource seen
       else create_resource fn step_definitions_resource seen);
  when verbose (print (pformat_steps seen)).

End Reconciler.

(** ** The script writer *)

(** [str.lower()] on one character: the letters among the code points below
    256 that have a lower-case form there. *)
Definition lower_char (c : ascii) : ascii :=
  let n := nat_of_ascii c in
  if ((65 <=? n) && (n <=? 90))
     || ((192 <=? n) && (n <=? 222) && negb (n =? 215))
  then ascii_of_nat (n + 32) else c.

(** [s.lower()] *)
Fixpoint lower (s : string) : string :=
  match s with
  | "" => ""
  | String c s' => String (lower_char c) (lower s')
  end.

(** [for line in lines: write_to_script(outfile, line)] *)
Fixpoint write_lines (lines : list Line) : string :=
  match lines with
  | [] => ""
  | line :: rest => write_to_script line +:+ write_lines rest
  end.

(** What the writer of the script is given besides the host: the
    directories, which are not in the world, and the clock of line 125.
    [has_directory path fn] says whether the directory of the file [fn] is
    there once lines 107-108 are passed, which make the directory [path] and
    no other: [open(fn, 'w')] creates the file in its directory, and raises
    when the directory is not there.  [script_now_isoformat] is the value of
    [datetime.now().isoformat()] at line 125; the clock is read again at
    line 218, which is [now_isoformat]. *)
Class Target := {
  has_directory : string → string → bool;
  script_now_isoformat : string
}.

Section Writer.
Context `{!Localization} `{!Re.Engine} `{!Host} `{!Target}.

Definition apply_feature_settings : M string :=
  _apply_settings "feature.settings".

(** The names of the two files of a feature: [step_definitions_resource]
    and [fn]. *)
Definition resource_name (feature_name : string) : string :=
  Py.replace " " "_" (lower (feature_name +:+ "_step_definitions.resource")).

Definition script_name (feature_name : string) : string :=
  Py.replace " " "_" (lower feature_name) +:+ ".robot".

(** What lines 115-131 write: the sections of the settings and of the test
    cases, given what [apply_feature_settings] wrote. *)
Definition script_front (feature_name settings : string) (st : State)
    : string :=
  (if String.eqb get_language "en" then ""
   else write_to_script (Text ("Language: " +:+ get_language +:+ newline)))
  +:+ write_to_script (Text (tr "settings_section" None))
  +:+ settings
  +:+ write_lines (settings_lines st)
  +:+ write_to_script
        (Fields [tr "resource" None; "./" +:+ resource_name feature_name])
  +:+ write_to_script (Fields [tr "metadata" None; "Feature"; feature_name])
  +:+ write_to_script
        (Fields [tr "metadata" None; "Generated by";
                 "_gherkin2robotframework on " +:+ script_now_isoformat
                 +:+ "_"])
  +:+ write_to_script (Text "")
  +:+ write_to_script (Text (tr "testcases_section" None))
  +:+ write_lines (test_cases_lines st)
  +:+ write_to_script (Text "").

(** What lines 133-137 write: the section of the keywords, when there is a
    line for it. *)
Definition keywords_section (st : State) : string :=
  match keywords_lines st with
  | [] => ""
  | lines =>
      write_to_script (Text (tr "keywords_section" None))
      +:+ write_lines lines
      +:+ write_to_script (Text "")
  end.

Definition script_text (feature_name settings : string) (st : State)
    : string :=
  script_front feature_name settings st +:+ keywords_section st.

(** Lines 107-108: nothing is at the empty path, and [os.makedirs] raises
    for it; any other directory is there or is made, with those above it,
    which changes no file. *)
Definition make_directory (path : string) : M () :=
  if Py.truthy path then mret () else raise (FileNotFoundError "").

(** [open(fn, 'w')] at line 114: it raises when the directory of the file is
    not there, and leaves the empty text in the file otherwise, before
    anything is read. *)
Definition open_script (path fn : string) : M () :=
  if has_directory path fn then store fn ""
  else raise (FileNotFoundError fn).

Definition generate_robot_script (path feature_name : string) (st : State)
    : M () :=
  _ ← make_directory path;
  let step_definitions_resource := resource_name feature_name in
  let fn := script_name feature_name in
  _ ← open_script path (path_join path fn);
  settings ← apply_feature_settings;
  _ ← store (path_join path fn) (script_text feature_name settings st);
  generate_robot_script_resource path step_definitions_resource
    (seen_steps st).

End Writer.

(** ** One feature file *)

(** What [Parser().parse(content)] gives: the parser raises an exception of
    its own; it returns [None]; or it returns a document, with or without
    the key [feature]. *)
Inductive parsed :=
| ParserRaises
| ParsedNone
| Document (feature : option Feature).

(** The parser of the package [gherkin], and [os.path.dirname]. *)
Class Parser := {
  parse : string → parsed;
  dirname : string → string
}.

(** How [process_gherkin] ends: it returns, it raises an exception of the
    program or of what the program calls, or the parser raises. *)
Inductive outcome :=
| Done
| Failed (e : exn)
| ParserError.

Section Gherkin.
Context `{!Localization} `{!SetOrder} `{!Re.Engine} `{!Host} `{!Target}
  `{!Parser}.

(** What lines 48-51 print. *)
Definition processing (gherkin_filename basedir output : string)
    : list string :=
  ["Processing gherkin: " +:+ gherkin_filename]
  ++ (if verbose then ["Basedir: " +:+ basedir; "Output: " +:+ output]
      else []).

(** The directory of the feature below [basedir]: the variable
    [feature_sub]. *)
Definition feature_sub (gherkin_filename basedir : string) : string :=
  let feature_base := dirname gherkin_filename in
  if Py.startswith feature_base basedir then
    Re.drop (String.length basedir + 1) feature_base
  else feature_base.

(** The globals are given their first values before [process_feature], but
    for [background_available], which [process_feature] sets itself. *)
Definition process_gherkin (gherkin_filename basedir output : string)
    (w : World) : World * outcome :=
  let w :=
    {| files := files w;
       stdout := stdout w ++ processing gherkin_filename basedir output |} in
  match files w !! gherkin_filename with
  | None => (w, Failed (FileNotFoundError gherkin_filename))
  | Some content =>
      match parse content with
      | ParserRaises => (w, ParserError)
      | ParsedNone =>
          (w, Failed (RuntimeError ("Syntax error in file: "
                                    +:+ gherkin_filename)))
      | Document None => (w, Failed (KeyError "feature"))
      | Document (Some feature) =>
          match process_feature feature initial_state with
          | Raise e => (w, Failed e)
          | Ok st =>
              match generate_robot_script
                      (path_join output (feature_sub gherkin_filename basedir))
                      (f_name feature) st w with
              | (w', Ok _) => (w', Done)
              | (w', Raise e) => (w', Failed e)
              end
          end
      end
  end.

End Gherkin.

(** ** The directory of the settings *)

(** [os.path.split], and whether [glob.glob] finds a file [*.settings] in a
    directory. *)
Class Directories := {
  path_split : string → string * string;
  has_settings : string → bool
}.

Section SettingsDir.
Context `{!Directories}.

(** The loop of lines 520-523, for at most [fuel] turns: [d] and [t] after
    it, or [None] when the turns do not suffice.  [t] is [None] as long as
    the loop has not assigned it. *)
Fixpoint settings_loop (fuel : nat) (d : string) (t : option string)
    : option (string * option string) :=
  if Py.truthy d && negb (has_settings d) then
    match fuel with
    | O => None
    | S fuel' =>
        let '(d', t') := path_split d in
        if negb (Py.truthy t') then Some (d', Some t')
        else settings_loop fuel' d' (Some t')
    end
  else Some (d, t).

(** The value [determine_settings_dir(start_dir)] leaves in the global
    [settings_dir].  The head [os.path.split] gives is shorter than the path
    when the tail is not empty, so the loop ends within the turns it is
    given here. *)
Definition determine_settings_dir (start_dir : string) : option string :=
  '(d, t) ← settings_loop (S (String.length start_dir)) start_dir None;
  Some (if Py.truthy_opt t then d else start_dir).

End SettingsDir.

(** ** Instances to run the program on *)

(** Modelled from the spec: the Localization Provider for English (the module
    [translation] is not among the sources).  The section and setting names
    are those of the target format; a key without an entry gives the default
    when there is one, and the key itself otherwise. *)
Definition tr_en (key : string) (dflt : option string) : string :=
  if String.eqb key "settings_section" then "*** Settings ***"
  else if String.eqb key "testcases_section" then "*** Test Cases ***"
  else if String.eqb key "keywords_section" then "*** Keywords ***"
  else if String.eqb key "resource" then "Resource"
  else if String.eqb key "metadata" then "Metadata"
  else if String.eqb key "documentation" then "Documentation"
  else if String.eqb key "library" then "Library"
  else if String.eqb key "testtags" then "Test Tags"
  else if String.eqb key "tags" then "Tags"
  else if String.eqb key "template" then "Template"
  else if String.eqb key "arguments" then "Arguments"
  else if String.eqb key "background" then "Background"
  else if String.eqb key "scenario" then "Scenario"
  else if String.eqb key "scenariooutline" then "Scenario Outline"
  else default key dflt.

Definition en : Localization := {| tr := tr_en; get_language := "en" |}.

(** A set iterated in the order in which its elements were first added. *)
Definition first_seen : SetOrder :=
  {| set_iter := remove_dups;
     set_iter_elem := λ l x, elem_of_remove_dups l x;
     set_iter_NoDup := λ l, NoDup_remove_dups l |}.

(** A run that is not verbose, with paths joined by a slash. *)
Definition quiet_host : Host :=
  {| path_join := λ a b, a +:+ "/" +:+ b;
     getcwd := "/work";
     settings_dir := "/work";
     verbose := false;
     now_isoformat := "2024-05-01T12:00:00";
     pformat_keywords := λ _, "";
     pformat_steps := λ _, "" |}.

Definition plain_step (keyword text : string) : Step :=
  {| step_keyword := keyword; step_text := text;
     docString := None; dataTable := None |}.

Definition row (values : list string) : TableRow :=
  {| cells := map (λ v, {| value := v |}) values |}.

Definition table_step (keyword text : string) (table : list (list string))
    : Step :=
  {| step_keyword := keyword; step_text := text; docString := None;
     dataTable := Some {| rows := map row table |} |}.

(** Two example blocks, of three and of two data rows: one with a name, one
    without. *)
Definition examples_small : Examples :=
  {| ex_name := "small"; ex_line := 7; ex_description := None;
     ex_tags := []; tableHeader := row ["balance"; "amount"];
     tableBody := [row ["10"; "1"]; row ["20"; "2"]; row ["30"; ""]] |}.

Definition examples_unnamed : Examples :=
  {| ex_name := ""; ex_line := 13; ex_description := None;
     ex_tags := []; tableHeader := row ["balance"; "amount"];
     tableBody := [row ["100"; "10"]; row ["200"; "20"]] |}.

(** An outline with these two example blocks. *)
Definition outline_3_2 : Scenario :=
  {| sc_keyword := "Scenario Outline";
     sc_name := "Withdraw";
     sc_description := None;
     sc_tags := [];
     sc_steps := [plain_step "Given " "the balance is <balance>";
                  plain_step "When " "I withdraw <amount>"];
     sc_examples := [examples_small; examples_unnamed] |}.

(** An outline whose step refers to a column its example block lacks. *)
Definition outline_missing_column : Scenario :=
  {| sc_keyword := "Scenario Outline";
     sc_name := "Check";
     sc_description := None;
     sc_tags := [];
     sc_steps := [plain_step "Then " "the value is <amount>"];
     sc_examples :=
       [ {| ex_name := "first"; ex_line := 5; ex_description := None;
            ex_tags := []; tableHeader := row ["other"];
            tableBody := [row ["1"]] |};
         {| ex_name := "second"; ex_line := 9; ex_description := None;
            ex_tags := []; tableHeader := row ["amount"];
            tableBody := [row ["2"]] |} ] |}.

(** An outline whose two example blocks have different headers. *)
Definition outline_two_headers : Scenario :=
  {| sc_keyword := "Scenario Outline";
     sc_name := "Pay";
     sc_description := None;
     sc_tags := [];
     sc_steps := [plain_step "Given " "a payment of <amount>"];
     sc_examples :=
       [ {| ex_name := "cash"; ex_line := 5; ex_description := None;
            ex_tags := []; tableHeader := row ["amount"; "coins"];
            tableBody := [row ["1"; "2"]] |};
         {| ex_name := "card"; ex_line := 9; ex_description := None;
            ex_tags := []; tableHeader := row ["amount"; "card"];
            tableBody := [row ["3"; "visa"]] |} ] |}.

(** An outline without example blocks. *)
Definition outline_no_examples : Scenario :=
  {| sc_keyword := "Scenario Outline";
     sc_name := "Empty";
     sc_description := None;
     sc_tags := [];
     sc_steps := [plain_step "Given " "a <thing>"];
     sc_examples := [] |}.

(** The scenario of the end-to-end example. *)
Definition login_scenario : Scenario :=
  {| sc_keyword := "Scenario";
     sc_name := "Login";
     sc_description := None;
     sc_tags := [];
     sc_steps := [plain_step "Given " "a user exists";
                  plain_step "When " "the user logs in"];
     sc_examples := [] |}.

Definition empty_world : World := {| files := ∅; stdout := [] |}.

(** A background with one step. *)
Definition background_user : Background :=
  {| bg_name := ""; bg_steps := [plain_step "Given " "a user exists"] |}.

(** Its first step has a table; the texts of the two others are texts of
    steps before them. *)
Definition scenario_again : Scenario :=
  {| sc_keyword := "Scenario"; sc_name := "Again";
     sc_description := None; sc_tags := [];
     sc_steps :=
       [table_step "And " "the user logs in" [["name"]; ["Ann"]];
        plain_step "When " "a user exists";
        plain_step "Then " "the user logs in"];
     sc_examples := [] |}.

(** The feature of the two. *)
Definition feature_repeated : Feature :=
  {| f_name := "Login"; f_description := None; f_tags := [];
     f_children :=
       [ChildBackground background_user; ChildScenario scenario_again] |}.


(** The registry of a feature with a plain step and a step with a table. *)
Definition two_steps_registry : registry :=
  [("a user exists", None); ("the user logs in", Some "@{DataTable}")].

(** A world with a resource whose keyword has a name that is no pattern: its
    parenthesis is not closed. *)
Definition unclosed_world : World :=
  {| files := {[ "out/login_step_definitions.resource"
                 := "*** Keywords ***" +:+ newline +:+ "Open (" +:+ newline ]};
     stdout := [] |}.

(** The world with the feature file of [feature_missing_column]. *)
Definition account_world : World :=
  {| files := {[ "features/account.feature" := "Feature: Account" ]};
     stdout := [] |}.

(** A parser that gives the same feature for every text, and the directory
    [features] for every path. *)
Definition parser_of (feature : Feature) : Parser :=
  {| parse := λ _, Document (Some feature); dirname := λ _, "features" |}.

(** [os.path.split] on paths with slashes, without the treatment of
    doubled slashes: the head is the path up to its last slash, without this
    slash unless it is the first character. *)
Fixpoint split_last (s : string) : option (string * string) :=
  match s with
  | "" => None
  | String c s' =>
      match split_last s' with
      | Some (h, t) => Some (String c h, t)
      | None => if Ascii.eqb c "/" then Some ("", s') else None
      end
  end.

(** The head of a path whose last slash is its first character is the
    slash; a path without a slash is a tail. *)
Definition posix_split (p : string) : string * string :=
  match split_last p with
  | Some ("", t) => ("/", t)
  | Some (h, t) => (h, t)
  | None => ("", p)
  end.

(** Directories with settings in [/work] only. *)
Definition work_directories : Directories :=
  {| path_split := posix_split;
     has_settings := λ d, String.eqb d "/work" |}.

(** [os.path.join] on paths with slashes: a second path that starts with a
    slash stands for itself, and a slash is put between the two unless the
    first is empty or ends with one. *)
Definition posix_join (a b : string) : string :=
  if Py.startswith b "/" then b
  else if negb (Py.truthy a) then b
  else match split_last a with
       | Some (_, "") => a +:+ b
       | _ => a +:+ "/" +:+ b
       end.

(** A run that is not verbose, on paths with slashes. *)
Definition posix_host : Host :=
  {| path_join := posix_join;
     getcwd := "/work";
     settings_dir := "/work";
     verbose := false;
     now_isoformat := "2024-05-01T12:00:00.000250";
     pformat_keywords := λ _, "";
     pformat_steps := λ _, "" |}.

(** A disk with no directory but those the program makes: the directory of
    a file is there when the file is in [path] itself, with no slash after
    the path.  The clock of line 125 is read before that of line 218. *)
Definition new_disk : Target :=
  {| has_directory := λ path fn,
       let d := posix_join path "" in
       Py.startswith fn d
       && bool_decide (split_last (Re.drop (String.length d) fn) = None);
     script_now_isoformat := "2024-05-01T12:00:00.000125" |}.

(** A parser that gives the same feature for every text, with
    [os.path.dirname] on paths with slashes. *)
Definition posix_parser (feature : Feature) : Parser :=
  {| parse := λ _, Document (Some feature);
     dirname := λ p, (posix_split p).1 |}.

(** A world with one feature file, in a directory below [features]. *)
Definition shop_world : World :=
  {| files := {[ "features/shop/login.feature" := "Feature: Login" ]};
     stdout := [] |}.

(** ** What the specification says, as definitions of their own *)

(** The rewriting the specification describes: an occurrence of a placeholder,
    which is what line 427 looks for, becomes a variable of the script, and
    every other character stays. *)
Fixpoint spec_rewrite_from (skip : nat) (s : string) : string :=
  match s with
  | "" => ""
  | String c s' =>
      match skip with
      | S k => spec_rewrite_from k s'
      | O =>
          match Re.variable s with
          | Some name =>
              "${" +:+ name +:+ "}"
              +:+ spec_rewrite_from (String.length name + 1) s'
          | None => String c (spec_rewrite_from 0 s')
          end
      end
  end.

Definition spec_rewrite_placeholders (text : string) : string :=
  spec_rewrite_from 0 text.

(** Whether every angle bracket of [s] is one of a placeholder occurrence. *)
Fixpoint brackets_enclose_from (skip : nat) (s : string) : bool :=
  match s with
  | "" => true
  | String c s' =>
      match skip with
      | S k => brackets_enclose_from k s'
      | O =>
          match Re.variable s with
          | Some name => brackets_enclose_from (String.length name + 1) s'
          | None =>
              negb (Ascii.eqb c "<") && negb (Ascii.eqb c ">")
              && brackets_enclose_from 0 s'
          end
      end
  end.

Definition brackets_enclose_variables (text : string) : bool :=
  brackets_enclose_from 0 text.

(** The keywords the specification calls continuation markers. *)
Definition continuation_marker (keyword : string) : bool :=
  Py.mem keyword ["* "; "And "].

(** The canonical text as the specification defines it. *)
Definition spec_canonical_text `{!Localization} (step : Step) : string :=
  if continuation_marker (step_keyword step) then
    rewrite_placeholders (step_text step)
  else
    tr (step_keyword step) (Some (step_keyword step))
    +:+ rewrite_placeholders (step_text step).

(** The stub of the specification for one entry of the registry: the text
    as the name of the keyword, the arguments when the entry has an argument
    variable, the body that fails, and an empty line. *)
Definition spec_stub `{!Localization} (entry : string * option string)
    : string :=
  entry.1 +:+ newline
  +:+ match entry.2 with
      | Some v =>
          FIELD_SEP +:+ "[" +:+ tr "arguments" None +:+ "]"
          +:+ FIELD_SEP +:+ v +:+ newline
      | None => ""
      end
  +:+ FIELD_SEP +:+ "Fail" +:+ FIELD_SEP
  +:+ "Keyword " +:+ dquote +:+ entry.1 +:+ dquote +:+ " Not Implemented Yet"
  +:+ newline
  +:+ newline.

Definition spec_stubs `{!Localization} (seen : registry) : string :=
  String.concat "" (map spec_stub seen).

(** ** The vocabulary of the statements *)

(** What one character becomes when every angle bracket is rewritten. *)
Definition rewrite_char (c : ascii) : string :=
  if Ascii.eqb c "<" then "${"
  else if Ascii.eqb c ">" then "}"
  else String c "".

Fixpoint expand (f : ascii → string) (s : string) : string :=
  match s with
  | "" => ""
  | String c s' => f c +:+ expand f s'
  end.

(** The text of the call [add_step] appends: the variable [keyword] there. *)
Definition call_text `{!Localization} (step : Step) : string :=
  if String.eqb (step_keyword step) "* " then
    rewrite_placeholders (step_text step)
  else
    tr (step_keyword step) (Some (step_keyword step))
    +:+ rewrite_placeholders (step_text step).

(** Every character of [s] is of the class. *)
Fixpoint all_chars (cls : ascii → bool) (s : string) : bool :=
  match s with
  | "" => true
  | String c s' => cls c && all_chars cls s'
  end.

(** The lines that bind the two variables. *)
Definition datatable_binding : Line :=
  Fields [""; "${DataTable}="; "Create List"].

Definition docstring_binding : Line :=
  Fields [""; "${DocString}="; "Catenate"; "SEPARATOR=\n"].

(** The fields after the empty one on the line of a call. *)
Definition call_fields `{!Localization} (step : Step)
    (argument : option string) : list string :=
  match argument with
  | Some v => [call_text step; v]
  | None => [call_text step]
  end.

(** A data table that reaches [generate_datatable_as_list_of_dict] has a
    first row, as every table of a parsed feature has. *)
Definition table_has_header (step : Step) : Prop :=
  match docString step, dataTable step with
  | None, Some t => rows t ≠ []
  | _, _ => True
  end.

(** The header of an example block, and the variables of an outline before
    they are made a set. *)
Definition example_header (example : Examples) : list string :=
  map value (cells (tableHeader example)).

Definition step_variables (scenario : Scenario) : list string :=
  concat (map (λ step, Re.findall_variables (step_text step))
              (sc_steps scenario)).

(** Every row of the block has a cell for every column of the header, as the
    rows of a parsed table have. *)
Definition rows_fit (example : Examples) : Prop :=
  Forall (λ r, length (example_header example) ≤ length (cells r))
         (tableBody example).

(** The lines of an example block before its rows: documentation, tags and
    the reference to the template. *)
Definition example_preamble `{!Localization} (scenario : Scenario)
    (example : Examples) : list Line :=
  match ex_description example with
  | Some d => documentation_lines d
  | None => []
  end
  ++ match sc_tags scenario ++ ex_tags example with
     | [] => []
     | tags => [Fields ([""; "[" +:+ tr "tags" None +:+ "]"] ++ tag_names tags)]
     end
  ++ [Fields [""; "[" +:+ tr "template" None +:+ "]"; template_name scenario]].

(** A line that cannot start a test case: the empty line, or a line whose
    first field is empty. *)
Definition blank_or_indented (l : Line) : Prop :=
  l = Text "" ∨ ∃ fs, l = Fields ("" :: fs).

(** The header the loop over the example blocks leaves behind. *)
Definition last_header (examples : list Examples)
    (header : option (list string)) : option (list string) :=
  match last examples with
  | Some example => Some (example_header example)
  | None => header
  end.

(** The first lines of the keyword: its name, its documentation and its
    arguments, for the header that the loop left in [header]. *)
Definition keyword_head `{!Localization} (scenario : Scenario)
    (header : list string) : list Line :=
  [Text (template_name scenario)]
  ++ match sc_description scenario with
     | Some d => documentation_lines d
     | None => []
     end
  ++ [Fields ([""; "[" +:+ tr "arguments" None +:+ "]"]
              ++ map (λ arg, "${" +:+ arg +:+ "}") header)].

Definition background_call `{!Localization} (st : State) : list Line :=
  if background_available st then [Fields [""; tr "background" None]] else [].

(** The feature of the counterexample: the outline with the missing column,
    then the scenario of the end-to-end example. *)
Definition feature_missing_column : Feature :=
  {| f_name := "Account"; f_description := None; f_tags := [];
     f_children := [ChildScenario outline_missing_column;
                    ChildScenario login_scenario] |}.

(** The outline of the specification's example: one step, on one column. *)
Definition outline_value : Scenario :=
  {| sc_keyword := "Scenario Outline";
     sc_name := "Value";
     sc_description := None;
     sc_tags := [];
     sc_steps := [plain_step "Then " "the value is <amount>"];
     sc_examples :=
       [ {| ex_name := "amounts"; ex_line := 6; ex_description := None;
            ex_tags := []; tableHeader := row ["amount"];
            tableBody := [row ["5"]] |} ] |}.

(** A step text [key] satisfies a template: it is the literal of the
    template, or the pattern of the template compiles and matches it. *)
Definition satisfies `{!Re.Engine} (template : string * string)
    (key : string) : Prop :=
  key = template.1
  ∨ ∃ regex, Re.compile template.2 = Some regex
             ∧ Re.matches regex key = true.

(** The patterns of the fragment that are a text of ordinary characters. *)
Definition ordinary (s : string) : bool :=
  all_chars (λ c, negb (Re.special c)) s.

Fixpoint literal_items (s : string) : list Re.item :=
  match s with
  | "" => []
  | String c s' => Re.Chr c :: literal_items s'
  end.

(** A text is an instance of a pattern of the fragment: every character of
    the pattern is there, and every wildcard group is replaced by a text
    without newline. *)
Inductive instance_of : list Re.item → string → Prop :=
| instance_nil : instance_of [] ""
| instance_chr (c : ascii) (its : list Re.item) (s : string) :
    instance_of its s → instance_of (Re.Chr c :: its) (String c s)
| instance_any (w : string) (its : list Re.item) (s : string) :
    all_chars (λ c, negb (Ascii.eqb c "010")) w = true →
    instance_of its s → instance_of (Re.Any :: its) (w +:+ s).

(** The lines of a resource with one keyword, whose name has a placeholder. *)
Definition login_resource_lines : list string :=
  ["*** Keywords ***" +:+ newline;
   "Given user ${name} logs in" +:+ newline;
   "    Log    logged in" +:+ newline].

(** The same keyword under the name a step is registered with: the text of
    the step without its verb. *)
Definition user_resource_lines : list string :=
  ["*** Keywords ***" +:+ newline;
   "user ${name} logs in" +:+ newline;
   "    Log    logged in" +:+ newline].

(** The step [Given user Alice logs in] as the parser hands it over. *)
Definition alice_logs_in : Step := plain_step "Given " "user Alice logs in".

(** A text starts with an instance of a pattern of the fragment. *)
Definition starts_with_instance (its : list Re.item) (key : string) : Prop :=
  ∃ inst rest, instance_of its inst ∧ key = inst +:+ rest.

(** A template whose pattern is one of the fragment implements a step text:
    the text is the literal of the template, or it starts with an instance of
    the pattern. *)
Definition implements (template : string * string) (key : string) : Prop :=
  key = template.1
  ∨ ∃ its, Re.parse template.2 = Some its ∧ starts_with_instance its key.

(** The entries of the registry for which the loop of lines 178-185 ends
    with [ff] false, and what the report prints for such an entry. *)
Definition is_missing `{!Re.Engine} (kw : list (string * string))
    (entry : string * option string) : bool :=
  match keyword_found entry.1 kw false with
  | Ok false => true
  | _ => false
  end.

Definition report_lines `{!Localization} (entry : string * option string)
    : list string :=
  [entry.1]
  ++ (if Py.truthy_opt entry.2 then
        [Py.join FIELD_SEP
           [""; "[" +:+ tr "arguments" None +:+ "]"; default "" entry.2]]
      else [])
  ++ [Py.join FIELD_SEP [""; "Fail"; not_implemented entry.1]].

(** A computation that writes no file: it leaves the files as they are and
    only adds to what is printed. *)
Definition writes_nothing {A} (m : M A) : Prop :=
  ∀ w, files (m w).1 = files w
       ∧ ∃ printed, stdout (m w).1 = stdout w ++ printed.

(** A world with a resource that implements one keyword, with a placeholder,
    and the registry of a feature with two more steps. *)
Definition login_world : World :=
  {| files := {[ "out/login_step_definitions.resource"
                 := String.concat "" login_resource_lines ]};
     stdout := [] |}.

Definition login_registry : registry :=
  [("Given user Alice logs in", None);
   ("Given user Alice logs out", Some "@{DataTable}")].

(** No entry has the empty text for its argument variable: [add_step] only
    registers [None], [${DocString}] and [@{DataTable}]. *)
Definition registry_ok (seen : registry) : Prop :=
  Forall (λ entry, entry.2 ≠ Some "") seen.

(** ** The vocabulary of the further properties *)

(** [i] is the last position of [a] in [l]. *)
Definition last_position (l : list string) (a : string) (i : nat) : Prop :=
  l !! i = Some a ∧ ∀ k, i < k → l !! k ≠ Some a.

(** The cell [example_row['cells'][header_col[a]]['value']] reads. *)
Definition picked (header_col : gmap string nat) (example_row : TableRow)
    (a : string) : option string :=
  i ← header_col !! a; value <$> cells example_row !! i.

(** The line of a data row: a field for every column of the header. *)
Definition row_line (header_col : gmap string nat) (header : list string)
    (example_row : TableRow) : Line :=
  Fields ("" :: map (λ a, make_empty (default "" (picked header_col example_row a)))
                    header).

(** The header and the dict [header_col] the loop of lines 463-467 makes of
    an example block. *)
Definition header_of (example : Examples) (hc : gmap string nat) : Prop :=
  read_header (cells (tableHeader example)) ∅ [] 0
  = (hc, example_header example).

(** The dict [header_col] of an example block. *)
Definition header_col_of (example : Examples) : gmap string nat :=
  (read_header (cells (tableHeader example)) ∅ [] 0).1.

(** The lines of an example block: what comes before the rows, a line for
    every row, and the empty line. *)
Definition example_lines `{!Localization} (scenario : Scenario)
    (example : Examples) : list Line :=
  example_preamble scenario example
  ++ map (row_line (header_col_of example) (example_header example))
         (tableBody example)
  ++ [Text ""].

(** What lines 359-363 of [add_step] leave in [argument_variable]. *)
Definition argument_variable (step : Step) : option string :=
  match docString step, dataTable step with
  | Some _, _ => Some "${DocString}"
  | None, Some _ => Some "@{DataTable}"
  | None, None => None
  end.

(** The key of a step in [seen_steps]: the variable [resource_keyword]. *)
Definition step_key (step : Step) : string :=
  rewrite_placeholders (step_text step).

(** Lines 365-366: the registry after a step. *)
Definition register (seen : registry) (step : Step) : registry :=
  if registered (step_key step) seen then seen
  else seen ++ [(step_key step, argument_variable step)].

(** The entries a list of steps adds to a registry with the keys [have]. *)
Fixpoint new_entries (have : list string) (steps : list Step) : registry :=
  match steps with
  | [] => []
  | step :: rest =>
      if Py.mem (step_key step) have then new_entries have rest
      else (step_key step, argument_variable step)
             :: new_entries (have ++ [step_key step]) rest
  end.

(** The steps of a child and of a feature, in the order of the document. *)
Definition child_steps (child : Child) : list Step :=
  match child with
  | ChildBackground b => bg_steps b
  | ChildScenario s => sc_steps s
  | ChildOther _ => []
  end.

Definition feature_steps (feature : Feature) : list Step :=
  concat (map child_steps (f_children feature)).

(** A line of the body of a test case or of a keyword: its first field is
    empty. *)
Definition indented (l : Line) : Prop := ∃ fs, l = Fields ("" :: fs).

(** The lines of a step: the lines that bind its argument, when it has one,
    and the call. *)
Definition step_block `{!Localization} (step : Step) (block : list Line)
    : Prop :=
  ∃ binding,
    block
    = binding ++ [Fields ("" :: call_fields step (argument_variable step))]
    ∧ Forall indented binding
    ∧ (argument_variable step = None → binding = []).

(** The lines of a plain scenario before its steps: the name, the
    documentation, the tags and the call of the background. *)
Definition plain_head `{!Localization} (scenario : Scenario) (st : State)
    : list Line :=
  [Text (sc_name scenario)]
  ++ match sc_description scenario with
     | Some d => documentation_lines d
     | None => []
     end
  ++ match sc_tags scenario with
     | [] => []
     | tags => [Fields ([""; "[" +:+ tr "tags" None +:+ "]"] ++ tag_names tags)]
     end
  ++ background_call st.

(** The lines of the keyword of a background before its steps. *)
Definition background_head `{!Localization} (background : Background)
    : list Line :=
  [Text (tr "background" None)]
  ++ (if Py.truthy (bg_name background) then
        [Fields [""; "[" +:+ tr "documentation" None +:+ "]";
                 bg_name background]]
      else []).

(** The globals with nothing in the lists and in the registry, and the value
    [b] of [background_available]. *)
Definition blank (b : bool) : State :=
  set_background_available b initial_state.

(** The state [st] after the test cases and the keywords of [d] are added to
    its lists and the steps [steps] are registered. *)
Definition extend (st d : State) (steps : list Step) : State :=
  {| settings_lines := settings_lines st;
     test_cases_lines := test_cases_lines st ++ test_cases_lines d;
     keywords_lines := keywords_lines st ++ keywords_lines d;
     seen_steps := fold_left register steps (seen_steps st);
     background_available := background_available d |}.

(** The child is a background. *)
Definition is_background (child : Child) : bool :=
  match child with
  | ChildBackground _ => true
  | _ => false
  end.

(** The first test of [process_scenario]. *)
Definition is_plain `{!Localization} (scenario : Scenario) : bool :=
  Py.mem (sc_keyword scenario)
    (["Scenario"] ++ Py.split "," (tr "scenario" None)).

(** The child is a scenario that [process_scenario] takes for a plain
    one. *)
Definition plain_child `{!Localization} (child : Child) : bool :=
  match child with
  | ChildScenario s => is_plain s
  | _ => false
  end.

(** The tests of the loop of [_read_keywords_from_resource] on a line: the
    line opens the section of the keywords (lines 151 and 161). *)
Definition starts_keywords `{!Localization} (line : string) : bool :=
  Py.truthy (Py.strip line)
  && (Py.startswith line "*** Keywords ***"
      || Py.startswith line (tr "keywords_section" None)).

(** The line is taken for the name of a keyword (lines 151 and 155). *)
Definition names_keyword (line : string) : bool :=
  Py.truthy (Py.strip line)
  && negb (Py.startswith line " ") && negb (Py.startswith line tab).

(** The template made of such a line (lines 156-159). *)
Definition template_of (line : string) : string * string :=
  (Py.strip line, Re.sub_placeholders (Py.strip line)).

(** A text that is one line as [read_keywords] reads it back: it is not
    empty, has no white space around it and no newline in it. *)
Definition clean (s : string) : Prop :=
  Py.strip s = s ∧ s ≠ ""
  ∧ all_chars (λ c, negb (Ascii.eqb c "010")) s = true.

(** The world after a verbose run has told that it applies the settings of
    [fn]. *)
Definition announced `{!Host} (fn : string) (w : World) : World :=
  if verbose then
    {| files := files w;
       stdout := stdout w ++ ["Apply extra settings: " +:+ fn] |}
  else w.

(** The directory [n] turns of the loop of lines 520-523 above [d]. *)
Fixpoint ancestor `{!Directories} (n : nat) (d : string) : string :=
  match n with
  | O => d
  | S n' => ancestor n' (path_split d).1
  end.

(** The condition of the loop: the directory is not the empty path and has
    no settings. *)
Definition searching `{!Directories} (d : string) : bool :=
  Py.truthy d && negb (has_settings d).

(** A climb of [n] turns from [d]: at every turn the loop goes on, and the
    directory splits into a head and a tail that is not empty. *)
Definition climbs `{!Directories} (n : nat) (d : string) : Prop :=
  ∀ i, i < n →
    searching (ancestor i d) = true ∧ (path_split (ancestor i d)).2 ≠ "".

(** The head is shorter than the path when the tail is not empty. *)
Definition shortens `{!Directories} : Prop :=
  ∀ d, (path_split d).2 ≠ "" →
       String.length (path_split d).1 < String.length d.

(** * Properties *)

(** ** Strings *)

#[local] Arguments String.append !_ _ / : simpl nomatch.

Lemma string_app_assoc (a b c : string) : (a +:+ b) +:+ c = a +:+ b +:+ c.
Proof. induction a as [|x a IH]; simpl; [done | by rewrite IH]. Qed.

Lemma string_app_nil_r (a : string) : a +:+ "" = a.
Proof. induction a as [|x a IH]; simpl; [done | by rewrite IH]. Qed.

Lemma string_length_app (a b : string) :
  String.length (a +:+ b) = String.length a + String.length b.
Proof. induction a as [|x a IH]; simpl; [done | by rewrite IH]. Qed.

Lemma replace_app (c : ascii) (new a b : string) :
  Py.replace c new (a +:+ b) = Py.replace c new a +:+ Py.replace c new b.
Proof.
  induction a as [|x a IH]; simpl; [done |].
  destruct (Ascii.eqb x c); simpl; rewrite IH; [| done].
  by rewrite string_app_assoc.
Qed.

Lemma expand_app (f : ascii → string) (a b : string) :
  expand f (a +:+ b) = expand f a +:+ expand f b.
Proof.
  induction a as [|x a IH]; simpl; [done |].
  by rewrite IH, string_app_assoc.
Qed.

(** The two replacements of [add_step] together rewrite character by
    character. *)
Lemma rewrite_placeholders_expand (text : string) :
  rewrite_placeholders text = expand rewrite_char text.
Proof.
  unfold rewrite_placeholders.
  induction text as [|c text IH]; simpl; [done |].
  unfold rewrite_char.
  destruct (Ascii.eqb_spec c "<") as [->|Hlt]; simpl.
  - by rewrite IH.
  - destruct (Ascii.eqb c ">"); simpl; by rewrite IH.
Qed.

Lemma rewrite_placeholders_app (a b : string) :
  rewrite_placeholders (a +:+ b)
  = rewrite_placeholders a +:+ rewrite_placeholders b.
Proof. by rewrite !rewrite_placeholders_expand, expand_app. Qed.

(** ** The patterns of lines 157 and 427 *)

Lemma drop_0 (s : string) : Re.drop 0 s = s.
Proof. by destruct s. Qed.

Lemma take_drop (n : nat) (s : string) : Re.take n s +:+ Re.drop n s = s.
Proof.
  revert s; induction n as [|n IH]; intros [|c s]; simpl; try done.
  by rewrite IH.
Qed.

Lemma drop_drop (n m : nat) (s : string) :
  Re.drop n (Re.drop m s) = Re.drop (m + n) s.
Proof.
  revert s; induction m as [|m IH]; intros s.
  - by rewrite drop_0.
  - destruct s as [|c s]; [by destruct n | apply IH].
Qed.

Lemma length_take_run (cls : ascii → bool) (s : string) :
  String.length (Re.take (Re.run cls s) s) = Re.run cls s.
Proof.
  induction s as [|c s IH]; simpl; [done |].
  destruct (cls c); simpl; [by rewrite IH | done].
Qed.

Lemma all_chars_take_run (cls : ascii → bool) (s : string) :
  all_chars cls (Re.take (Re.run cls s) s) = true.
Proof.
  induction s as [|c s IH]; simpl; [done |].
  destruct (cls c) eqn:Hc; simpl; [by rewrite Hc | done].
Qed.

Lemma startswith_drop (s p : string) :
  Py.startswith s p = true → s = p +:+ Re.drop (String.length p) s.
Proof.
  unfold Py.startswith. revert s.
  induction p as [|x p IH]; intros s Hp; simpl in *.
  - by destruct s.
  - destruct s as [|c s]; [done |]. simpl in Hp.
    destruct (ascii_dec x c) as [->|]; [| done].
    f_equal. by apply IH.
Qed.

(** What a match of [Re.enclosed] says about the text. *)
Lemma enclosed_Some (opening : string) (cls : ascii → bool) (closing : ascii)
    (s name : string) :
  Re.enclosed opening cls closing s = Some name →
  s = opening +:+ name +:+ String closing
        (Re.drop (String.length opening + String.length name + 1) s)
  ∧ all_chars cls name = true
  ∧ name ≠ "".
Proof.
  unfold Re.enclosed. intros H.
  destruct (Py.startswith s opening) eqn:Hopen; [| done].
  apply startswith_drop in Hopen.
  set (s' := Re.drop (String.length opening) s) in *.
  destruct (0 <? Re.run cls s')%nat eqn:Hn; simpl in H; [| done].
  destruct (Py.startswith (Re.drop (Re.run cls s') s') (String closing ""))
    eqn:Hclose; [| done].
  injection H as <-.
  apply startswith_drop in Hclose.
  change (String.length (String closing "")) with 1 in Hclose.
  change (String closing "" +:+ ?t) with (String closing t) in Hclose.
  rewrite length_take_run. split; [| split].
  - rewrite Hopen at 1. f_equal.
    rewrite <- (take_drop (Re.run cls s') s') at 1. f_equal.
    rewrite Hclose at 1. f_equal.
    unfold s'. rewrite !drop_drop. f_equal. lia.
  - apply all_chars_take_run.
  - intros Hnil. apply Nat.ltb_lt in Hn.
    pose proof (length_take_run cls s') as Hlen.
    rewrite Hnil in Hlen. simpl in Hlen. lia.
Qed.

Lemma expand_unchanged (s : string) :
  all_chars (λ c, negb (Ascii.eqb c "<") && negb (Ascii.eqb c ">")) s = true →
  expand rewrite_char s = s.
Proof.
  induction s as [|c s IH]; simpl; [done |].
  intros [[Hlt Hgt]%andb_prop Hs]%andb_prop.
  rewrite (IH Hs). unfold rewrite_char.
  apply negb_true_iff in Hlt, Hgt. by rewrite Hlt, Hgt.
Qed.

Lemma all_chars_impl (p q : ascii → bool) (s : string) :
  (∀ c, p c = true → q c = true) →
  all_chars p s = true → all_chars q s = true.
Proof.
  intros Hpq. induction s as [|c s IH]; simpl; [done |].
  intros [Hc Hs]%andb_prop. by rewrite (Hpq _ Hc), IH.
Qed.

Lemma is_alnum_not_bracket (c : ascii) :
  Re.is_alnum c = true →
  negb (Ascii.eqb c "<") && negb (Ascii.eqb c ">") = true.
Proof.
  destruct (Ascii.eqb_spec c "<") as [->|]; [done |].
  destruct (Ascii.eqb_spec c ">") as [->|]; done.
Qed.

(** Where every angle bracket encloses a variable, rewriting the brackets is
    rewriting the placeholders. *)
Lemma expand_spec_rewrite_from (s : string) (skip : nat) :
  brackets_enclose_from skip s = true →
  expand rewrite_char (Re.drop skip s) = spec_rewrite_from skip s.
Proof.
  revert skip. induction s as [|c s IH]; intros skip H.
  - by destruct skip.
  - destruct skip as [|k]; [| by apply IH].
    rewrite drop_0. simpl in H. simpl spec_rewrite_from.
    destruct (Re.variable (String c s)) as [name|] eqn:Hvar.
    + apply enclosed_Some in Hvar as (Hs & Hname & _).
      simpl in Hs. injection Hs as -> Hs.
      rewrite <- (IH _ H).
      rewrite Hs at 1.
      change (expand rewrite_char (String "<" ?t))
        with ("${" +:+ expand rewrite_char t).
      rewrite expand_app. simpl expand.
      rewrite (expand_unchanged name)
        by (eapply all_chars_impl, Hname; apply is_alnum_not_bracket).
      done.
    + apply andb_prop in H as [[Hlt Hgt]%andb_prop H].
      rewrite <- (IH _ H), drop_0. simpl. unfold rewrite_char at 1.
      apply negb_true_iff in Hlt, Hgt. by rewrite Hlt, Hgt.
Qed.

(** ** The table transformer and the step renderer *)

Ltac norm_app :=
  repeat (progress (simpl; rewrite <- ?(assoc_L (++)))).

Lemma generate_datatable_Ok (output : list Line) (h : list string)
    (body : list (list string)) :
  ∃ lines,
    generate_datatable_as_list_of_dict output (h :: body)
    = Ok (output ++ datatable_binding :: lines, "@{DataTable}").
Proof.
  unfold generate_datatable_as_list_of_dict. simpl.
  eexists. rewrite <- !(assoc_L (++)). simpl. reflexivity.
Qed.

Lemma generate_datatable_empty (output : list Line) :
  generate_datatable_as_list_of_dict output [] = Raise IndexError.
Proof. done. Qed.

Lemma process_docstring_lines (output : list Line) (d : DocString) :
  ∃ lines,
    process_docstring output d
    = (output ++ docstring_binding :: lines, "${DocString}").
Proof.
  unfold process_docstring. eexists.
  rewrite <- !(assoc_L (++)). simpl. reflexivity.
Qed.

(** The three ways [step_argument] returns. *)
Lemma step_argument_Ok (output output' : list Line) (step : Step)
    (argument : option string) :
  step_argument output step = Ok (output', argument) →
  (docString step = None ∧ dataTable step = None
   ∧ output' = output ∧ argument = None)
  ∨ (is_Some (docString step)
     ∧ (∃ lines, output' = output ++ docstring_binding :: lines)
     ∧ argument = Some "${DocString}")
  ∨ (docString step = None ∧ is_Some (dataTable step)
     ∧ (∃ lines, output' = output ++ datatable_binding :: lines)
     ∧ argument = Some "@{DataTable}").
Proof.
  unfold step_argument. intros H.
  destruct (docString step) as [d|] eqn:Hd.
  - right; left.
    destruct (process_docstring_lines output d) as [lines Hl].
    rewrite Hl in H. simplify_eq. eauto.
  - destruct (dataTable step) as [t|] eqn:Ht; [| left; by simplify_eq].
    right; right. unfold process_datatable in H.
    destruct (process_datatable_rows (rows t)) as [|h body].
    + by rewrite generate_datatable_empty in H.
    + destruct (generate_datatable_Ok output h body) as [lines Hl].
      rewrite Hl in H. simpl in H. simplify_eq. eauto 10.
Qed.

(** What [add_step] does when it returns: the lines of the argument, the line
    of the call, and the registration of the rewritten text. *)
Lemma add_step_Ok `{!Localization} (output output' : list Line)
    (seen seen' : registry) (step : Step) :
  add_step output seen step = Ok (output', seen') →
  ∃ lines argument,
    step_argument output step = Ok (output ++ lines, argument)
    ∧ output' = output ++ lines ++ [Fields ("" :: call_fields step argument)]
    ∧ seen' = (if registered (rewrite_placeholders (step_text step)) seen
               then seen
               else seen ++ [(rewrite_placeholders (step_text step),
                              argument)]).
Proof.
  unfold add_step, call_fields, call_text. intros Hadd.
  destruct (step_argument output step) as [[out arg]|e] eqn:Harg;
    [| by destruct (String.eqb _ _)].
  assert (∃ lines, out = output ++ lines) as [lines ->].
  { apply step_argument_Ok in Harg
      as [(_ & _ & -> & _)|[(_ & [l ->] & _)|(_ & _ & [l ->] & _)]]; eauto.
    exists []. by rewrite app_nil_r. }
  exists lines, arg. split; [done |].
  assert (Py.truthy_opt arg = bool_decide (is_Some arg)) as Htruthy.
  { apply step_argument_Ok in Harg
      as [(_ & _ & _ & ->)|[(_ & _ & ->)|(_ & _ & _ & ->)]]; done. }
  destruct (String.eqb _ _); simpl in Hadd; rewrite Htruthy in Hadd;
    destruct arg; simpl in Hadd; simplify_eq;
    by rewrite <- (assoc_L (++)).
Qed.

Lemma process_datatable_Ok (output : list Line) (t : DataTable) :
  rows t ≠ [] →
  ∃ lines,
    process_datatable output t
    = Ok (output ++ datatable_binding :: lines, "@{DataTable}").
Proof.
  destruct t as [[|r rs]]; [done |]. intros _.
  apply (generate_datatable_Ok output (map value (cells r))
           (process_datatable_rows rs)).
Qed.

Lemma step_argument_total (output : list Line) (step : Step) :
  table_has_header step →
  ∃ output' argument, step_argument output step = Ok (output', argument).
Proof.
  unfold table_has_header, step_argument. intros Hh.
  destruct (docString step) as [d|].
  - destruct (process_docstring output d) as [o v]. eauto.
  - destruct (dataTable step) as [t|]; [| eauto].
    destruct (process_datatable_Ok output t Hh) as [lines ->]. simpl. eauto.
Qed.

Lemma add_step_total `{!Localization} (output : list Line) (seen : registry)
    (step : Step) :
  table_has_header step →
  ∃ output' seen', add_step output seen step = Ok (output', seen').
Proof.
  intros Hh. unfold add_step.
  destruct (step_argument_total output step Hh) as (o & a & ->).
  destruct (String.eqb _ _); simpl; destruct (Py.truthy_opt a); eauto.
Qed.

(** C3, the counterexample: the step [Given a user exists] is registered
    under [a user exists], and not under the canonical text of the
    specification, which starts with the verb. *)
Lemma C3_counterexample :
  ∃ output seen,
    @add_step en [] [] (plain_step "Given " "a user exists")
    = Ok (output, seen)
    ∧ seen.*1 = ["a user exists"]
    ∧ @spec_canonical_text en (plain_step "Given " "a user exists")
      = "Given a user exists"
    ∧ seen.*1 ≠ [@spec_canonical_text en (plain_step "Given " "a user exists")].
Proof. do 2 eexists. repeat split. by vm_compute. Qed.

(** C3, as amended: a step that [add_step] processes is registered under its
    placeholder-rewritten text whatever its keyword (and only when that text
    is not yet registered).  The verb is part of the text of the call on the
    line that is appended, and of nothing else: that text is the rewritten
    text when the keyword is the marker [* ], and otherwise the translation
    of the keyword, with the keyword as its default, followed by the
    rewritten text. *)
Theorem C3_registry_key_is_rewritten_text `{!Localization}
    (output : list Line) (seen : registry) (step : Step) :
  table_has_header step →
  ∃ lines argument,
    add_step output seen step
    = Ok (output ++ lines ++ [Fields ("" :: call_fields step argument)],
          if registered (rewrite_placeholders (step_text step)) seen
          then seen
          else seen ++ [(rewrite_placeholders (step_text step), argument)])
    ∧ hd "" (call_fields step argument)
      = (if String.eqb (step_keyword step) "* "
         then rewrite_placeholders (step_text step)
         else tr (step_keyword step) (Some (step_keyword step))
              +:+ rewrite_placeholders (step_text step)).
Proof.
  intros Hh.
  destruct (add_step_total output seen step Hh) as (o & s & Hadd).
  destruct (add_step_Ok _ _ _ _ _ Hadd) as (lines & arg & _ & -> & ->).
  exists lines, arg. split; [done |]. by destruct arg.
Qed.

Lemma C3_witness :
  table_has_header (plain_step "And " "the user logs in")
  ∧ ∃ lines argument,
      @add_step en [] [("a user exists", None)]
        (plain_step "And " "the user logs in")
      = Ok ([] ++ lines
            ++ [Fields ("" :: @call_fields en
                                (plain_step "And " "the user logs in")
                                argument)],
            [("a user exists", None); ("the user logs in", argument)]).
Proof.
  split; [exact I |].
  destruct (@C3_registry_key_is_rewritten_text en []
              [("a user exists", None)]
              (plain_step "And " "the user logs in") I)
    as (lines & argument & Hadd & _).
  exists lines, argument. exact Hadd.
Defined.

(** C10: the transformation of a data table (one with a first row) returns
    the reference [@{DataTable}] after lines that start by binding
    [${DataTable}] anew, and the transformation of a doc string returns
    [${DocString}] after lines that start by binding it.  So two steps with a
    table that are added to the same list both bind [${DataTable}] and both
    pass [@{DataTable}], and two steps with a doc string both bind and pass
    [${DocString}]: no step gets a variable of its own. *)
Theorem C10_fixed_argument_variables `{!Localization} :
  (∀ output t, rows t ≠ [] →
     ∃ lines, process_datatable output t
              = Ok (output ++ datatable_binding :: lines, "@{DataTable}"))
  ∧ (∀ output d,
       ∃ lines, process_docstring output d
                = (output ++ docstring_binding :: lines, "${DocString}"))
  ∧ (∀ output seen k1 x1 t1 k2 x2 t2,
       let s1 := {| step_keyword := k1; step_text := x1;
                    docString := None; dataTable := Some t1 |} in
       let s2 := {| step_keyword := k2; step_text := x2;
                    docString := None; dataTable := Some t2 |} in
       rows t1 ≠ [] → rows t2 ≠ [] →
       ∃ l1 l2 seen',
         add_steps output seen [s1; s2]
         = Ok (output
               ++ datatable_binding :: l1
               ++ [Fields [""; call_text s1; "@{DataTable}"]]
               ++ datatable_binding :: l2
               ++ [Fields [""; call_text s2; "@{DataTable}"]], seen'))
  ∧ (∀ output seen k1 x1 d1 o1 k2 x2 d2 o2,
       let s1 := {| step_keyword := k1; step_text := x1;
                    docString := Some d1; dataTable := o1 |} in
       let s2 := {| step_keyword := k2; step_text := x2;
                    docString := Some d2; dataTable := o2 |} in
       ∃ l1 l2 seen',
         add_steps output seen [s1; s2]
         = Ok (output
               ++ docstring_binding :: l1
               ++ [Fields [""; call_text s1; "${DocString}"]]
               ++ docstring_binding :: l2
               ++ [Fields [""; call_text s2; "${DocString}"]], seen')).
Proof.
  split; [apply process_datatable_Ok |].
  split; [apply process_docstring_lines |].
  split.
  - intros output seen k1 x1 t1 k2 x2 t2 s1 s2 H1 H2.
    assert (∀ out sn k x t, rows t ≠ [] →
              let s := {| step_keyword := k; step_text := x;
                          docString := None; dataTable := Some t |} in
              ∃ l sn', add_step out sn s
                       = Ok (out ++ datatable_binding :: l
                             ++ [Fields [""; call_text s; "@{DataTable}"]],
                             sn')) as Hone.
    { intros out sn k x t Ht s.
      destruct (add_step_total out sn s) as (o & sn' & Hadd); [done |].
      destruct (add_step_Ok _ _ _ _ _ Hadd) as (lines & arg & Harg & -> & _).
      apply step_argument_Ok in Harg
        as [(_ & ? & _)|[([? ?] & _)|(_ & _ & [l Hl] & ->)]]; try done.
      apply (inj (app out)) in Hl as ->. by exists l, sn'. }
    destruct (Hone output seen k1 x1 t1 H1) as (l1 & seen1 & Hs1).
    destruct (Hone (output ++ datatable_binding :: l1
                    ++ [Fields [""; call_text s1; "@{DataTable}"]])
                seen1 k2 x2 t2 H2) as (l2 & seen2 & Hs2).
    exists l1, l2, seen2. subst s1 s2. cbn [add_steps].
    rewrite Hs1. simpl. rewrite Hs2. simpl.
    do 2 f_equal. by norm_app.
  - intros output seen k1 x1 d1 o1 k2 x2 d2 o2 s1 s2.
    assert (∀ out sn k x d o,
              let s := {| step_keyword := k; step_text := x;
                          docString := Some d; dataTable := o |} in
              ∃ l sn', add_step out sn s
                       = Ok (out ++ docstring_binding :: l
                             ++ [Fields [""; call_text s; "${DocString}"]],
                             sn')) as Hone.
    { intros out sn k x d o s.
      destruct (add_step_total out sn s) as (o' & sn' & Hadd); [done |].
      destruct (add_step_Ok _ _ _ _ _ Hadd) as (lines & arg & Harg & -> & _).
      apply step_argument_Ok in Harg
        as [(? & _)|[(_ & [l Hl] & ->)|(? & _)]]; try done.
      apply (inj (app out)) in Hl as ->. by exists l, sn'. }
    destruct (Hone output seen k1 x1 d1 o1) as (l1 & seen1 & Hs1).
    destruct (Hone (output ++ docstring_binding :: l1
                    ++ [Fields [""; call_text s1; "${DocString}"]])
                seen1 k2 x2 d2 o2) as (l2 & seen2 & Hs2).
    exists l1, l2, seen2. subst s1 s2. cbn [add_steps].
    rewrite Hs1. simpl. rewrite Hs2. simpl.
    do 2 f_equal. by norm_app.
Qed.

Lemma C10_witness :
  ∃ l1 l2 seen',
    @add_steps en [] []
      [table_step "Given " "these users" [["name"]; ["Ann"]];
       table_step "And " "these accounts" [["id"]; ["1"]; ["2"]]]
    = Ok ([] ++ datatable_binding :: l1
          ++ [Fields [""; "Given these users"; "@{DataTable}"]]
          ++ datatable_binding :: l2
          ++ [Fields [""; "And these accounts"; "@{DataTable}"]], seen').
Proof.
  destruct (@C10_fixed_argument_variables en) as (_ & _ & Htables & _).
  apply (Htables [] [] "Given " "these users"
           {| rows := map row [["name"]; ["Ann"]] |}
           "And " "these accounts"
           {| rows := map row [["id"]; ["1"]; ["2"]] |});
    discriminate.
Defined.

(** ** The expansion of a scenario outline *)

Lemma read_header_spec (header_cells : list Cell) (hc hc' : gmap string nat)
    (h h' : list string) (n : nat) :
  read_header header_cells hc h n = (hc', h') →
  (∀ a i, hc !! a = Some i → i < n) →
  (∀ a, a ∈ h → is_Some (hc !! a)) →
  h' = h ++ map value header_cells
  ∧ (∀ a i, hc' !! a = Some i → i < n + length header_cells)
  ∧ (∀ a, a ∈ h' → is_Some (hc' !! a)).
Proof.
  revert hc h n. induction header_cells as [|c cs IH]; intros hc h n Hr Hlt Hin.
  - simpl in Hr. simplify_eq. rewrite app_nil_r, Nat.add_0_r. done.
  - simpl in Hr. apply IH in Hr as (-> & Hlt' & Hin').
    + split; [by rewrite <- (assoc_L (++)) |].
      split; [| done]. intros a i Ha. apply Hlt' in Ha. simpl. lia.
    + intros a i. rewrite lookup_insert. case_decide; intros Ha.
      * simplify_eq. lia.
      * apply Hlt in Ha. lia.
    + intros a Ha. apply elem_of_app in Ha as [Ha|Ha].
      * rewrite lookup_insert. case_decide; [by eexists | by apply Hin].
      * apply list_elem_of_singleton in Ha as ->.
        rewrite lookup_insert_eq. by eexists.
Qed.

Lemma read_header_example (example : Examples) :
  ∃ hc,
    read_header (cells (tableHeader example)) ∅ [] 0
    = (hc, example_header example)
    ∧ ∀ a, a ∈ example_header example →
        ∃ i, hc !! a = Some i ∧ i < length (example_header example).
Proof.
  destruct (read_header (cells (tableHeader example)) ∅ [] 0) as [hc h] eqn:Hr.
  apply read_header_spec in Hr as (-> & Hlt & Hin); [| done | ].
  - exists hc. split; [done |]. intros a Ha.
    destruct (Hin a Ha) as [i Hi]. exists i. split; [done |].
    apply Hlt in Hi. unfold example_header. rewrite length_map. simpl in *. lia.
  - by intros a ?%elem_of_nil.
Qed.

Lemma check_variables_Ok (example : Examples) (header variables : list string) :
  (∀ v, v ∈ variables → v ∈ header) →
  check_variables example header variables = Ok ().
Proof.
  induction variables as [|v vs IH]; intros Hv; simpl; [done |].
  unfold Py.mem. rewrite bool_decide_eq_true_2 by (apply Hv; left).
  apply IH. intros x Hx. apply Hv. by right.
Qed.

Lemma check_variables_inv (example : Examples) (header variables : list string)
    (r : result ()) :
  check_variables example header variables = r →
  (r = Ok () ∧ ∀ v, v ∈ variables → v ∈ header)
  ∨ ∃ v, v ∈ variables ∧ ¬ (v ∈ header)
         ∧ r = Raise (RuntimeWarning ("Example " +:+ ex_name example
                                      +:+ " missing column " +:+ v)).
Proof.
  revert r. induction variables as [|v vs IH]; intros r Hr; simpl in Hr.
  - left. split; [done |]. by intros v ?%elem_of_nil.
  - unfold Py.mem in Hr. case_bool_decide as Hv.
    + destruct (IH _ Hr) as [[-> Hall]|(x & Hx & Hnx & ->)].
      * left. split; [done |].
        intros x [->|Hx]%elem_of_cons; [done | by apply Hall].
      * right. exists x. split; [by right | done].
    + right. exists v. split; [by left | done].
Qed.

Lemma row_args_Ok (hc : gmap string nat) (r : TableRow) (header : list string) :
  (∀ a, a ∈ header → ∃ i, hc !! a = Some i ∧ i < length (cells r)) →
  ∃ args, row_args hc r header = Ok args.
Proof.
  induction header as [|a hs IH]; intros Hh; simpl; [by eexists |].
  destruct (Hh a) as (i & -> & Hi); [by left |]. simpl.
  destruct (lookup_lt_is_Some_2 (cells r) i Hi) as [c ->]. simpl.
  destruct IH as [args ->]; [| simpl; by eexists].
  intros x Hx. apply Hh. by right.
Qed.

(** What a state looks like after lines were added to the test cases. *)
Lemma add_rows_inv (hc : gmap string nat) (header : list string)
    (body : list TableRow) (st st' : State) :
  add_rows hc header body st = Ok st' →
  ∃ lines, st' = append_test_cases lines st
           ∧ Forall (λ l, ∃ fs, l = Fields ("" :: fs)) lines
           ∧ length lines = length body.
Proof.
  revert st. induction body as [|r rs IH]; intros st Hst; simpl in Hst.
  - simplify_eq. exists []. split; [| done].
    destruct st'; unfold append_test_cases, set_test_cases_lines; simpl.
    by rewrite app_nil_r.
  - destruct (row_args hc r header) as [args|e]; [| done]. simpl in Hst.
    apply IH in Hst as (lines & -> & Hlines & Hlen).
    exists (Fields ("" :: map make_empty args) :: lines).
    split; [| split; [constructor; eauto | simpl; by rewrite Hlen]].
    unfold append_test_cases, set_test_cases_lines; simpl.
    by rewrite <- (assoc_L (++)).
Qed.

Lemma add_rows_Ok (hc : gmap string nat) (header : list string)
    (body : list TableRow) (st : State) :
  Forall (λ r, ∀ a, a ∈ header →
                 ∃ i, hc !! a = Some i ∧ i < length (cells r)) body →
  ∃ st', add_rows hc header body st = Ok st'.
Proof.
  revert st. induction body as [|r rs IH]; intros st Hb; simpl; [by eexists |].
  inversion Hb as [|? ? Hr Hrs]; subst.
  destruct (row_args_Ok hc r header Hr) as [args ->]. simpl. by apply IH.
Qed.

Lemma append_test_cases_nil (st : State) : append_test_cases [] st = st.
Proof.
  destruct st; unfold append_test_cases, set_test_cases_lines; simpl.
  by rewrite app_nil_r.
Qed.

Lemma append_test_cases_app (l1 l2 : list Line) (st : State) :
  append_test_cases l2 (append_test_cases l1 st)
  = append_test_cases (l1 ++ l2) st.
Proof.
  unfold append_test_cases, set_test_cases_lines; simpl.
  by rewrite <- (assoc_L (++)).
Qed.

Lemma append_keywords_nil (st : State) : append_keywords [] st = st.
Proof.
  destruct st; unfold append_keywords, set_keywords_lines; simpl.
  by rewrite app_nil_r.
Qed.

Lemma append_keywords_app (l1 l2 : list Line) (st : State) :
  append_keywords l2 (append_keywords l1 st) = append_keywords (l1 ++ l2) st.
Proof.
  unfold append_keywords, set_keywords_lines; simpl.
  by rewrite <- (assoc_L (++)).
Qed.

(** The two ways one turn of the loop over the example blocks ends: with the
    lines of the block added to the test cases and the header of the block in
    [header], or with an exception, a [RuntimeWarning] when a variable has no
    column. *)
Lemma process_example_inv `{!Localization} (scenario : Scenario)
    (variables : list string) (example : Examples) (st : State) :
  (∃ data,
     process_example scenario variables example st
     = Ok (append_test_cases
             (example_preamble scenario example ++ data ++ [Text ""]) st,
           example_header example)
     ∧ (∀ v, v ∈ variables → v ∈ example_header example)
     ∧ Forall (λ l, ∃ fs, l = Fields ("" :: fs)) data
     ∧ length data = length (tableBody example))
  ∨ (∃ v, v ∈ variables ∧ ¬ (v ∈ example_header example)
          ∧ process_example scenario variables example st
            = Raise (RuntimeWarning ("Example " +:+ ex_name example
                                     +:+ " missing column " +:+ v)))
  ∨ (∃ e, process_example scenario variables example st = Raise e
          ∧ (∀ v, v ∈ variables → v ∈ example_header example)
          ∧ ¬ rows_fit example).
Proof.
  unfold process_example.
  destruct (read_header_example example) as (hc & -> & Hhc).
  set (st1 := append_test_cases _ _).
  assert (st1 = append_test_cases (example_preamble scenario example) st)
    as ->.
  { unfold st1, example_preamble, _add_test_case_documentation, process_tags.
    destruct (ex_description example), (sc_tags scenario ++ ex_tags example);
      rewrite ?append_test_cases_app, ?append_test_cases_nil; simpl; try done.
    all: by rewrite <- ?(append_test_cases_app []), append_test_cases_nil. }
  destruct (check_variables_inv example (example_header example) variables _
              eq_refl) as [[-> Hall]|(v & Hv & Hnv & ->)].
  - simpl.
    destruct (add_rows hc (example_header example) (tableBody example) _)
      as [st2|e] eqn:Hrows.
    + left. apply add_rows_inv in Hrows as (data & -> & Hdata & Hlen).
      exists data. simpl. by rewrite !append_test_cases_app.
    + right; right. exists e. split; [done |]. split; [done |].
      intros Hfit.
      destruct (add_rows_Ok hc (example_header example) (tableBody example)
                  (append_test_cases (example_preamble scenario example) st))
        as [st2 Hst2]; [| congruence].
      eapply Forall_impl; [exact Hfit |].
      intros r Hr a Ha. destruct (Hhc a Ha) as (i & Hi & Hlt).
      exists i. split; [done | simpl in *; lia].
  - right; left. exists v. by simpl.
Qed.

Lemma example_preamble_indented `{!Localization} (scenario : Scenario)
    (example : Examples) :
  Forall blank_or_indented (example_preamble scenario example).
Proof.
  unfold example_preamble. repeat apply Forall_app_2.
  - destruct (ex_description example) as [d|]; [| constructor].
    unfold documentation_lines. destruct (Py.truthy d); [| constructor].
    apply Forall_cons; split; [right; eauto |].
    apply Forall_forall. intros l (doc & -> & _)%list_elem_of_fmap.
    right; eauto.
  - destruct (sc_tags scenario ++ ex_tags example); [constructor |].
    apply Forall_singleton. right; eauto.
  - apply Forall_singleton. right; eauto.
Qed.

Lemma last_header_cons (example : Examples) (rest : list Examples)
    (header : option (list string)) :
  last_header (example :: rest) header
  = last_header rest (Some (example_header example)).
Proof.
  unfold last_header. destruct rest as [|e r]; [done |].
  simpl. destruct (last (e :: r)) eqn:Hlast; [done |].
  by apply last_None in Hlast.
Qed.

Lemma process_examples_inv `{!Localization} (scenario : Scenario)
    (variables : list string) (examples : list Examples)
    (header : option (list string)) (st : State) :
  (∃ lines,
     process_examples scenario variables examples header st
     = Ok (append_test_cases lines st, last_header examples header)
     ∧ (∀ example v, example ∈ examples → v ∈ variables →
                     v ∈ example_header example)
     ∧ Forall blank_or_indented lines)
  ∨ (∃ example v,
       example ∈ examples ∧ v ∈ variables ∧ ¬ (v ∈ example_header example)
       ∧ process_examples scenario variables examples header st
         = Raise (RuntimeWarning ("Example " +:+ ex_name example
                                  +:+ " missing column " +:+ v)))
  ∨ (∃ e example,
       example ∈ examples ∧ ¬ rows_fit example
       ∧ process_examples scenario variables examples header st = Raise e).
Proof.
  revert header st.
  induction examples as [|example rest IH]; intros header st.
  - left. exists []. rewrite append_test_cases_nil.
    split; [done |]. split; [| done]. by intros ? ? ?%elem_of_nil.
  - cbn [process_examples].
    destruct (process_example_inv scenario variables example st)
      as [(data & -> & Hvars & Hdata & _)
         |[(v & Hv & Hnv & ->)|(e & -> & _ & Hfit)]].
    + simpl.
      destruct (IH (Some (example_header example))
                  (append_test_cases
                     (example_preamble scenario example ++ data ++ [Text ""])
                     st))
        as [(lines & -> & Hall & Hlines)
           |[(ex & v & Hex & Hv & Hnv & ->)|(e & ex & Hex & Hfit & ->)]].
      * left. eexists. rewrite append_test_cases_app.
        split; [| split].
        -- by rewrite last_header_cons.
        -- intros ex v [->|Hex]%elem_of_cons Hv; [by apply Hvars | eauto].
        -- apply Forall_app_2; [| done].
           apply Forall_app_2; [apply example_preamble_indented |].
           apply Forall_app_2; [| apply Forall_singleton; by left].
           eapply Forall_impl; [exact Hdata |]. intros l Hl. by right.
      * right; left. exists ex, v. split; [by right | done].
      * right; right. exists e, ex. split; [by right | done].
    + right; left. exists example, v. split; [by left | done].
    + right; right. exists e, example. split; [by left | done].
Qed.

(** ** Lists of steps *)

Lemma add_steps_inv `{!Localization} (steps : list Step)
    (output output' : list Line) (seen seen' : registry) :
  add_steps output seen steps = Ok (output', seen') →
  ∃ new,
    output' = output ++ new
    ∧ (∀ k, k ∈ seen.*1 → k ∈ seen'.*1)
    ∧ (∀ step, step ∈ steps →
         rewrite_placeholders (step_text step) ∈ seen'.*1
         ∧ ∃ argument, Fields ("" :: call_fields step argument) ∈ new).
Proof.
  revert output seen.
  induction steps as [|step rest IH]; intros output seen Hsteps.
  - simpl in Hsteps. simplify_eq. exists []. rewrite app_nil_r.
    split; [done |]. split; [done |]. by intros ? ?%elem_of_nil.
  - cbn [add_steps] in Hsteps.
    destruct (add_step output seen step) as [[o s]|e] eqn:Hadd; [| done].
    simpl in Hsteps.
    apply add_step_Ok in Hadd as (lines & arg & _ & -> & ->).
    apply IH in Hsteps as (new & -> & Hseen & Hnew).
    set (key := rewrite_placeholders (step_text step)) in *.
    assert (∀ k, k ∈ seen.*1 ∨ k = key →
              k ∈ (if registered key seen then seen
                   else seen ++ [(key, arg)]).*1) as Hkeys.
    { intros k Hk. unfold registered, Py.mem. case_bool_decide as Hreg.
      - by destruct Hk as [?| ->].
      - rewrite fmap_app. apply elem_of_app.
        destruct Hk as [?| ->]; [by left | right; by left]. }
    eexists. split; [by rewrite <- !(assoc_L (++)) |].
    split; [intros k Hk; apply Hseen, Hkeys; by left |].
    intros x [->|Hx]%elem_of_cons.
    + split; [apply Hseen, Hkeys; by right |].
      exists arg. rewrite !elem_of_app, list_elem_of_singleton. auto.
    + destruct (Hnew x Hx) as (Hkey & a & Ha). split; [done |].
      exists a. rewrite !elem_of_app. auto.
Qed.

Lemma add_steps_total `{!Localization} (steps : list Step)
    (output : list Line) (seen : registry) :
  Forall table_has_header steps →
  ∃ output' seen', add_steps output seen steps = Ok (output', seen').
Proof.
  revert output seen.
  induction steps as [|step rest IH]; intros output seen Hh; [by do 2 eexists |].
  inversion Hh as [|? ? Hstep Hrest]; subst. cbn [add_steps].
  destruct (add_step_total output seen step Hstep) as (o & s & ->). simpl.
  by apply IH.
Qed.

(** ** The keyword of an outline *)

Lemma outline_variables_elem `{!SetOrder} (scenario : Scenario) (v : string) :
  v ∈ outline_variables scenario ↔ v ∈ step_variables scenario.
Proof. apply set_iter_elem. Qed.

(** The part of [process_scenario_outline] after the loop, when the loop has
    bound [header]. *)
Lemma outline_after_examples `{!Localization} `{!SetOrder}
    (scenario : Scenario) (st st1 : State) (h : list string) :
  process_examples scenario (outline_variables scenario)
    (sc_examples scenario) None st = Ok (st1, Some h) →
  process_scenario_outline scenario st
  = (st2 ← add_steps_to_keywords (sc_steps scenario)
             (append_keywords (keyword_head scenario h ++ background_call st1)
                st1);
     Ok (append_keywords [Text ""] st2)).
Proof.
  intros Hex. unfold process_scenario_outline. rewrite Hex. simpl.
  f_equal. unfold keyword_head, background_call, _add_keyword_documentation.
  destruct (sc_description scenario), (background_available st1) eqn:Hbg;
    simpl; rewrite ?Hbg, ?append_keywords_app; try done.
  all: f_equal; by norm_app.
Qed.

Lemma outline_unbound `{!Localization} `{!SetOrder}
    (scenario : Scenario) (st st1 : State) :
  process_examples scenario (outline_variables scenario)
    (sc_examples scenario) None st = Ok (st1, None) →
  process_scenario_outline scenario st = Raise (UnboundLocalError "header").
Proof.
  intros Hex. unfold process_scenario_outline. rewrite Hex. simpl.
  by destruct (sc_description scenario).
Qed.

Lemma outline_examples_raise `{!Localization} `{!SetOrder}
    (scenario : Scenario) (st : State) (e : exn) :
  process_examples scenario (outline_variables scenario)
    (sc_examples scenario) None st = Raise e →
  process_scenario_outline scenario st = Raise e.
Proof. intros Hex. unfold process_scenario_outline. by rewrite Hex. Qed.

Lemma add_steps_to_keywords_inv `{!Localization} (steps : list Step)
    (st st' : State) :
  add_steps_to_keywords steps st = Ok st' →
  ∃ new seen',
    st' = set_seen_steps seen' (append_keywords new st)
    ∧ (∀ k, k ∈ (seen_steps st).*1 → k ∈ seen'.*1)
    ∧ (∀ step, step ∈ steps →
         rewrite_placeholders (step_text step) ∈ seen'.*1
         ∧ ∃ argument, Fields ("" :: call_fields step argument) ∈ new).
Proof.
  unfold add_steps_to_keywords. intros Hst.
  destruct (add_steps (keywords_lines st) (seen_steps st) steps)
    as [[o s]|e] eqn:Hadd; [| done].
  simpl in Hst. simplify_eq.
  apply add_steps_inv in Hadd as (new & -> & Hseen & Hnew).
  by exists new, s.
Qed.

Lemma add_steps_to_keywords_total `{!Localization} (steps : list Step)
    (st : State) :
  Forall table_has_header steps →
  ∃ st', add_steps_to_keywords steps st = Ok st'.
Proof.
  intros Hh. unfold add_steps_to_keywords.
  destruct (add_steps_total steps (keywords_lines st) (seen_steps st) Hh)
    as (o & s & ->).
  simpl. by eexists.
Qed.

(** What a scenario outline that is processed to the end has added. *)
Lemma process_scenario_outline_Ok `{!Localization} `{!SetOrder}
    (scenario : Scenario) (st st' : State) :
  process_scenario_outline scenario st = Ok st' →
  ∃ example cases body seen',
    last (sc_examples scenario) = Some example
    ∧ Forall blank_or_indented cases
    ∧ test_cases_lines st' = test_cases_lines st ++ cases
    ∧ keywords_lines st'
      = keywords_lines st
        ++ keyword_head scenario (example_header example)
        ++ background_call st ++ body ++ [Text ""]
    ∧ seen_steps st' = seen'
    ∧ (∀ k, k ∈ (seen_steps st).*1 → k ∈ seen'.*1)
    ∧ (∀ step, step ∈ sc_steps scenario →
         rewrite_placeholders (step_text step) ∈ seen'.*1
         ∧ ∃ argument, Fields ("" :: call_fields step argument) ∈ body)
    ∧ (∀ ex v, ex ∈ sc_examples scenario → v ∈ step_variables scenario →
               v ∈ example_header ex).
Proof.
  intros Hout.
  destruct (process_examples_inv scenario (outline_variables scenario)
              (sc_examples scenario) None st)
    as [(cases & Hex & Hall & Hcases)
       |[(ex & v & _ & _ & _ & Hex)|(e & ex & _ & _ & Hex)]].
  - unfold last_header in Hex.
    destruct (last (sc_examples scenario)) as [example|] eqn:Hlast.
    + rewrite (outline_after_examples _ _ _ _ Hex) in Hout.
      destruct (add_steps_to_keywords _ _) as [st2|e] eqn:Hsteps; [| done].
      simpl in Hout. simplify_eq.
      apply add_steps_to_keywords_inv in Hsteps
        as (body & seen' & -> & Hseen & Hbody).
      exists example, cases, body, seen'.
      split; [done |]. split; [done |]. split; [done |].
      split; [simpl; by norm_app |]. split; [done |].
      split; [done |]. split; [done |].
      intros ex v Hin Hv. apply Hall; [done |].
      by apply outline_variables_elem.
    + by rewrite (outline_unbound _ _ _ Hex) in Hout.
  - by rewrite (outline_examples_raise _ _ _ Hex) in Hout.
  - by rewrite (outline_examples_raise _ _ _ Hex) in Hout.
Qed.

(** An outline whose blocks have a column for every variable and rows as wide
    as their header, and whose tables have a first row, is processed to the
    end, if it has a block at all. *)
Lemma process_scenario_outline_total `{!Localization} `{!SetOrder}
    (scenario : Scenario) (st : State) :
  sc_examples scenario ≠ [] →
  (∀ ex v, ex ∈ sc_examples scenario → v ∈ step_variables scenario →
           v ∈ example_header ex) →
  Forall rows_fit (sc_examples scenario) →
  Forall table_has_header (sc_steps scenario) →
  ∃ st', process_scenario_outline scenario st = Ok st'.
Proof.
  intros Hne Hvars Hfit Hsteps.
  destruct (process_examples_inv scenario (outline_variables scenario)
              (sc_examples scenario) None st)
    as [(cases & Hex & _)
       |[(ex & v & Hin & Hv & Hnv & _)|(e & ex & Hin & Hnfit & _)]].
  - unfold last_header in Hex.
    destruct (last (sc_examples scenario)) as [example|] eqn:Hlast;
      [| by apply last_None in Hlast].
    rewrite (outline_after_examples _ _ _ _ Hex).
    edestruct add_steps_to_keywords_total as [st2 ->]; [done |].
    simpl. by eexists.
  - destruct Hnv. apply Hvars; [done |]. by apply outline_variables_elem.
  - destruct Hnfit. rewrite Forall_forall in Hfit. by apply Hfit.
Qed.

(** C9: with no example block, [process_scenario_outline] raises
    [UnboundLocalError] for [header] and adds no keyword.  With example
    blocks, of which [example] is the last, the keyword it adds has, after its
    name and documentation, the arguments line made of the columns of the
    header of [example], in their order, whatever the headers of the other
    blocks; and it does add the keyword when every block has a column for
    every variable and rows as wide as its header (and every table of a step
    has a first row). *)
Theorem C9_arguments_of_last_example `{!Localization} `{!SetOrder}
    (scenario : Scenario) (st : State) :
  (sc_examples scenario = [] →
   process_scenario_outline scenario st = Raise (UnboundLocalError "header"))
  ∧ (∀ examples example, sc_examples scenario = examples ++ [example] →
       (∀ st', process_scenario_outline scenario st = Ok st' →
          ∃ documentation body,
            keywords_lines st'
            = keywords_lines st
              ++ Text (template_name scenario) :: documentation
              ++ Fields ([""; "[" +:+ tr "arguments" None +:+ "]"]
                         ++ map (λ arg, "${" +:+ arg +:+ "}")
                                (example_header example))
                 :: body)
       ∧ ((∀ ex v, ex ∈ sc_examples scenario →
                   v ∈ step_variables scenario → v ∈ example_header ex) →
          Forall rows_fit (sc_examples scenario) →
          Forall table_has_header (sc_steps scenario) →
          ∃ st', process_scenario_outline scenario st = Ok st')).
Proof.
  split.
  - intros Hnil. apply (outline_unbound scenario st st). by rewrite Hnil.
  - intros examples example Hexs. split.
    + intros st' Hout.
      apply process_scenario_outline_Ok in Hout
        as (ex & cases & body & seen' & Hlast & _ & _ & Hkw & _).
      rewrite Hexs, last_snoc in Hlast. simplify_eq.
      rewrite Hkw. unfold keyword_head.
      exists (match sc_description scenario with
              | Some d => documentation_lines d
              | None => []
              end), (background_call st ++ body ++ [Text ""]).
      by rewrite <- !(assoc_L (++)).
    + intros Hvars Hfit Hsteps.
      apply process_scenario_outline_total; try done.
      rewrite Hexs. by destruct examples.
Qed.

Lemma C9_witness :
  @process_scenario_outline en first_seen outline_no_examples initial_state
  = Raise (UnboundLocalError "header")
  ∧ ∃ st', @process_scenario_outline en first_seen outline_3_2 initial_state
           = Ok st'
           ∧ Fields [""; "[Arguments]"; "${balance}"; "${amount}"]
             ∈ keywords_lines st'.
Proof.
  split.
  - destruct (@C9_arguments_of_last_example en first_seen
                outline_no_examples initial_state) as [Hnil _].
    apply Hnil. reflexivity.
  - destruct (@C9_arguments_of_last_example en first_seen outline_3_2
                initial_state) as [_ Hlast].
    destruct (Hlast [examples_small] examples_unnamed eq_refl)
      as [Hargs Htotal].
    destruct Htotal as [st' Hst'].
    + intros ex v Hex Hv. revert v Hv. apply Forall_forall.
      revert ex Hex. apply Forall_forall.
      repeat first [apply Forall_cons; split | apply Forall_nil];
        vm_compute; repeat constructor.
    + repeat first [apply Forall_cons; split | apply Forall_nil];
        vm_compute; lia.
    + repeat constructor.
    + exists st'. split; [exact Hst' |].
      destruct (Hargs st' Hst') as (documentation & body & ->).
      apply elem_of_app; right. apply list_elem_of_further.
      apply elem_of_app; right. apply list_elem_of_here.
Defined.

(** The arguments are those of the last block, not of all the blocks: the
    column [coins] of the first block of [outline_two_headers] is no argument
    of the keyword, though the rows of the block have a value for it. *)
Lemma outline_arguments_not_union :
  ∃ st',
    @process_scenario_outline en first_seen outline_two_headers initial_state
    = Ok st'
    ∧ test_cases_lines st'
      = [Fields [""; "[Template]"; "Scenario Outline Pay"];
         Fields [""; "1"; "2"];
         Text "";
         Fields [""; "[Template]"; "Scenario Outline Pay"];
         Fields [""; "3"; "visa"];
         Text ""]
    ∧ keywords_lines st'
      = [Text "Scenario Outline Pay";
         Fields [""; "[Arguments]"; "${amount}"; "${card}"];
         Fields [""; "Given a payment of ${amount}"];
         Text ""].
Proof. eexists. split; [by vm_compute |]. by split. Qed.

(** ** A variable without a column *)

Lemma process_children_raise `{!Localization} `{!SetOrder}
    (scenario : Scenario) (rest : list Child) (st : State) (e : exn) :
  process_scenario scenario st = Raise e →
  process_children (ChildScenario scenario :: rest) st = Raise e.
Proof. intros Hsc. cbn [process_children]. by rewrite Hsc. Qed.

(** C4, the counterexample: the step of [outline_missing_column] refers to
    [amount], which the header of its first block lacks.  Its processing
    ends there with the exception: nothing comes back, neither the second
    block nor the keyword, and the processing of the feature ends with it,
    before the scenario that follows. *)
Lemma C4_counterexample :
  @process_scenario_outline en first_seen outline_missing_column initial_state
  = Raise (RuntimeWarning "Example first missing column amount")
  ∧ @process_feature en first_seen feature_missing_column initial_state
    = Raise (RuntimeWarning "Example first missing column amount").
Proof. split; by vm_compute. Qed.

(** C4, as amended: when a step of a scenario outline refers to a
    placeholder that the header of one of its example blocks lacks,
    [process_scenario_outline] raises an exception, which nothing catches: it
    returns no lines, and where the scenario is dispatched as an outline the
    processing of the children of the feature ends with the same exception,
    whatever follows.  When every row of the blocks is as wide as its header,
    the exception is the [RuntimeWarning] that names a block and a
    placeholder its header lacks. *)
Theorem C4_missing_column_aborts `{!Localization} `{!SetOrder}
    (scenario : Scenario) (example : Examples) (v : string) :
  example ∈ sc_examples scenario →
  v ∈ step_variables scenario →
  ¬ (v ∈ example_header example) →
  (∀ st, ∃ e,
     process_scenario_outline scenario st = Raise e
     ∧ (process_scenario scenario st = process_scenario_outline scenario st →
        ∀ rest, process_children (ChildScenario scenario :: rest) st
                = Raise e))
  ∧ (Forall rows_fit (sc_examples scenario) →
     ∀ st, ∃ example' v',
       example' ∈ sc_examples scenario
       ∧ v' ∈ step_variables scenario
       ∧ ¬ (v' ∈ example_header example')
       ∧ process_scenario_outline scenario st
         = Raise (RuntimeWarning ("Example " +:+ ex_name example'
                                  +:+ " missing column " +:+ v'))).
Proof.
  intros Hin Hv Hnv.
  assert (∀ st,
            (∃ example' v',
               example' ∈ sc_examples scenario
               ∧ v' ∈ step_variables scenario
               ∧ ¬ (v' ∈ example_header example')
               ∧ process_scenario_outline scenario st
                 = Raise (RuntimeWarning ("Example " +:+ ex_name example'
                                          +:+ " missing column " +:+ v')))
            ∨ (∃ e example',
                 example' ∈ sc_examples scenario ∧ ¬ rows_fit example'
                 ∧ process_scenario_outline scenario st = Raise e))
    as Hcases.
  { intros st.
    destruct (process_examples_inv scenario (outline_variables scenario)
                (sc_examples scenario) None st)
      as [(cases & _ & Hall & _)
         |[(ex & x & Hex & Hx & Hnx & Hr)|(e & ex & Hex & Hfit & Hr)]].
    - destruct Hnv. apply Hall; [done |]. by apply outline_variables_elem.
    - left. exists ex, x. apply outline_variables_elem in Hx.
      by rewrite (outline_examples_raise _ _ _ Hr).
    - right. exists e, ex. by rewrite (outline_examples_raise _ _ _ Hr). }
  split.
  - intros st.
    destruct (Hcases st) as [(ex & x & _ & _ & _ & Hr)|(e & ex & _ & _ & Hr)];
      eexists; (split; [exact Hr |]);
      intros Hdispatch rest; apply process_children_raise; congruence.
  - intros Hfit st.
    destruct (Hcases st) as [Hr|(e & ex & Hex & Hnfit & _)]; [done |].
    destruct Hnfit. rewrite Forall_forall in Hfit. by apply Hfit.
Qed.

Lemma C4_witness :
  ∃ example' v',
    example' ∈ sc_examples outline_missing_column
    ∧ @process_scenario_outline en first_seen outline_missing_column
        initial_state
      = Raise (RuntimeWarning ("Example " +:+ ex_name example'
                               +:+ " missing column " +:+ v')).
Proof.
  destruct (@C4_missing_column_aborts en first_seen outline_missing_column
              {| ex_name := "first"; ex_line := 5; ex_description := None;
                 ex_tags := []; tableHeader := row ["other"];
                 tableBody := [row ["1"]] |} "amount")
    as [_ Hwarning].
  - apply list_elem_of_here.
  - vm_compute. apply list_elem_of_here.
  - vm_compute. intros Hin. apply list_elem_of_singleton in Hin. discriminate.
  - destruct (Hwarning
                ltac:(repeat first [apply Forall_cons; split | apply Forall_nil];
                      vm_compute; lia) initial_state)
      as (example' & v' & Hin & _ & _ & Hraise).
    exists example', v'. split; [exact Hin | exact Hraise].
Defined.

(** ** The test cases of an outline *)

(** C5: what [process_scenario_outline] does with an outline of two example
    blocks of three and of two data rows.  It adds one keyword, and for each
    block a reference to the template, the rows of the block and an empty
    line; but the names lines 440-442 compute for the two test cases,
    [Withdraw: small] and [Withdraw example line 13], are on no line: the
    statement that appended them is commented out, so the rows of the two
    blocks follow each other under no test case of their own. *)
Theorem C5_outline_test_cases_without_name :
  test_case_name outline_3_2 examples_small = "Withdraw: small"
  ∧ test_case_name outline_3_2 examples_unnamed = "Withdraw example line 13"
  ∧ ∃ st',
      @process_scenario_outline en first_seen outline_3_2 initial_state
      = Ok st'
      ∧ test_cases_lines st'
        = [Fields [""; "[Template]"; "Scenario Outline Withdraw"];
           Fields [""; "10"; "1"];
           Fields [""; "20"; "2"];
           Fields [""; "30"; "${EMPTY}"];
           Text "";
           Fields [""; "[Template]"; "Scenario Outline Withdraw"];
           Fields [""; "100"; "10"];
           Fields [""; "200"; "20"];
           Text ""]
      ∧ keywords_lines st'
        = [Text "Scenario Outline Withdraw";
           Fields [""; "[Arguments]"; "${balance}"; "${amount}"];
           Fields [""; "Given the balance is ${balance}"];
           Fields [""; "When I withdraw ${amount}"];
           Text ""]
      ∧ ¬ (Text (test_case_name outline_3_2 examples_small)
           ∈ test_cases_lines st')
      ∧ ¬ (Text (test_case_name outline_3_2 examples_unnamed)
           ∈ test_cases_lines st').
Proof.
  split; [by vm_compute |]. split; [by vm_compute |].
  eexists. split; [by vm_compute |].
  split; [reflexivity |]. split; [reflexivity |].
  split; intros Hin; vm_compute in Hin;
    repeat (apply elem_of_cons in Hin as [Hin|Hin]; [discriminate |]);
    by apply elem_of_nil in Hin.
Qed.

(** The same for every outline: no line that is added to the test cases can
    be the name of a test case. *)
Lemma outline_test_cases_indented `{!Localization} `{!SetOrder}
    (scenario : Scenario) (st st' : State) :
  process_scenario_outline scenario st = Ok st' →
  ∃ cases, test_cases_lines st' = test_cases_lines st ++ cases
           ∧ Forall blank_or_indented cases.
Proof.
  intros Hout.
  apply process_scenario_outline_Ok in Hout
    as (ex & cases & body & seen' & _ & Hcases & Htc & _).
  by exists cases.
Qed.

(** ** The rewriting of placeholders *)

(** C7, the counterexample: the text [the total is > 5] has no placeholder,
    so the rewriting of the specification leaves it as it is; [add_step]
    turns its angle bracket into a closing brace. *)
Lemma C7_counterexample :
  Re.findall_variables "the total is > 5" = []
  ∧ spec_rewrite_placeholders "the total is > 5" = "the total is > 5"
  ∧ rewrite_placeholders "the total is > 5" = "the total is } 5"
  ∧ rewrite_placeholders "the total is > 5"
    ≠ spec_rewrite_placeholders "the total is > 5".
Proof. repeat split; by vm_compute. Qed.

(** C7, as amended: the text [add_step] renders is the text of the step with
    every [<] rewritten to [${] and every [>] to [}], and every other
    character unchanged.  When each angle bracket of the text is one of a
    placeholder occurrence, this rewrites each occurrence [<x>] to [${x}] and
    leaves the rest.  The rendered text is the key under which the step is
    registered and the end of the text of its call; so it is for every step
    of a scenario outline, in the body of the keyword of the outline, and
    [the value is <amount>] is rendered [the value is ${amount}]. *)
Theorem C7_rewrite_placeholders `{!Localization} `{!SetOrder} :
  (∀ text, rewrite_placeholders text = expand rewrite_char text)
  ∧ (∀ text, brackets_enclose_variables text = true →
       rewrite_placeholders text = spec_rewrite_placeholders text)
  ∧ (∀ step, ∃ verb,
       call_text step = verb +:+ rewrite_placeholders (step_text step))
  ∧ (∀ output seen step output' seen',
       add_step output seen step = Ok (output', seen') →
       rewrite_placeholders (step_text step) ∈ seen'.*1
       ∧ ∃ argument,
           last output' = Some (Fields ("" :: call_fields step argument)))
  ∧ (∀ scenario st st',
       process_scenario_outline scenario st = Ok st' →
       ∀ step, step ∈ sc_steps scenario →
         rewrite_placeholders (step_text step) ∈ (seen_steps st').*1
         ∧ ∃ argument,
             Fields ("" :: call_fields step argument) ∈ keywords_lines st')
  ∧ rewrite_placeholders "the value is <amount>" = "the value is ${amount}".
Proof.
  split; [apply rewrite_placeholders_expand |].
  split.
  { intros text Hb. rewrite rewrite_placeholders_expand.
    rewrite <- (drop_0 text) at 1. by apply expand_spec_rewrite_from. }
  split.
  { intros step. unfold call_text.
    destruct (String.eqb _ _); [by exists "" | by eexists]. }
  split.
  { intros output seen step output' seen' Hadd.
    apply add_step_Ok in Hadd as (lines & arg & _ & -> & ->). split.
    - unfold registered, Py.mem. case_bool_decide as Hreg; [done |].
      rewrite fmap_app. apply elem_of_app. right. apply list_elem_of_here.
    - exists arg. by rewrite (assoc_L (++)), last_snoc. }
  split; [| by vm_compute].
  intros scenario st st' Hout step Hstep.
  apply process_scenario_outline_Ok in Hout
    as (ex & cases & body & seen' & _ & _ & _ & Hkw & <- & _ & Hbody & _).
  destruct (Hbody step Hstep) as (Hkey & arg & Harg).
  split; [done |]. exists arg. rewrite Hkw, !elem_of_app. auto.
Qed.

Lemma C7_witness :
  rewrite_placeholders "the value is <amount>"
  = spec_rewrite_placeholders "the value is <amount>"
  ∧ ∃ st',
      @process_scenario_outline en first_seen outline_value initial_state
      = Ok st'
      ∧ "the value is ${amount}" ∈ (seen_steps st').*1
      ∧ ∃ argument,
          Fields ("" :: @call_fields en
                          (plain_step "Then " "the value is <amount>")
                          argument)
          ∈ keywords_lines st'.
Proof.
  destruct (@C7_rewrite_placeholders en first_seen)
    as (_ & Hspec & _ & _ & Houtline & _).
  split; [apply Hspec; by vm_compute |].
  destruct (@process_scenario_outline en first_seen outline_value
              initial_state) as [st'|e] eqn:Hst';
    [| by vm_compute in Hst'].
  exists st'. split; [reflexivity |].
  exact (Houtline outline_value initial_state st' Hst'
           (plain_step "Then " "the value is <amount>")
           (list_elem_of_here _ _)).
Defined.

(** ** Templates and the match rule *)

Lemma read_keywords_templates `{!Localization} (lines : list string)
    (in_keywords : bool) (keywords : list (string * string)) :
  (∀ t, t ∈ keywords → t.2 = Re.sub_placeholders t.1) →
  ∀ t, t ∈ read_keywords lines in_keywords keywords →
       t.2 = Re.sub_placeholders t.1.
Proof.
  revert in_keywords keywords.
  induction lines as [|line rest IH]; intros b acc Hacc; [done |].
  cbn [read_keywords]. repeat case_match; try by apply IH.
  apply IH. intros t Ht. apply elem_of_app in Ht as [Ht|Ht]; [by apply Hacc |].
  by apply list_elem_of_singleton in Ht as ->.
Qed.

Lemma keyword_found_Ok `{!Re.Engine} (key : string)
    (kw : list (string * string)) (ff0 ff : bool) :
  keyword_found key kw ff0 = Ok ff →
  (ff = true ↔ ff0 = true ∨ ∃ t, t ∈ kw ∧ satisfies t key).
Proof.
  revert ff0. induction kw as [|[lit pat] kw IH]; intros ff0 Hfound.
  - simpl in Hfound. simplify_eq. split; [by left |].
    intros [?|(t & Ht & _)]; [done | by apply elem_of_nil in Ht].
  - cbn [keyword_found] in Hfound.
    destruct (String.eqb_spec key lit) as [->|Hne].
    + apply IH in Hfound. rewrite Hfound. split; [| auto].
      intros _. right. exists (lit, pat). split; [left | by left].
    + destruct (Re.compile pat) as [regex|] eqn:Hcompile; [| done].
      simpl in Hfound. apply IH in Hfound. rewrite Hfound. split.
      * intros [Hff|(t & Ht & Hsat)].
        -- destruct (Re.matches regex key) eqn:Hm; [| by left].
           right. exists (lit, pat). split; [left |]. right. by exists regex.
        -- right. exists t. split; [by right | done].
      * intros [->|(t & Ht & Hsat)].
        -- left. by destruct (Re.matches regex key).
        -- apply elem_of_cons in Ht as [->|Ht]; [| right; by exists t].
           left. destruct Hsat as [?|(r & Hr & Hm)]; [done |].
           simpl in Hr. rewrite Hcompile in Hr. simplify_eq. by rewrite Hm.
Qed.

Lemma keyword_found_total `{!Re.Engine} (key : string)
    (kw : list (string * string)) (ff0 : bool) :
  (∀ t, t ∈ kw → t.1 ≠ key → is_Some (Re.compile t.2)) →
  ∃ ff, keyword_found key kw ff0 = Ok ff.
Proof.
  revert ff0. induction kw as [|[lit pat] kw IH]; intros ff0 Hc;
    [by eexists |].
  cbn [keyword_found].
  assert (∀ t, t ∈ kw → t.1 ≠ key → is_Some (Re.compile t.2)) as Hrest
    by (intros t Ht; apply Hc; by right).
  destruct (String.eqb_spec key lit) as [->|Hne]; [by apply IH |].
  destruct (Hc (lit, pat)) as [regex Hregex]; [left | by simpl |].
  simpl in Hregex. rewrite Hregex. simpl. by apply IH.
Qed.

(** A keyword name without placeholder is its own pattern. *)
Lemma sub_placeholders_id (lit : string) :
  Re.has_placeholder lit = false → Re.sub_placeholders lit = lit.
Proof.
  unfold Re.sub_placeholders.
  induction lit as [|c lit IH]; [done |].
  cbn [Re.has_placeholder Re.sub_from]. intros [Hp Hrest]%orb_false_elim.
  destruct (Re.placeholder (String c lit)) as [name|].
  - rewrite bool_decide_eq_true_2 in Hp; [done | by eexists].
  - by rewrite (IH Hrest).
Qed.

Lemma parse_ordinary_char (c : ascii) (p : string) :
  Re.special c = false →
  Re.parse (String c p) = cons (Re.Chr c) <$> Re.parse p.
Proof.
  intros Hc. destruct c as [[] [] [] [] [] [] [] []];
    try (by vm_compute in Hc); cbn [Re.parse]; by rewrite Hc.
Qed.

Lemma parse_ordinary (lit : string) :
  ordinary lit = true → Re.parse lit = Some (literal_items lit).
Proof.
  unfold ordinary. induction lit as [|c lit IH]; [done |].
  cbn [all_chars]. intros [Hc Hlit]%andb_prop.
  apply negb_true_iff in Hc.
  by rewrite (parse_ordinary_char _ _ Hc), (IH Hlit).
Qed.

(** [re.match] of a text of ordinary characters: the text is at the start. *)
Lemma match_literal_items (lit s : string) :
  Re.match_items (literal_items lit) s = Py.startswith s lit.
Proof.
  unfold Py.startswith. revert s.
  induction lit as [|c lit IH]; intros s; simpl; [by destruct s |].
  destruct s as [|d s]; [done |]. simpl.
  destruct (ascii_dec c d) as [->|Hne].
  - by rewrite Ascii.eqb_refl, IH.
  - apply Ascii.eqb_neq in Hne. by rewrite Hne.
Qed.

(** The wildcard group: some text without newline, then the rest. *)
Lemma match_any (r : list Re.item) (s : string) :
  Re.match_items (Re.Any :: r) s = true
  ↔ ∃ w s', all_chars (λ c, negb (Ascii.eqb c "010")) w = true
            ∧ s = w +:+ s' ∧ Re.match_items r s' = true.
Proof.
  cbn [Re.match_items]. induction s as [|d s IH].
  - rewrite orb_false_r. split.
    + intros Hm. by exists "", "".
    + intros (w & s' & _ & Hs & Hm). by destruct w, s'.
  - rewrite orb_true_iff, andb_true_iff, IH. split.
    + intros [Hm|[Hd (w & s' & Hw & -> & Hm)]].
      * by exists "", (String d s).
      * exists (String d w), s'. simpl. by rewrite Hd, Hw.
    + intros (w & s' & Hw & Hs & Hm). destruct w as [|c w].
      * left. simpl in Hs. by rewrite Hs.
      * right. simpl in Hs, Hw. simplify_eq.
        apply andb_prop in Hw as [Hd Hw]. split; [done |]. by exists w, s'.
Qed.

(** What [re.match] says of a pattern of the fragment: the text starts with
    an instance of the pattern. *)
Lemma match_items_spec (its : list Re.item) (s : string) :
  Re.match_items its s = true
  ↔ ∃ t rest, instance_of its t ∧ s = t +:+ rest.
Proof.
  revert s. induction its as [|[c|] its IH]; intros s.
  - split; [intros _; exists "", s; split; [constructor | done] | done].
  - cbn [Re.match_items]. destruct s as [|d s].
    + split; [done |]. intros (t & rest & Ht & Hs). inversion Ht; by subst.
    + rewrite andb_true_iff, IH. split.
      * intros [->%Ascii.eqb_eq (t & rest & Ht & ->)].
        exists (String d t), rest. split; [by constructor | done].
      * intros (t & rest & Ht & Hs). inversion Ht; subst.
        simpl in Hs. simplify_eq. split; [apply Ascii.eqb_refl | eauto].
  - rewrite match_any. split.
    + intros (w & s' & Hw & -> & (t & rest & Ht & ->)%IH).
      exists (w +:+ t), rest. split; [by constructor |].
      by rewrite string_app_assoc.
    + intros (t & rest & Ht & ->). inversion Ht; subst.
      eexists _, _. split; [done |]. split; [apply string_app_assoc |].
      apply IH. eauto.
Qed.

Lemma fragment_agrees : Re.agrees_with_fragment Re.fragment.
Proof. intros p its Hp. exists its. by split. Qed.

Lemma login_resource_keywords `{!Localization} :
  read_keywords login_resource_lines false []
  = [("Given user ${name} logs in", "Given user " +:+ Re.wildcard +:+ " logs in")].
Proof. unfold login_resource_lines. cbn [read_keywords]. by vm_compute. Qed.

Lemma user_resource_keywords `{!Localization} :
  read_keywords user_resource_lines false []
  = [("user ${name} logs in", "user " +:+ Re.wildcard +:+ " logs in")].
Proof. unfold user_resource_lines. cbn [read_keywords]. by vm_compute. Qed.

Lemma drop_app_length (a b : string) :
  Re.drop (String.length a) (a +:+ b) = b.
Proof. induction a as [|c a IH]; [by destruct b | done]. Qed.

(** What the flag of the loop of lines 178-185 says when the patterns are of
    the fragment: the loop ends, and the flag is set exactly when a template
    implements the text. *)
Lemma keyword_found_implements `{!Re.Engine} (key : string)
    (kw : list (string * string)) :
  Re.agrees_with_fragment _ →
  (∀ t, t ∈ kw → is_Some (Re.parse t.2)) →
  ∃ ff, keyword_found key kw false = Ok ff
        ∧ (ff = true ↔ ∃ t, t ∈ kw ∧ implements t key).
Proof.
  intros Hagree Hparse.
  destruct (keyword_found_total key kw false) as [ff Hff].
  { intros t Ht _. destruct (Hparse t Ht) as [its Hits].
    destruct (Hagree _ _ Hits) as (regex & -> & _). by eexists. }
  exists ff. split; [done |].
  apply keyword_found_Ok in Hff. rewrite Hff. split.
  - intros [?|(t & Ht & Hsat)]; [done |]. exists t. split; [done |].
    destruct Hsat as [->|(regex & Hregex & Hm)]; [by left | right].
    destruct (Hparse t Ht) as [its Hits]. exists its. split; [done |].
    destruct (Hagree _ _ Hits) as (regex' & Hregex' & Hmatch).
    rewrite Hregex in Hregex'. injection Hregex' as <-.
    rewrite Hmatch in Hm. by apply match_items_spec.
  - intros (t & Ht & Himpl). right. exists t. split; [done |].
    destruct Himpl as [->|(its & Hits & Hstart)]; [by left | right].
    destruct (Hagree _ _ Hits) as (regex & Hregex & Hmatch).
    exists regex. split; [done |]. rewrite Hmatch. by apply match_items_spec.
Qed.

(** C1, the counterexample: the step [Given user Alice logs in], whose
    canonical text in the words of the specification is that text, is
    registered by [add_step] as [user Alice logs in], and with the keyword
    [Given user ${name} logs in] in the resource the loop of lines 178-185
    leaves it missing.  And the text [Given user Alice logs in and then out],
    which is the literal with no name in the place of [${name}], is found:
    [re.match] asks for a match at the start of the text. *)
Lemma C1_counterexample :
  let kw := @read_keywords en login_resource_lines false [] in
  @spec_canonical_text en alice_logs_in = "Given user Alice logs in"
  ∧ (∃ output, @add_step en [] [] alice_logs_in
               = Ok (output, [("user Alice logs in", None)]))
  ∧ @keyword_found Re.fragment "user Alice logs in" kw false = Ok false
  ∧ @keyword_found Re.fragment "Given user Alice logs in and then out" kw
      false
    = Ok true
  ∧ ∀ name, "Given user Alice logs in and then out"
            ≠ "Given user " +:+ name +:+ " logs in".
Proof.
  split; [by vm_compute |]. split; [eexists; by vm_compute |].
  split; [by vm_compute |]. split; [by vm_compute |].
  intros name Heq. simpl in Heq. simplify_eq.
  assert (String.length name = 18) as Hlength.
  { apply (f_equal String.length) in Heq.
    rewrite string_length_app in Heq. simpl in Heq. lia. }
  pose proof (drop_app_length name " logs in") as Hdrop.
  rewrite <- Heq, Hlength in Hdrop. by vm_compute in Hdrop.
Qed.

(** C1, as amended: the templates [_read_keywords_from_resource] makes of the
    lines of a resource pair the name of a keyword with the pattern that
    [re.sub] makes of it, every [${identifier}] replaced by the wildcard
    group.  When the loop of lines 178-185 ends, its flag [ff] says that the
    registered text is the literal of one of the templates or is matched by
    the pattern of one; it does end when every pattern that is compiled
    compiles.  [re.match] matches at the start of the text: where the
    patterns are made of ordinary characters and wildcard groups, the loop
    ends and the flag says that the text is a literal or starts with an
    instance of a pattern.  The text that is registered for a step is the
    rewritten text without the verb: the step [Given user Alice logs in] is
    registered as [user Alice logs in], which is missing when the keyword of
    the resource is [Given user ${name} logs in] and found when it is
    [user ${name} logs in].  Of the texts with the verb, were they
    registered, [Given user Alice logs in] is found for the keyword
    [Given user ${name} logs in], and so is
    [Given user Alice logs in and then out], and [Given user Alice logs out]
    is not. *)
Theorem C1_template_matching `{!Localization} `{!Re.Engine}
    (lines : list string) (key : string) :
  let kw := read_keywords lines false [] in
  (∀ t, t ∈ kw → t.2 = Re.sub_placeholders t.1)
  ∧ (∀ ff, keyword_found key kw false = Ok ff →
       (ff = true ↔ ∃ t, t ∈ kw ∧ satisfies t key))
  ∧ ((∀ t, t ∈ kw → t.1 ≠ key → is_Some (Re.compile t.2)) →
     ∃ ff, keyword_found key kw false = Ok ff)
  ∧ (Re.agrees_with_fragment _ →
     (∀ t, t ∈ kw → is_Some (Re.parse t.2)) →
     ∃ ff, keyword_found key kw false = Ok ff
           ∧ (ff = true ↔ ∃ t, t ∈ kw ∧ implements t key))
  ∧ (Re.agrees_with_fragment _ →
     let with_verb := read_keywords login_resource_lines false [] in
     let without_verb := read_keywords user_resource_lines false [] in
     add_step [] [] alice_logs_in
     = Ok ([Fields [""; tr "Given " (Some "Given ") +:+ "user Alice logs in"]],
           [("user Alice logs in", None)])
     ∧ keyword_found "user Alice logs in" with_verb false = Ok false
     ∧ keyword_found "user Alice logs in" without_verb false = Ok true
     ∧ keyword_found "Given user Alice logs in" with_verb false = Ok true
     ∧ keyword_found "Given user Alice logs in and then out" with_verb false
       = Ok true
     ∧ keyword_found "Given user Alice logs out" with_verb false = Ok false).
Proof.
  intros kw.
  split; [apply read_keywords_templates; by intros t Ht%elem_of_nil |].
  split.
  { intros ff Hff. apply keyword_found_Ok in Hff. rewrite Hff.
    split; [by intros [?|?] | auto]. }
  split; [apply keyword_found_total |].
  split; [apply keyword_found_implements |].
  intros Hagree with_verb without_verb. unfold with_verb, without_verb.
  rewrite login_resource_keywords, user_resource_keywords.
  destruct (Hagree ("Given user " +:+ Re.wildcard +:+ " logs in") _ eq_refl)
    as (regex & Hregex & Hmatch).
  destruct (Hagree ("user " +:+ Re.wildcard +:+ " logs in") _ eq_refl)
    as (regex' & Hregex' & Hmatch').
  split; [done |].
  cbn [keyword_found]. rewrite Hregex, Hregex'. simpl.
  rewrite !Hmatch, !Hmatch'. repeat split; by vm_compute.
Qed.

Lemma C1_witness :
  let with_verb := @read_keywords en login_resource_lines false [] in
  let without_verb := @read_keywords en user_resource_lines false [] in
  @add_step en [] [] alice_logs_in
  = Ok ([Fields [""; "Given user Alice logs in"]],
        [("user Alice logs in", None)])
  ∧ @keyword_found Re.fragment "user Alice logs in" with_verb false
    = Ok false
  ∧ @keyword_found Re.fragment "user Alice logs in" without_verb false
    = Ok true
  ∧ ∃ ff, @keyword_found Re.fragment "user Bob logs in" without_verb false
          = Ok ff
          ∧ (ff = true
             ↔ ∃ t, t ∈ without_verb
                    ∧ implements t "user Bob logs in").
Proof.
  destruct (@C1_template_matching en Re.fragment user_resource_lines
              "user Bob logs in") as (_ & _ & _ & Hrule & Hexample).
  destruct (Hexample fragment_agrees) as (Hadd & Hmissing & Hfound & _).
  split; [exact Hadd |]. split; [exact Hmissing |]. split; [exact Hfound |].
  apply Hrule; [exact fragment_agrees |].
  intros t Ht. rewrite user_resource_keywords in Ht.
  apply list_elem_of_singleton in Ht as ->. by eexists.
Defined.

(** C8, the counterexample: the keyword [Given a user] has no placeholder,
    and the step text [Given a user exists], which is another text, is found
    all the same: [re.match] asks for a match at the start of the text, not
    of all of it. *)
Lemma C8_counterexample :
  Re.has_placeholder "Given a user" = false
  ∧ @keyword_found Re.fragment "Given a user exists"
      [("Given a user", Re.sub_placeholders "Given a user")] false
    = Ok true
  ∧ "Given a user exists" ≠ "Given a user".
Proof. repeat split; by vm_compute. Qed.

(** C8, as amended: the pattern of a template whose literal has no
    [${identifier}] placeholder is the literal itself, and a step text that
    is the literal is found.  The rule is not equality, though: where the
    literal is made of ordinary characters, a step text is found exactly when
    it starts with the literal. *)
Theorem C8_placeholder_free_template `{!Re.Engine} (lit key : string) :
  Re.has_placeholder lit = false →
  Re.sub_placeholders lit = lit
  ∧ keyword_found lit [(lit, Re.sub_placeholders lit)] false = Ok true
  ∧ (Re.agrees_with_fragment _ → ordinary lit = true →
     keyword_found key [(lit, Re.sub_placeholders lit)] false
     = Ok (Py.startswith key lit)).
Proof.
  intros Hp. rewrite (sub_placeholders_id lit Hp).
  split; [done |]. split.
  - cbn [keyword_found]. by rewrite String.eqb_refl.
  - intros Hagree Hord. cbn [keyword_found].
    destruct (String.eqb_spec key lit) as [->|Hne].
    + f_equal. symmetry. rewrite <- match_literal_items.
      clear. induction lit as [|c lit IH]; [done |].
      simpl. by rewrite Ascii.eqb_refl.
    + destruct (Hagree lit _ (parse_ordinary lit Hord))
        as (regex & -> & Hmatch).
      simpl. rewrite Hmatch, match_literal_items.
      by destruct (Py.startswith key lit).
Qed.

Lemma C8_witness :
  Re.has_placeholder "Given a user" = false
  ∧ Re.sub_placeholders "Given a user" = "Given a user"
  ∧ @keyword_found Re.fragment "Given a user exists"
      [("Given a user", Re.sub_placeholders "Given a user")] false
    = Ok (Py.startswith "Given a user exists" "Given a user").
Proof.
  split; [reflexivity |].
  destruct (@C8_placeholder_free_template Re.fragment "Given a user"
              "Given a user exists" eq_refl) as (Hid & _ & Hprefix).
  split; [exact Hid |].
  apply Hprefix; [exact fragment_agrees | reflexivity].
Defined.

(** ** The world a computation leaves *)

Lemma writes_nothing_ret {A} (a : A) : writes_nothing (mret a : M A).
Proof. intros w. split; [done |]. exists []. simpl. by rewrite app_nil_r. Qed.

Lemma writes_nothing_lift {A} (r : result A) : writes_nothing (lift r).
Proof. intros w. split; [done |]. exists []. simpl. by rewrite app_nil_r. Qed.

Lemma writes_nothing_print (s : string) : writes_nothing (print s).
Proof. intros w. split; [done |]. by exists [s]. Qed.

Lemma writes_nothing_path_exists (fn : string) :
  writes_nothing (path_exists fn).
Proof. intros w. split; [done |]. exists []. simpl. by rewrite app_nil_r. Qed.

Lemma writes_nothing_read_lines (fn : string) : writes_nothing (read_lines fn).
Proof.
  intros w. unfold read_lines.
  destruct (files w !! fn); (split; [done |]);
    exists []; simpl; by rewrite app_nil_r.
Qed.

Lemma writes_nothing_bind {A B} (m : M A) (f : A → M B) :
  writes_nothing m → (∀ a, writes_nothing (f a)) → writes_nothing (m ≫= f).
Proof.
  intros Hm Hf w. unfold mbind, M_bind.
  destruct (Hm w) as (Hfiles & printed & Hout).
  destruct (m w) as [w' [a|e]]; simpl in *.
  - destruct (Hf a w') as (Hfiles' & printed' & Hout').
    split; [congruence |]. exists (printed ++ printed').
    by rewrite Hout', Hout, (assoc_L (++)).
  - split; [done |]. by exists printed.
Qed.

Lemma bind_run {A B} (m : M A) (f : A → M B) (w w' : World) (a : A) :
  m w = (w', Ok a) → (m ≫= f) w = f a w'.
Proof. intros Hm. unfold mbind, M_bind. by rewrite Hm. Qed.

Lemma writes_nothing_when (b : bool) (m : M ()) :
  writes_nothing m → writes_nothing (when b m).
Proof. destruct b; [done | intros _; apply writes_nothing_ret]. Qed.

Section ReconcilerFacts.
Context `{!Localization} `{!Re.Engine} `{!Host}.

Lemma writes_nothing_report_stub (keyword : string) (argument : option string) :
  writes_nothing (report_stub keyword argument).
Proof.
  unfold report_stub.
  apply writes_nothing_bind; [apply writes_nothing_print |]. intros _.
  apply writes_nothing_bind; [| intros _; apply writes_nothing_print].
  destruct argument; [| apply writes_nothing_ret].
  apply writes_nothing_when, writes_nothing_print.
Qed.

Lemma writes_nothing_report_missing (kw : list (string * string))
    (items : registry) :
  writes_nothing (report_missing kw items).
Proof.
  induction items as [|[keyword argument] rest IH];
    [apply writes_nothing_ret |].
  cbn [report_missing].
  apply writes_nothing_bind; [apply writes_nothing_lift |]. intros ff.
  apply writes_nothing_bind; [| by intros _].
  apply writes_nothing_when, writes_nothing_report_stub.
Qed.

Lemma writes_nothing_read_keywords (fn : string) :
  writes_nothing (_read_keywords_from_resource fn).
Proof.
  unfold _read_keywords_from_resource.
  apply writes_nothing_bind; [apply writes_nothing_read_lines |]. intros lines.
  apply writes_nothing_bind; [| intros _; apply writes_nothing_ret].
  apply writes_nothing_when, writes_nothing_print.
Qed.

(** The branch of the existing resource writes no file. *)
Lemma writes_nothing_reconcile (fn sdr : string) (seen : registry) :
  writes_nothing (reconcile fn sdr seen).
Proof.
  unfold reconcile.
  apply writes_nothing_bind;
    [apply writes_nothing_when, writes_nothing_print |]. intros _.
  apply writes_nothing_bind; [apply writes_nothing_read_keywords |]. intros kw.
  apply writes_nothing_bind; [apply writes_nothing_lift |]. intros found.
  apply writes_nothing_when.
  apply writes_nothing_bind; [apply writes_nothing_print |]. intros _.
  apply writes_nothing_bind; [apply writes_nothing_report_missing |].
  intros _. apply writes_nothing_print.
Qed.

Lemma generate_existing (path sdr : string) (seen : registry) (w : World) :
  is_Some (files w !! path_join path sdr) →
  generate_robot_script_resource path sdr seen w
  = ((_ ← reconcile (path_join path sdr) sdr seen;
      when verbose (print (pformat_steps seen))) : M ()) w.
Proof.
  intros Hfile. unfold generate_robot_script_resource.
  unfold mbind at 1, M_bind at 1, path_exists.
  by rewrite bool_decide_eq_true_2.
Qed.

Lemma generate_new (path sdr : string) (seen : registry) (w : World) :
  files w !! path_join path sdr = None →
  generate_robot_script_resource path sdr seen w
  = ((_ ← create_resource (path_join path sdr) sdr seen;
      when verbose (print (pformat_steps seen))) : M ()) w.
Proof.
  intros Hfile. unfold generate_robot_script_resource.
  unfold mbind at 1, M_bind at 1, path_exists.
  rewrite bool_decide_eq_false_2; [done |].
  rewrite Hfile. by intros [? ?].
Qed.

End ReconcilerFacts.

Section Report.
Context `{!Localization} `{!Re.Engine} `{!Host}.

Lemma any_missing_Ok (kw : list (string * string)) (items : registry)
    (found0 found : bool) :
  any_missing kw items found0 = Ok found →
  Forall (λ entry, ∃ ff, keyword_found entry.1 kw false = Ok ff) items
  ∧ found = found0 || existsb (is_missing kw) items.
Proof.
  revert found0. induction items as [|[k v] rest IH]; intros found0 Hany.
  - simpl in Hany. simplify_eq. by rewrite orb_false_r.
  - cbn [any_missing] in Hany.
    destruct (keyword_found k kw false) as [ff|e] eqn:Hk; [| done].
    simpl in Hany. apply IH in Hany as [Hrest ->]. split.
    + constructor; [by exists ff | done].
    + cbn [existsb]. unfold is_missing at 2. simpl. rewrite Hk.
      destruct ff, found0; simpl; try done.
Qed.

Lemma report_stub_run (entry : string * option string) (w : World) :
  report_stub entry.1 entry.2 w
  = ({| files := files w; stdout := stdout w ++ report_lines entry |}, Ok ()).
Proof.
  destruct entry as [k [[|c v]|]]; unfold report_stub, report_lines;
    unfold mbind, M_bind, print, when, mret, M_ret; simpl;
    by rewrite <- ?(assoc_L (++)).
Qed.

Lemma report_missing_run (kw : list (string * string)) (items : registry)
    (w : World) :
  Forall (λ entry, ∃ ff, keyword_found entry.1 kw false = Ok ff) items →
  report_missing kw items w
  = ({| files := files w;
        stdout := stdout w
                  ++ flat_map report_lines (List.filter (is_missing kw) items) |},
     Ok ()).
Proof.
  revert w. induction items as [|[k v] rest IH]; intros w Hall.
  - simpl. rewrite app_nil_r. by destruct w.
  - inversion Hall as [|? ? [ff Hk] Hrest]; subst. simpl in Hk.
    cbn [report_missing List.filter]. unfold is_missing at 1. cbn [fst].
    erewrite bind_run by (unfold lift; rewrite Hk; reflexivity).
    rewrite Hk. destruct ff; simpl.
    + erewrite bind_run by reflexivity. by apply IH.
    + erewrite bind_run by apply (report_stub_run (k, v)).
      rewrite IH by done. simpl. by rewrite <- (assoc_L (++)).
Qed.

(** What a run that is not verbose prints when the resource exists and no
    pattern fails to compile: nothing when every entry is found, and
    otherwise the title, the stub of every missing entry in the order of the
    registry, and an empty line. *)
Lemma reconcile_report (path sdr text : string) (seen : registry) (w : World)
    (found : bool) :
  verbose = false →
  files w !! path_join path sdr = Some text →
  any_missing (read_keywords (Py.readlines text) false []) seen false
  = Ok found →
  found = existsb
            (is_missing (read_keywords (Py.readlines text) false [])) seen
  ∧ generate_robot_script_resource path sdr seen w
    = ({| files := files w;
          stdout :=
            stdout w
            ++ (if found then
                  [newline +:+ "Missing keywords for: " +:+ path_join path sdr
                   +:+ newline]
                  ++ flat_map report_lines
                       (List.filter
                          (is_missing
                             (read_keywords (Py.readlines text) false []))
                          seen)
                  ++ [newline]
                else []) |},
       Ok ()).
Proof.
  intros Hquiet Hfile Hany.
  destruct (any_missing_Ok _ _ _ _ Hany) as [Hall Hfound].
  split; [done |].
  rewrite generate_existing by (by eexists).
  unfold reconcile, _read_keywords_from_resource, read_lines.
  rewrite Hquiet. unfold mbind, M_bind, when, mret, M_ret, lift. simpl.
  rewrite Hfile, Hany. destruct found; simpl.
  - rewrite (report_missing_run _ _ _ Hall). simpl.
    by rewrite <- !(assoc_L (++)).
  - rewrite app_nil_r. by destruct w.
Qed.

End Report.

(** C2: when the resource file exists, [generate_robot_script_resource]
    leaves every file as it is, the resource among them, whether it ends or
    raises: it reads the resource and adds to what is printed, and that is
    all it does. *)
Theorem C2_reconcile_writes_nothing `{!Localization} `{!Re.Engine} `{!Host}
    (path step_definitions_resource : string) (seen : registry) (w : World) :
  is_Some (files w !! path_join path step_definitions_resource) →
  let w' :=
    (generate_robot_script_resource path step_definitions_resource seen w).1 in
  files w' = files w
  ∧ files w' !! path_join path step_definitions_resource
    = files w !! path_join path step_definitions_resource
  ∧ ∃ printed, stdout w' = stdout w ++ printed.
Proof.
  intros Hfile w'. unfold w'. rewrite generate_existing by done.
  destruct (writes_nothing_bind
              (reconcile (path_join path step_definitions_resource)
                 step_definitions_resource seen)
              (λ _, when verbose (print (pformat_steps seen)))
              (writes_nothing_reconcile _ _ _)
              (λ _, writes_nothing_when _ _ (writes_nothing_print _)) w)
    as [Hfiles Hout].
  split; [done |]. split; [by rewrite Hfiles | done].
Qed.

Lemma C2_witness :
  let w' :=
    (@generate_robot_script_resource en Re.fragment quiet_host "out"
       "login_step_definitions.resource" login_registry login_world).1 in
  is_Some (files login_world !! "out/login_step_definitions.resource")
  ∧ files w' = files login_world
  ∧ stdout w'
    = [newline +:+ "Missing keywords for: out/login_step_definitions.resource"
       +:+ newline;
       "Given user Alice logs out";
       "    [Arguments]    @{DataTable}";
       "    Fail    " +:+ not_implemented "Given user Alice logs out";
       newline].
Proof.
  assert (is_Some (files login_world !! "out/login_step_definitions.resource"))
    as Hfile by (vm_compute; by eexists).
  split; [exact Hfile |]. split.
  - apply (@C2_reconcile_writes_nothing en Re.fragment quiet_host "out"
             "login_step_definitions.resource" login_registry login_world
             Hfile).
  - by vm_compute.
Defined.

(** ** A new resource *)

Lemma add_step_registry_ok `{!Localization} (output output' : list Line)
    (seen seen' : registry) (step : Step) :
  add_step output seen step = Ok (output', seen') →
  registry_ok seen → registry_ok seen'.
Proof.
  intros Hadd Hok.
  apply add_step_Ok in Hadd as (lines & arg & Harg & _ & ->).
  destruct (registered _ seen); [done |].
  apply Forall_app_2; [done |]. apply Forall_singleton. simpl.
  apply step_argument_Ok in Harg
    as [(_ & _ & _ & ->)|[(_ & _ & ->)|(_ & _ & _ & ->)]]; done.
Qed.

Lemma add_steps_registry_ok `{!Localization} (steps : list Step)
    (output output' : list Line) (seen seen' : registry) :
  add_steps output seen steps = Ok (output', seen') →
  registry_ok seen → registry_ok seen'.
Proof.
  revert output seen. induction steps as [|step rest IH];
    intros output seen Hadd Hok; simpl in Hadd; [by simplify_eq |].
  destruct (add_step output seen step) as [[o s]|e] eqn:Hstep; [| done].
  simpl in Hadd. eapply IH; [exact Hadd |].
  by eapply add_step_registry_ok.
Qed.

(** The registry of a feature: from the first step on, no entry of
    [seen_steps] has the empty text for its argument variable. *)
Lemma add_steps_to_keywords_registry_ok `{!Localization} (steps : list Step)
    (st st' : State) :
  add_steps_to_keywords steps st = Ok st' →
  registry_ok (seen_steps st) → registry_ok (seen_steps st').
Proof.
  unfold add_steps_to_keywords. intros Hst Hok.
  destruct (add_steps (keywords_lines st) (seen_steps st) steps)
    as [[o s]|e] eqn:Hadd; [| done].
  simpl in Hst. simplify_eq. simpl. by eapply add_steps_registry_ok.
Qed.

Lemma add_steps_to_test_cases_registry_ok `{!Localization}
    (steps : list Step) (st st' : State) :
  add_steps_to_test_cases steps st = Ok st' →
  registry_ok (seen_steps st) → registry_ok (seen_steps st').
Proof.
  unfold add_steps_to_test_cases. intros Hst Hok.
  destruct (add_steps (test_cases_lines st) (seen_steps st) steps)
    as [[o s]|e] eqn:Hadd; [| done].
  simpl in Hst. simplify_eq. simpl. by eapply add_steps_registry_ok.
Qed.

Lemma process_scenario_outline_registry_ok `{!Localization} `{!SetOrder}
    (scenario : Scenario) (st st' : State) :
  process_scenario_outline scenario st = Ok st' →
  registry_ok (seen_steps st) → registry_ok (seen_steps st').
Proof.
  intros Hout Hok.
  destruct (process_examples_inv scenario (outline_variables scenario)
              (sc_examples scenario) None st)
    as [(cases & Hex & _)
       |[(ex & v & _ & _ & _ & Hex)|(e & ex & _ & _ & Hex)]].
  - unfold last_header in Hex.
    destruct (last (sc_examples scenario)) as [example|].
    + rewrite (outline_after_examples _ _ _ _ Hex) in Hout.
      destruct (add_steps_to_keywords _ _) as [st2|e] eqn:Hsteps; [| done].
      simpl in Hout. simplify_eq.
      by apply add_steps_to_keywords_registry_ok in Hsteps.
    + by rewrite (outline_unbound _ _ _ Hex) in Hout.
  - by rewrite (outline_examples_raise _ _ _ Hex) in Hout.
  - by rewrite (outline_examples_raise _ _ _ Hex) in Hout.
Qed.

Lemma process_scenario_plain_registry_ok `{!Localization}
    (scenario : Scenario) (st st' : State) :
  process_scenario_plain scenario st = Ok st' →
  registry_ok (seen_steps st) → registry_ok (seen_steps st').
Proof.
  unfold process_scenario_plain. intros Hst Hok.
  destruct (add_steps_to_test_cases _ _) as [st2|e] eqn:Hsteps; [| done].
  simpl in Hst. simplify_eq.
  apply add_steps_to_test_cases_registry_ok in Hsteps; [done |].
  by repeat case_match.
Qed.

Lemma process_background_registry_ok `{!Localization}
    (background : Background) (st st' : State) :
  process_background background st = Ok st' →
  registry_ok (seen_steps st) → registry_ok (seen_steps st').
Proof.
  unfold process_background. intros Hst Hok.
  destruct (add_steps_to_keywords _ _) as [st2|e] eqn:Hsteps; [| done].
  simpl in Hst. simplify_eq.
  apply add_steps_to_keywords_registry_ok in Hsteps; [done |].
  by repeat case_match.
Qed.

Lemma process_children_registry_ok `{!Localization} `{!SetOrder}
    (children : list Child) (st st' : State) :
  process_children children st = Ok st' →
  registry_ok (seen_steps st) → registry_ok (seen_steps st').
Proof.
  revert st. induction children as [|child rest IH]; intros st Hst Hok;
    cbn [process_children] in Hst; [by simplify_eq |].
  destruct child as [b|sc|keys]; [| | done].
  - destruct (process_background b st) as [st1|e] eqn:Hb; [| done].
    simpl in Hst. eapply IH; [exact Hst |].
    by eapply process_background_registry_ok.
  - destruct (process_scenario sc st) as [st1|e] eqn:Hsc; [| done].
    simpl in Hst. eapply IH; [exact Hst |].
    unfold process_scenario in Hsc. repeat case_match; try done.
    + by eapply process_scenario_plain_registry_ok.
    + by eapply process_scenario_outline_registry_ok.
Qed.

Lemma process_feature_registry_ok `{!Localization} `{!SetOrder}
    (feature : Feature) (st' : State) :
  process_feature feature initial_state = Ok st' →
  registry_ok (seen_steps st').
Proof.
  unfold process_feature. intros Hst.
  apply process_children_registry_ok in Hst; [done |].
  repeat case_match; constructor.
Qed.

Lemma concat_cons (x : string) (l : list string) :
  String.concat "" (x :: l) = x +:+ String.concat "" l.
Proof.
  destruct l as [|y l]; cbn [String.concat]; [by rewrite string_app_nil_r |].
  done.
Qed.

Lemma write_text (s : string) : write_to_script (Text s) = s +:+ newline.
Proof. done. Qed.

Lemma write_fields (a b : string) :
  write_to_script (Fields [""; a; b])
  = FIELD_SEP +:+ a +:+ FIELD_SEP +:+ b +:+ newline.
Proof.
  unfold write_to_script, Py.join. cbn [String.concat].
  change ("" +:+ ?x) with x. by rewrite !string_app_assoc.
Qed.

Lemma stubs_spec `{!Localization} (seen : registry) :
  registry_ok seen → stubs seen = spec_stubs seen.
Proof.
  unfold spec_stubs. induction seen as [|[k v] seen IH]; intros Hok; [done |].
  inversion Hok as [|? ? Hv Hrest]; subst.
  cbn [stubs map]. rewrite (IH Hrest).
  assert (stub k v = spec_stub (k, v)) as ->.
  { unfold stub, spec_stub. rewrite !write_fields, write_text.
    unfold not_implemented. cbn [fst snd].
    destruct v as [[|c v]|]; [done | |]; cbn [Py.truthy_opt Py.truthy default];
      by rewrite !string_app_assoc. }
  by rewrite concat_cons.
Qed.

Section NewResource.
Context `{!Localization} `{!Re.Engine} `{!Host}.

Lemma apply_settings_from_run (candidates : list string) (w : World) :
  ∃ w' settings,
    apply_settings_from candidates w = (w', Ok settings)
    ∧ files w' = files w.
Proof.
  induction candidates as [|fn rest IH]; [by exists w, "" |].
  cbn [apply_settings_from]. unfold mbind at 1, M_bind at 1, path_exists.
  case_bool_decide as Hfn; [| exact IH].
  destruct Hfn as [text Htext].
  unfold mbind, M_bind, when, print, read_lines, mret, M_ret.
  destruct verbose; simpl; rewrite Htext; by do 2 eexists.
Qed.

Lemma create_resource_run (fn sdr : string) (seen : registry) (w : World) :
  ∃ w' settings,
    create_resource fn sdr seen w = (w', Ok ())
    ∧ files w' = <[fn := resource_head settings +:+ stubs seen]> (files w).
Proof.
  unfold create_resource, apply_resource_settings, _apply_settings.
  unfold mbind at 1, M_bind at 1.
  set (w1 := (when verbose (print ("new file " +:+ sdr)) w).1).
  assert (when verbose (print ("new file " +:+ sdr)) w = (w1, Ok ())
          ∧ files w1 = files w) as [-> Hw1]
    by (unfold w1, when; by destruct verbose).
  unfold mbind at 1, M_bind at 1, store at 1.
  unfold mbind at 1, M_bind at 1.
  edestruct apply_settings_from_run as (w2 & settings & -> & Hw2).
  exists {| files := <[fn := resource_head settings +:+ stubs seen]> (files w2);
            stdout := stdout w2 |}, settings.
  split; [done |]. cbn [files]. rewrite Hw2. cbn [files].
  by rewrite insert_insert_eq, Hw1.
Qed.

End NewResource.

(** C6: when the resource file does not exist, [generate_robot_script_resource]
    ends and leaves it with, after the head of the resource, one stub for
    every entry of the registry, in the order of the registry: the text of
    the entry as the name of the keyword, the arguments with the argument
    variable when the entry has one, the line that fails with the message
    that the keyword is not implemented yet, and an empty line.  No other
    file changes. *)
Theorem C6_new_resource_stubs `{!Localization} `{!Re.Engine} `{!Host}
    (path step_definitions_resource : string) (seen : registry) (w : World) :
  files w !! path_join path step_definitions_resource = None →
  registry_ok seen →
  ∃ w' settings,
    generate_robot_script_resource path step_definitions_resource seen w
    = (w', Ok ())
    ∧ files w'
      = <[path_join path step_definitions_resource
          := resource_head settings
             +:+ String.concat "" (map spec_stub seen)]> (files w).
Proof.
  intros Hfile Hok. rewrite generate_new by done.
  unfold mbind, M_bind.
  destruct (create_resource_run (path_join path step_definitions_resource)
              step_definitions_resource seen w) as (w' & settings & -> & Hw').
  rewrite (stubs_spec seen Hok) in Hw'.
  destruct verbose; simpl; eexists _, settings; by split.
Qed.

Lemma C6_witness :
  ∃ st w' head,
    @process_scenario_plain en login_scenario initial_state = Ok st
    ∧ seen_steps st = [("a user exists", None); ("the user logs in", None)]
    ∧ @generate_robot_script_resource en Re.fragment quiet_host "out"
        "login_step_definitions.resource" (seen_steps st) empty_world
      = (w', Ok ())
    ∧ files w' !! "out/login_step_definitions.resource"
      = Some (head
              +:+ "a user exists" +:+ newline
              +:+ "    Fail    " +:+ not_implemented "a user exists"
              +:+ newline +:+ newline
              +:+ "the user logs in" +:+ newline
              +:+ "    Fail    " +:+ not_implemented "the user logs in"
              +:+ newline +:+ newline).
Proof.
  eexists.
  destruct (@C6_new_resource_stubs en Re.fragment quiet_host "out"
              "login_step_definitions.resource"
              [("a user exists", None); ("the user logs in", None)]
              empty_world eq_refl)
    as (w' & settings & Hrun & Hfiles).
  { repeat constructor; discriminate. }
  exists w', (@resource_head en quiet_host settings).
  split; [by vm_compute |]. split; [reflexivity |].
  split; [exact Hrun |].
  rewrite Hfiles. rewrite lookup_insert_eq. reflexivity.
Defined.

(** * Further properties *)

Lemma read_header_last (header_cells : list Cell) (hc hc' : gmap string nat)
    (h h' : list string) :
  read_header header_cells hc h (length h) = (hc', h') →
  (∀ a i, hc !! a = Some i ↔ last_position h a i) →
  ∀ a i, hc' !! a = Some i ↔ last_position h' a i.
Proof.
  revert hc h. induction header_cells as [|c cs IH]; intros hc h Hr Hinv.
  - simpl in Hr. by simplify_eq.
  - cbn [read_header] in Hr.
    replace (S (length h)) with (length (h ++ [value c])) in Hr
      by (rewrite length_app; simpl; lia).
    apply (IH _ _ Hr). intros a i. unfold last_position.
    destruct (decide (a = value c)) as [->|Hne].
    + rewrite lookup_insert_eq. split.
      * intros [= <-]. split; [by rewrite lookup_app_r, Nat.sub_diag |].
        intros k Hk. rewrite lookup_ge_None_2; [done |].
        rewrite length_app. simpl. lia.
      * intros [Hi Hlast]. f_equal.
        destruct (decide (i = length h)) as [|Hne]; [done |].
        destruct (Hlast (length h)); [| by rewrite lookup_app_r, Nat.sub_diag].
        apply lookup_lt_Some in Hi. rewrite length_app in Hi. simpl in Hi. lia.
    + rewrite lookup_insert_ne by done. rewrite Hinv. unfold last_position.
      split.
      * intros [Hi Hlast]. split; [by apply lookup_app_l_Some |].
        intros k Hk Hka. apply lookup_app_Some in Hka as [Hka|[_ Hka]].
        -- by apply (Hlast k).
        -- apply list_lookup_singleton_Some in Hka as [_ ?]. done.
      * intros [Hi Hlast].
        apply lookup_app_Some in Hi as [Hi|[_ Hi]].
        -- split; [done |]. intros k Hk Hka. apply (Hlast k Hk).
           by apply lookup_app_l_Some.
        -- apply list_lookup_singleton_Some in Hi as [_ ?]. done.
Qed.

Lemma read_header_example_last (example : Examples) :
  ∃ hc,
    read_header (cells (tableHeader example)) ∅ [] 0
    = (hc, example_header example)
    ∧ ∀ a i, hc !! a = Some i ↔ last_position (example_header example) a i.
Proof.
  destruct (read_header_example example) as (hc & Hr & _).
  exists hc. split; [done |].
  apply (read_header_last _ ∅ hc [] _ Hr).
  intros a i. unfold last_position. rewrite lookup_empty, lookup_nil.
  split; [done | by intros [? _]].
Qed.

Lemma row_args_picked (hc : gmap string nat) (r : TableRow)
    (header : list string) (res : result (list string)) :
  row_args hc r header = res →
  (∃ args, res = Ok args ∧ Forall2 (λ a x, picked hc r a = Some x) header args)
  ∨ (∃ a i, a ∈ header ∧ hc !! a = Some i ∧ length (cells r) ≤ i
            ∧ res = Raise IndexError)
  ∨ (∃ a, a ∈ header ∧ hc !! a = None ∧ res = Raise (KeyError a)).
Proof.
  revert res. induction header as [|a hs IH]; intros res <-.
  - left. exists []. by split.
  - cbn [row_args]. unfold picked at 1.
    destruct (hc !! a) as [i|] eqn:Ha; simpl.
    2:{ right; right. exists a. split; [left | done]. }
    destruct (cells r !! i) as [c|] eqn:Hc; simpl.
    2:{ right; left. exists a, i. split; [left |]. split; [done |].
        split; [by apply lookup_ge_None | done]. }
    destruct (IH _ eq_refl)
      as [(args & -> & Hargs)|[(b & j & Hb & Hj & Hlen & ->)|(b & Hb & Hn & ->)]];
      simpl.
    + left. eexists. split; [done |]. constructor; [| done].
      unfold picked. rewrite Ha. simpl. by rewrite Hc.
    + right; left. exists b, j. split; [by right | done].
    + right; right. exists b. split; [by right | done].
Qed.

Lemma header_of_lookup (example : Examples) (hc : gmap string nat) :
  header_of example hc →
  (∀ a i, hc !! a = Some i ↔ last_position (example_header example) a i)
  ∧ (∀ a, a ∈ example_header example → is_Some (hc !! a)).
Proof.
  intros Hhc.
  destruct (read_header_example_last example) as (hc1 & H1 & Hlast).
  destruct (read_header_example example) as (hc2 & H2 & Hdom).
  unfold header_of in Hhc. rewrite Hhc in H1, H2. simplify_eq.
  split; [done |]. intros a Ha. destruct (Hdom a Ha) as (i & -> & _). by eexists.
Qed.

Lemma row_args_fit (example : Examples) (hc : gmap string nat) (r : TableRow)
    (l : list string) :
  header_of example hc →
  length (example_header example) ≤ length (cells r) →
  l ⊆ example_header example →
  row_args hc r l = Ok (map (λ a, default "" (picked hc r a)) l).
Proof.
  intros Hhc Hfit. destruct (header_of_lookup _ _ Hhc) as [Hlast Hdom].
  induction l as [|a l IH]; intros Hsub; [done |].
  cbn [row_args map].
  destruct (Hdom a) as [i Hi]; [apply Hsub; left |].
  unfold picked at 1. rewrite Hi. simpl.
  apply Hlast in Hi as Hpos. destruct Hpos as [Hpos _].
  apply lookup_lt_Some in Hpos.
  destruct (lookup_lt_is_Some_2 (cells r) i) as [c Hc]; [lia |].
  rewrite Hc. simpl. rewrite IH; [done |].
  intros x Hx. apply Hsub. by right.
Qed.

Lemma row_args_narrow (example : Examples) (hc : gmap string nat)
    (r : TableRow) :
  header_of example hc →
  length (cells r) < length (example_header example) →
  row_args hc r (example_header example) = Raise IndexError.
Proof.
  intros Hhc Hnarrow. destruct (header_of_lookup _ _ Hhc) as [Hlast Hdom].
  destruct (row_args_picked hc r (example_header example) _ eq_refl)
    as [(args & _ & Hargs)|[(a & i & _ & _ & _ & ->)|(a & Ha & Hn & _)]];
    [| done |].
  - (* the last column of the header is read *)
    destruct (example_header example) as [|x xs] eqn:Hh using rev_ind;
      [simpl in Hnarrow; lia |].
    clear IHxs. rewrite length_app in Hnarrow. simpl in Hnarrow.
    assert (hc !! x = Some (length xs)) as Hx.
    { apply Hlast. split; [by rewrite lookup_app_r, Nat.sub_diag |].
      intros k Hk. rewrite lookup_ge_None_2; [done |].
      rewrite length_app. simpl. lia. }
    apply Forall2_app_inv_l in Hargs as (a1 & a2 & _ & Hlastarg & _).
    inversion Hlastarg as [|? v ? ? Hv _]; subst.
    unfold picked in Hv. rewrite Hx in Hv. simpl in Hv.
    destruct (cells r !! length xs) as [c|] eqn:Hc; [| done].
    apply lookup_lt_Some in Hc. lia.
  - destruct (Hdom a Ha) as [i Hi]. congruence.
Qed.

(** The loop over the rows of a block: every row gives its line when the
    rows are as wide as the header, and [IndexError] is raised at the first
    row that is not. *)
Lemma add_rows_cases (example : Examples) (hc : gmap string nat)
    (body : list TableRow) (st : State) :
  header_of example hc →
  (Forall (λ r, length (example_header example) ≤ length (cells r)) body
   ∧ add_rows hc (example_header example) body st
     = Ok (append_test_cases
             (map (row_line hc (example_header example)) body) st))
  ∨ (¬ Forall (λ r, length (example_header example) ≤ length (cells r)) body
     ∧ add_rows hc (example_header example) body st = Raise IndexError).
Proof.
  intros Hhc. revert st. induction body as [|r rs IH]; intros st.
  - left. split; [done |]. simpl. by rewrite append_test_cases_nil.
  - cbn [add_rows].
    destruct (decide (length (example_header example) ≤ length (cells r)))
      as [Hfit|Hnarrow].
    + rewrite (row_args_fit example hc r _ Hhc Hfit) by done. simpl.
      destruct (IH (append_test_cases
                      [Fields ("" :: map make_empty
                                       (map (λ a, default "" (picked hc r a))
                                            (example_header example)))] st))
        as [[Hall ->]|[Hnot ->]].
      * left. split; [by constructor |].
        rewrite append_test_cases_app. do 2 f_equal. simpl. unfold row_line.
        by rewrite map_map.
      * right. split; [| done]. intros Hall. apply Hnot.
        by inversion Hall.
    + right. rewrite (row_args_narrow example hc r Hhc) by lia.
      split; [| done]. intros Hall. by inversion Hall.
Qed.

(** [process_example] as its three steps: the header, the check of the
    variables, and the rows after the lines that come before them. *)
Lemma process_example_steps `{!Localization} (scenario : Scenario)
    (variables : list string) (example : Examples) (st : State)
    (hc : gmap string nat) :
  header_of example hc →
  process_example scenario variables example st
  = (_ ← check_variables example (example_header example) variables;
     st' ← add_rows hc (example_header example) (tableBody example)
             (append_test_cases (example_preamble scenario example) st);
     Ok (append_test_cases [Text ""] st', example_header example)).
Proof.
  intros Hhc. unfold process_example. rewrite Hhc.
  set (st1 := append_test_cases _ _).
  assert (st1 = append_test_cases (example_preamble scenario example) st)
    as ->; [| done].
  unfold st1, example_preamble, _add_test_case_documentation, process_tags.
  destruct (ex_description example), (sc_tags scenario ++ ex_tags example);
    rewrite ?append_test_cases_app, ?append_test_cases_nil; simpl; try done.
  all: by rewrite <- ?(append_test_cases_app []), append_test_cases_nil.
Qed.

Lemma header_of_exists (example : Examples) : ∃ hc, header_of example hc.
Proof. destruct (read_header_example example) as (hc & Hhc & _). by exists hc. Qed.

(** What [process_example] returns, by the header and the rows of the block. *)
Lemma process_example_result `{!Localization} (scenario : Scenario)
    (variables : list string) (example : Examples) (st : State)
    (hc : gmap string nat) :
  header_of example hc →
  (∀ v, v ∈ variables → v ∈ example_header example) →
  (rows_fit example
   ∧ process_example scenario variables example st
     = Ok (append_test_cases
             (example_preamble scenario example
              ++ map (row_line hc (example_header example)) (tableBody example)
              ++ [Text ""]) st,
           example_header example))
  ∨ (¬ rows_fit example
     ∧ process_example scenario variables example st = Raise IndexError).
Proof.
  intros Hhc Hvars. rewrite (process_example_steps _ _ _ _ _ Hhc).
  rewrite check_variables_Ok by done. simpl.
  destruct (add_rows_cases example hc (tableBody example)
              (append_test_cases (example_preamble scenario example) st) Hhc)
    as [[Hfit ->]|[Hnot ->]]; [left | by right].
  split; [done |]. simpl. by rewrite !append_test_cases_app.
Qed.

Lemma make_empty_nonempty (x : string) : make_empty x ≠ "".
Proof. unfold make_empty. by destruct (String.eqb_spec x ""). Qed.

Lemma row_line_field (example : Examples) (hc : gmap string nat)
    (r : TableRow) (i j : nat) (a : string) (c : Cell) :
  header_of example hc →
  example_header example !! i = Some a →
  last_position (example_header example) a j →
  cells r !! j = Some c →
  ∃ fs, row_line hc (example_header example) r = Fields ("" :: fs)
        ∧ fs !! i = Some (make_empty (value c)).
Proof.
  intros Hhc Hi Hj Hc. destruct (header_of_lookup _ _ Hhc) as [Hlast _].
  eexists. split; [done |].
  rewrite list_lookup_fmap, Hi. simpl. unfold picked.
  apply Hlast in Hj. rewrite Hj. simpl. by rewrite Hc.
Qed.

Lemma NoDup_last_position (l : list string) (a : string) (i : nat) :
  NoDup l → l !! i = Some a → last_position l a i.
Proof.
  intros Hnd Hi. split; [done |]. intros k Hk Hka.
  pose proof (NoDup_lookup l i k a Hnd Hi Hka). lia.
Qed.

Lemma header_of_col (example : Examples) :
  header_of example (header_col_of example).
Proof.
  destruct (header_of_exists example) as [hc Hhc].
  unfold header_col_of. unfold header_of in *. by rewrite Hhc.
Qed.

(** X1: when [process_example] returns, it has added to the test cases the
    lines before the rows, one line for every row of the block and an empty
    line.  The line of a row has, after the empty field, one field for every
    column of the header, and none of them is empty: the field of a column is
    the value, with [${EMPTY}] for the empty text, of the cell of the row at
    the last column of the header that has this name. *)
Theorem X1_row_fields `{!Localization} (scenario : Scenario)
    (variables : list string) (example : Examples) (st st' : State)
    (h : list string) :
  process_example scenario variables example st = Ok (st', h) →
  ∃ data,
    test_cases_lines st'
    = test_cases_lines st ++ example_preamble scenario example ++ data
      ++ [Text ""]
    ∧ length data = length (tableBody example)
    ∧ ∀ n r, tableBody example !! n = Some r →
        ∃ fs, data !! n = Some (Fields ("" :: fs))
              ∧ length fs = length (example_header example)
              ∧ ¬ ("" ∈ fs)
              ∧ ∀ i a j c,
                  example_header example !! i = Some a →
                  last_position (example_header example) a j →
                  cells r !! j = Some c →
                  fs !! i = Some (make_empty (value c)).
Proof.
  intros Hex. pose proof (header_of_col example) as Hhc.
  assert (∀ v, v ∈ variables → v ∈ example_header example) as Hvars.
  { destruct (process_example_inv scenario variables example st)
      as [(d & _ & Hv & _)|[(v & _ & _ & Hr)|(e & Hr & _)]];
      [done | congruence | congruence]. }
  destruct (process_example_result scenario variables example st _ Hhc Hvars)
    as [[Hfit Hr]|[_ Hr]]; [| congruence].
  rewrite Hr in Hex. simplify_eq.
  exists (map (row_line (header_col_of example) (example_header example))
              (tableBody example)).
  split; [done |].
  split; [by rewrite length_map |].
  intros n r Hn. eexists. rewrite list_lookup_fmap, Hn.
  split; [done |]. split; [by rewrite !length_map |]. split.
  - intros (a & Ha & _)%list_elem_of_fmap. symmetry in Ha.
    by apply make_empty_nonempty in Ha.
  - intros i a j c Hi Hj Hc.
    destruct (row_line_field example _ r i j a c Hhc Hi Hj Hc) as (fs & Hfs & Hf).
    unfold row_line in Hfs. injection Hfs as <-. exact Hf.
Qed.

Lemma X1_witness :
  ∃ st' h data,
    @process_example en outline_3_2 ["balance"; "amount"] examples_small
      initial_state = Ok (st', h)
    ∧ test_cases_lines st'
      = [] ++ @example_preamble en outline_3_2 examples_small ++ data
        ++ [Text ""]
    ∧ length data = 3.
Proof.
  destruct (@process_example en outline_3_2 ["balance"; "amount"]
              examples_small initial_state) as [[st' h]|e] eqn:Hex;
    [| by vm_compute in Hex].
  destruct (@X1_row_fields en outline_3_2 ["balance"; "amount"]
              examples_small initial_state st' h Hex)
    as (data & Hlines & Hlen & _).
  exists st', h, data. split; [reflexivity |]. split; [exact Hlines | exact Hlen].
Defined.

(** X2: for a block whose header has a column for every variable,
    [process_example] returns exactly when every row of the block has at
    least as many cells as the header has columns, and raises [IndexError]
    otherwise; when the names of the columns are distinct, the line of a row
    that has as many cells as the header is the values of its cells in their
    order, with [${EMPTY}] for an empty one. *)
Theorem X2_rows_as_wide_as_header `{!Localization} (scenario : Scenario)
    (variables : list string) (example : Examples) (st : State) :
  (∀ v, v ∈ variables → v ∈ example_header example) →
  (rows_fit example →
   process_example scenario variables example st
   = Ok (append_test_cases (example_lines scenario example) st,
         example_header example))
  ∧ (¬ rows_fit example →
     process_example scenario variables example st = Raise IndexError)
  ∧ (NoDup (example_header example) →
     ∀ r, length (cells r) = length (example_header example) →
          row_line (header_col_of example) (example_header example) r
          = Fields ("" :: map (λ c, make_empty (value c)) (cells r))).
Proof.
  intros Hvars. pose proof (header_of_col example) as Hhc.
  split; [| split].
  - intros Hfit.
    by destruct (process_example_result scenario variables example st _ Hhc
                   Hvars) as [[_ Hr]|[Hnot _]].
  - intros Hnot.
    by destruct (process_example_result scenario variables example st _ Hhc
                   Hvars) as [[Hfit _]|[_ Hr]].
  - intros Hnd r Hlen. unfold row_line. do 2 f_equal.
    apply list_eq. intros i. rewrite !list_lookup_fmap.
    destruct (example_header example !! i) as [a|] eqn:Hi; simpl.
    + destruct (lookup_lt_is_Some_2 (cells r) i) as [c Hc];
        [apply lookup_lt_Some in Hi; lia |].
      rewrite Hc. simpl. f_equal. f_equal.
      destruct (header_of_lookup _ _ Hhc) as [Hlast _].
      unfold picked.
      rewrite (proj2 (Hlast a i) (NoDup_last_position _ _ _ Hnd Hi)).
      simpl. by rewrite Hc.
    + apply lookup_ge_None in Hi. rewrite lookup_ge_None_2; [done | lia].
Qed.

Lemma X2_witness :
  @process_example en outline_3_2 ["balance"; "amount"] examples_small
    initial_state
  = Ok (append_test_cases
          [Fields [""; "[Template]"; "Scenario Outline Withdraw"];
           Fields [""; "10"; "1"]; Fields [""; "20"; "2"];
           Fields [""; "30"; "${EMPTY}"]; Text ""] initial_state,
        ["balance"; "amount"])
  ∧ @process_example en outline_3_2 ["balance"]
      {| ex_name := "short"; ex_line := 3; ex_description := None;
         ex_tags := []; tableHeader := row ["balance"; "amount"];
         tableBody := [row ["10"]] |} initial_state
    = Raise IndexError.
Proof.
  split.
  - destruct (@X2_rows_as_wide_as_header en outline_3_2 ["balance"; "amount"]
                examples_small initial_state) as (Hfit & _ & _).
    + intros v Hv. vm_compute. exact Hv.
    + apply Hfit.
      repeat first [apply Forall_cons; split | apply Forall_nil];
        vm_compute; lia.
  - destruct (@X2_rows_as_wide_as_header en outline_3_2 ["balance"]
                {| ex_name := "short"; ex_line := 3; ex_description := None;
                   ex_tags := []; tableHeader := row ["balance"; "amount"];
                   tableBody := [row ["10"]] |} initial_state)
      as (_ & Hnarrow & _).
    + intros v Hv. apply list_elem_of_singleton in Hv as ->. vm_compute.
      apply list_elem_of_here.
    + apply Hnarrow. intros Hfit.
      apply Forall_cons in Hfit as [Hfit _]. vm_compute in Hfit. lia.
Defined.

(** ** What a function adds does not depend on what is there *)

Lemma step_argument_frame (output : list Line) (step : Step) :
  step_argument output step
  = ('(new, argument) ← step_argument [] step; Ok (output ++ new, argument)).
Proof.
  unfold step_argument.
  destruct (docString step) as [d|], (dataTable step) as [t|]; simpl;
    rewrite ?app_nil_r; try done.
  - by rewrite <- !(assoc_L (++)).
  - by rewrite <- !(assoc_L (++)).
  - unfold process_datatable, generate_datatable_as_list_of_dict.
    destruct (process_datatable_rows (rows t)) as [|h body]; simpl; [done |].
    by rewrite <- !(assoc_L (++)).
Qed.

Lemma step_argument_variable (output output' : list Line) (step : Step)
    (argument : option string) :
  step_argument output step = Ok (output', argument) →
  argument = argument_variable step.
Proof.
  unfold step_argument, argument_variable.
  destruct (docString step) as [d|], (dataTable step) as [t|]; simpl;
    try (by intros [= _ <-]).
  unfold process_datatable, generate_datatable_as_list_of_dict.
  destruct (process_datatable_rows (rows t)); simpl; [done |].
  by intros [= _ <-].
Qed.

Lemma add_step_frame `{!Localization} (output : list Line) (seen : registry)
    (step : Step) :
  add_step output seen step
  = ('(new, _) ← add_step [] [] step; Ok (output ++ new, register seen step)).
Proof.
  unfold add_step, register, step_key.
  destruct (String.eqb (step_keyword step) "* ");
    rewrite (step_argument_frame output);
    destruct (step_argument [] step) as [[new argument]|e] eqn:Harg; simpl;
    try done;
    rewrite (step_argument_variable _ _ _ _ Harg);
    destruct (registered _ seen), (Py.truthy_opt (argument_variable step));
    simpl; by rewrite <- ?(assoc_L (++)).
Qed.

Lemma add_steps_frame `{!Localization} (steps : list Step)
    (output : list Line) (seen : registry) :
  add_steps output seen steps
  = ('(new, _) ← add_steps [] [] steps;
     Ok (output ++ new, fold_left register steps seen)).
Proof.
  revert output seen. induction steps as [|step steps IH]; intros output seen.
  - simpl. by rewrite app_nil_r.
  - cbn [add_steps fold_left]. rewrite (add_step_frame output seen).
    destruct (add_step [] [] step) as [[n1 s1]|e]; simpl; [| done].
    rewrite (IH (output ++ n1)), (IH n1 s1).
    destruct (add_steps [] [] steps) as [[n2 s2]|e]; simpl; [| done].
    by rewrite <- !(assoc_L (++)).
Qed.

Lemma state_eq (st1 st2 : State) :
  settings_lines st1 = settings_lines st2 →
  test_cases_lines st1 = test_cases_lines st2 →
  keywords_lines st1 = keywords_lines st2 →
  seen_steps st1 = seen_steps st2 →
  background_available st1 = background_available st2 →
  st1 = st2.
Proof. destruct st1, st2. simpl. congruence. Qed.

Ltac solve_state_eq :=
  apply state_eq; simpl;
  rewrite ?app_nil_r;
  repeat (progress (rewrite <- ?app_comm_cons, <- ?(assoc_L (++))));
  try done.

Lemma add_steps_to_test_cases_eq `{!Localization} (steps : list Step)
    (st : State) :
  add_steps_to_test_cases steps st
  = ('(new, _) ← add_steps [] [] steps;
     Ok (set_seen_steps (fold_left register steps (seen_steps st))
           (append_test_cases new st))).
Proof.
  unfold add_steps_to_test_cases. rewrite add_steps_frame.
  by destruct (add_steps [] [] steps) as [[new s]|e].
Qed.

Lemma add_steps_to_keywords_eq `{!Localization} (steps : list Step)
    (st : State) :
  add_steps_to_keywords steps st
  = ('(new, _) ← add_steps [] [] steps;
     Ok (set_seen_steps (fold_left register steps (seen_steps st))
           (append_keywords new st))).
Proof.
  unfold add_steps_to_keywords. rewrite add_steps_frame.
  by destruct (add_steps [] [] steps) as [[new s]|e].
Qed.

(** A plain scenario: its head, the lines of its steps and an empty line go
    to the test cases, and its steps to the registry. *)
Lemma process_scenario_plain_eq `{!Localization} (scenario : Scenario)
    (st : State) :
  process_scenario_plain scenario st
  = ('(body, _) ← add_steps [] [] (sc_steps scenario);
     Ok (set_seen_steps (fold_left register (sc_steps scenario) (seen_steps st))
           (append_test_cases (plain_head scenario st ++ body ++ [Text ""])
              st))).
Proof.
  unfold process_scenario_plain. rewrite add_steps_to_test_cases_eq.
  destruct (add_steps [] [] (sc_steps scenario)) as [[body s]|e]; simpl;
    [| done].
  f_equal. unfold plain_head, background_call, _add_test_case_documentation,
    process_tags.
  destruct (sc_description scenario), (sc_tags scenario),
    (background_available st) eqn:Hb; simpl; rewrite ?Hb; solve_state_eq.
Qed.

Lemma process_background_eq `{!Localization} (background : Background)
    (st : State) :
  process_background background st
  = ('(body, _) ← add_steps [] [] (bg_steps background);
     Ok (set_seen_steps
           (fold_left register (bg_steps background) (seen_steps st))
           (append_keywords (background_head background ++ body ++ [Text ""])
              (set_background_available true st)))).
Proof.
  unfold process_background. rewrite add_steps_to_keywords_eq.
  destruct (add_steps [] [] (bg_steps background)) as [[body s]|e]; simpl;
    [| by destruct (Py.truthy (bg_name background))].
  f_equal. unfold background_head.
  destruct (Py.truthy (bg_name background)); simpl; solve_state_eq.
Qed.

Lemma add_rows_frame (hc : gmap string nat) (header : list string)
    (body : list TableRow) (st : State) :
  add_rows hc header body st
  = (d ← add_rows hc header body initial_state;
     Ok (append_test_cases (test_cases_lines d) st)).
Proof.
  revert st. induction body as [|r rs IH]; intros st.
  - simpl. by rewrite append_test_cases_nil.
  - cbn [add_rows]. destruct (row_args hc r header) as [args|e]; simpl;
      [| done].
    rewrite IH. rewrite (IH (append_test_cases _ initial_state)).
    destruct (add_rows hc header rs initial_state) as [d|e]; simpl; [| done].
    f_equal. solve_state_eq.
Qed.

Lemma process_example_frame `{!Localization} (scenario : Scenario)
    (variables : list string) (example : Examples) (st : State) :
  process_example scenario variables example st
  = ('(d, h) ← process_example scenario variables example initial_state;
     Ok (append_test_cases (test_cases_lines d) st, h)).
Proof.
  rewrite !(process_example_steps _ _ _ _ _ (header_of_col example)).
  destruct (check_variables example (example_header example) variables);
    simpl; [| done].
  rewrite add_rows_frame.
  rewrite (add_rows_frame _ _ _ (append_test_cases _ initial_state)).
  destruct (add_rows _ _ (tableBody example) initial_state) as [d|e]; simpl;
    [| done].
  f_equal. f_equal. solve_state_eq.
Qed.

Lemma process_examples_frame `{!Localization} (scenario : Scenario)
    (variables : list string) (examples : list Examples)
    (header : option (list string)) (st : State) :
  process_examples scenario variables examples header st
  = ('(d, h) ← process_examples scenario variables examples header
                 initial_state;
     Ok (append_test_cases (test_cases_lines d) st, h)).
Proof.
  revert header st. induction examples as [|example rest IH];
    intros header st.
  - simpl. by rewrite append_test_cases_nil.
  - cbn [process_examples]. rewrite process_example_frame.
    destruct (process_example scenario variables example initial_state)
      as [[d h]|e]; simpl; [| done].
    rewrite IH. rewrite (IH _ d).
    destruct (process_examples scenario variables rest (Some h) initial_state)
      as [[d' h']|e]; simpl; [| done].
    f_equal. f_equal. solve_state_eq.
Qed.

(** An outline: the lines of its example blocks go to the test cases; the
    keyword, with the call of the background and the lines of the steps, to
    the keywords; its steps to the registry. *)
Lemma process_scenario_outline_eq `{!Localization} `{!SetOrder}
    (scenario : Scenario) (st : State) :
  process_scenario_outline scenario st
  = ('(d, header) ← process_examples scenario (outline_variables scenario)
                      (sc_examples scenario) None initial_state;
     h ← match header with
         | Some h => Ok h
         | None => Raise (UnboundLocalError "header")
         end;
     '(body, _) ← add_steps [] [] (sc_steps scenario);
     Ok (set_seen_steps
           (fold_left register (sc_steps scenario) (seen_steps st))
           (append_keywords
              (keyword_head scenario h ++ background_call st ++ body
               ++ [Text ""])
              (append_test_cases (test_cases_lines d) st)))).
Proof.
  destruct (process_examples scenario (outline_variables scenario)
              (sc_examples scenario) None st) as [[st1 header]|e] eqn:Hex.
  2:{ rewrite (outline_examples_raise _ _ _ Hex).
      rewrite process_examples_frame in Hex.
      by destruct (process_examples scenario _ _ None initial_state)
        as [[d h]|e']; simpl in *; simplify_eq. }
  rewrite process_examples_frame in Hex.
  destruct (process_examples scenario _ _ None initial_state)
    as [[d h]|e'] eqn:Hd; simpl in *; [| done].
  injection Hex as <- <-.
  assert (process_examples scenario (outline_variables scenario)
            (sc_examples scenario) None st
          = Ok (append_test_cases (test_cases_lines d) st, h)) as Hst.
  { rewrite process_examples_frame, Hd. done. }
  destruct h as [h|]; simpl.
  2:{ by rewrite (outline_unbound _ _ _ Hst). }
  rewrite (outline_after_examples _ _ _ _ Hst), add_steps_to_keywords_eq.
  destruct (add_steps [] [] (sc_steps scenario)) as [[body s]|e]; simpl;
    [| done].
  f_equal. unfold background_call. simpl. solve_state_eq.
Qed.

Lemma process_scenario_plain_frame `{!Localization} (scenario : Scenario)
    (st : State) :
  process_scenario_plain scenario st
  = (d ← process_scenario_plain scenario (blank (background_available st));
     Ok (extend st d (sc_steps scenario))).
Proof.
  rewrite !process_scenario_plain_eq.
  destruct (add_steps [] [] (sc_steps scenario)) as [[body s]|e]; simpl;
    [| done].
  f_equal. unfold plain_head, background_call. simpl. solve_state_eq.
Qed.

Lemma process_background_frame `{!Localization} (background : Background)
    (st : State) :
  process_background background st
  = (d ← process_background background (blank (background_available st));
     Ok (extend st d (bg_steps background))).
Proof.
  rewrite !process_background_eq.
  destruct (add_steps [] [] (bg_steps background)) as [[body s]|e]; simpl;
    [| done].
  f_equal. solve_state_eq.
Qed.

Lemma process_scenario_outline_frame `{!Localization} `{!SetOrder}
    (scenario : Scenario) (st : State) :
  process_scenario_outline scenario st
  = (d ← process_scenario_outline scenario
           (blank (background_available st));
     Ok (extend st d (sc_steps scenario))).
Proof.
  rewrite !process_scenario_outline_eq.
  destruct (process_examples scenario _ _ None initial_state)
    as [[d [h|]]|e]; simpl; [| done | done].
  by destruct (add_steps [] [] (sc_steps scenario)) as [[body s]|e].
Qed.

Lemma process_scenario_frame `{!Localization} `{!SetOrder}
    (scenario : Scenario) (st : State) :
  process_scenario scenario st
  = (d ← process_scenario scenario (blank (background_available st));
     Ok (extend st d (sc_steps scenario))).
Proof.
  unfold process_scenario.
  destruct (Py.mem (sc_keyword scenario) _);
    [apply process_scenario_plain_frame |].
  destruct (Py.mem (sc_keyword scenario) _);
    [apply process_scenario_outline_frame | done].
Qed.

Lemma extend_extend (st d1 d2 : State) (s1 s2 : list Step) :
  extend (extend st d1 s1) d2 s2 = extend st (extend d1 d2 s2) (s1 ++ s2).
Proof. unfold extend. solve_state_eq. by rewrite fold_left_app. Qed.

(** The children of a feature: what they add to the test cases and to the
    keywords depends on the state they start from by [background_available]
    only; the settings stay, and the steps go to the registry in the order of
    the document. *)
Lemma process_children_frame `{!Localization} `{!SetOrder}
    (children : list Child) (st : State) :
  process_children children st
  = (d ← process_children children (blank (background_available st));
     Ok (extend st d (concat (map child_steps children)))).
Proof.
  revert st. induction children as [|child rest IH]; intros st.
  - simpl. f_equal. solve_state_eq.
  - cbn [process_children map concat].
    assert (∀ m : State → result State, ∀ steps,
              (∀ st, m st = (d ← m (blank (background_available st));
                             Ok (extend st d steps))) →
              (st1 ← m st; process_children rest st1)
              = (d ← (st1 ← m (blank (background_available st));
                      process_children rest st1);
                 Ok (extend st d (steps ++ concat (map child_steps rest)))))
      as Hstep.
    { intros m steps Hm. rewrite (Hm st).
      destruct (m (blank (background_available st))) as [d1|e]; simpl;
        [| done].
      rewrite IH. rewrite (IH d1). simpl.
      destruct (process_children rest (blank (background_available d1)))
        as [d2|e]; simpl; [| done].
      by rewrite extend_extend. }
    destruct child as [b|s|keys].
    + apply (Hstep (process_background b)). apply process_background_frame.
    + apply (Hstep (process_scenario s)). apply process_scenario_frame.
    + done.
Qed.

(** ** The registry of a feature *)

Lemma fold_register (steps : list Step) (seen : registry) :
  fold_left register steps seen = seen ++ new_entries (seen.*1) steps.
Proof.
  revert seen. induction steps as [|step rest IH]; intros seen.
  - simpl. by rewrite app_nil_r.
  - cbn [fold_left new_entries]. rewrite IH. unfold register, registered.
    destruct (Py.mem (step_key step) (seen.*1)); [done |].
    rewrite fmap_app. simpl. by rewrite <- (assoc_L (++)).
Qed.

Lemma new_entries_elem (steps : list Step) (have : list string)
    (k : string) (v : option string) :
  (k, v) ∈ new_entries have steps
  ↔ (k ∉ have)
    ∧ ∃ pre step post,
        steps = pre ++ step :: post ∧ step_key step = k
        ∧ (k ∉ map step_key pre) ∧ v = argument_variable step.
Proof.
  revert have. induction steps as [|s r IH]; intros have.
  - simpl. split; [by intros ?%elem_of_nil |].
    intros (_ & pre & step & post & Heq & _). by destruct pre.
  - cbn [new_entries]. unfold Py.mem. case_bool_decide as Hin.
    + rewrite IH. split.
      * intros (Hk & pre & step & post & -> & <- & Hpre & ->).
        split; [done |]. exists (s :: pre), step, post.
        split; [done |]. split; [done |]. split; [| done].
        simpl. intros [Heq|?]%elem_of_cons; [| done]. by rewrite Heq in Hk.
      * intros (Hk & pre & step & post & Heq & <- & Hpre & ->).
        split; [done |]. destruct pre as [|s' pre]; simplify_eq/=; [done |].
        exists pre, step, post. split; [done |]. split; [done |].
        split; [| done]. intros ?. apply Hpre. by right.
    + rewrite elem_of_cons, IH. split.
      * intros [[= -> ->]|(Hk & pre & step & post & -> & <- & Hpre & ->)].
        -- split; [done |]. exists [], s, r. split; [done |].
           split; [done |]. split; [| done]. simpl. apply not_elem_of_nil.
        -- apply not_elem_of_app in Hk as [Hk Hs].
           split; [done |]. exists (s :: pre), step, post.
           split; [done |]. split; [done |]. split; [| done].
           simpl. intros [Heq|?]%elem_of_cons; [| done].
           apply Hs. rewrite Heq. by left.
      * intros (Hk & pre & step & post & Heq & <- & Hpre & ->).
        destruct pre as [|s' pre]; simplify_eq/=; [by left |].
        right. split.
        -- apply not_elem_of_app. split; [done |].
           intros Heq%list_elem_of_singleton. apply Hpre. rewrite Heq.
           by left.
        -- exists pre, step, post. split; [done |]. split; [done |].
           split; [| done]. intros ?. apply Hpre. by right.
Qed.

Lemma new_entries_keys (steps : list Step) (have : list string) (k : string) :
  k ∈ (new_entries have steps).*1 → k ∉ have.
Proof.
  intros ([k' v] & -> & Hin)%list_elem_of_fmap.
  by apply new_entries_elem in Hin as [? _].
Qed.

Lemma new_entries_NoDup (steps : list Step) (have : list string) :
  NoDup (new_entries have steps).*1.
Proof.
  revert have. induction steps as [|s r IH]; intros have.
  - constructor.
  - cbn [new_entries]. destruct (Py.mem (step_key s) have); [apply IH |].
    simpl. constructor; [| apply IH].
    intros Hin%new_entries_keys. apply Hin, elem_of_app. right. by left.
Qed.

(** Two entries are in the order in which their keys first occur. *)
Lemma new_entries_order (steps : list Step) (have : list string)
    (r1 r2 r3 : registry) (e1 e2 : string * option string) :
  new_entries have steps = r1 ++ e1 :: r2 ++ e2 :: r3 →
  ∃ pre s1 mid s2 post,
    steps = pre ++ s1 :: mid ++ s2 :: post
    ∧ step_key s1 = e1.1 ∧ step_key s2 = e2.1
    ∧ (e1.1 ∉ map step_key pre)
    ∧ (e2.1 ∉ map step_key (pre ++ s1 :: mid)).
Proof.
  revert have r1. induction steps as [|s r IH]; intros have r1 Heq.
  - by destruct r1.
  - cbn [new_entries] in Heq.
    assert (∀ have' r1',
              new_entries have' r = r1' ++ e1 :: r2 ++ e2 :: r3 →
              step_key s ∈ have' →
              ∃ pre s1 mid s2 post,
                s :: r = pre ++ s1 :: mid ++ s2 :: post
                ∧ step_key s1 = e1.1 ∧ step_key s2 = e2.1
                ∧ (e1.1 ∉ map step_key pre)
                ∧ (e2.1 ∉ map step_key (pre ++ s1 :: mid))) as Hskip.
    { intros have' r1' Heq' Hs.
      destruct (IH _ _ Heq') as (pre & s1 & mid & s2 & post & -> & H1 & H2
                                 & Hn1 & Hn2).
      assert ((e1.1 ∉ have') ∧ (e2.1 ∉ have')) as [Hh1 Hh2].
      { split; apply (new_entries_keys (pre ++ s1 :: mid ++ s2 :: post));
          rewrite Heq', !fmap_app, !fmap_cons, !fmap_app, !fmap_cons;
          set_solver. }
      exists (s :: pre), s1, mid, s2, post.
      split; [done |]. split; [done |]. split; [done |]. simpl. split.
      - intros [Heq1|?]%elem_of_cons; [| done]. by rewrite Heq1 in Hh1.
      - intros [Heq2|?]%elem_of_cons; [| done]. by rewrite Heq2 in Hh2. }
    unfold Py.mem in Heq. case_bool_decide as Hin.
    + by apply (Hskip have r1).
    + destruct r1 as [|x r1]; simplify_eq/=.
      * assert ((e2.1, e2.2) ∈ new_entries (have ++ [step_key s]) r) as Hin2.
        { rewrite H0. destruct e2. set_solver. }
        apply new_entries_elem in Hin2
          as (Hk & pre & step & post & -> & Hkey & Hpre & _).
        exists [], s, pre, step, post. simpl.
        split; [done |]. split; [done |]. split; [done |].
        split; [apply not_elem_of_nil |].
        intros [Heq2|?]%elem_of_cons; [| done].
        apply Hk, elem_of_app. right. rewrite Heq2. by left.
      * apply (Hskip (have ++ [step_key s]) r1); [done |].
        apply elem_of_app. right. by left.
Qed.

Lemma process_feature_seen `{!Localization} `{!SetOrder} (feature : Feature)
    (st st' : State) :
  process_feature feature st = Ok st' →
  seen_steps st' = fold_left register (feature_steps feature) (seen_steps st).
Proof.
  unfold process_feature. rewrite process_children_frame.
  destruct (process_children _ (blank _)) as [d|e]; simpl; [| done].
  intros [= <-]. simpl.
  by destruct (f_description feature), (f_tags feature).
Qed.

(** X3: the registry a feature leaves has one entry for every step text of
    the feature, rewritten: the keys are distinct, the argument variable of
    an entry is that of the first step of the feature, in the order of the
    document, that has this text, and the entries are in the order in which
    their texts first occur. *)
Theorem X3_registry_first_occurrence `{!Localization} `{!SetOrder}
    (feature : Feature) (st' : State) :
  process_feature feature initial_state = Ok st' →
  NoDup (seen_steps st').*1
  ∧ (∀ k v, (k, v) ∈ seen_steps st'
       ↔ ∃ pre step post,
           feature_steps feature = pre ++ step :: post
           ∧ step_key step = k
           ∧ (k ∉ map step_key pre)
           ∧ v = argument_variable step)
  ∧ (∀ r1 e1 r2 e2 r3,
       seen_steps st' = r1 ++ e1 :: r2 ++ e2 :: r3 →
       ∃ pre s1 mid s2 post,
         feature_steps feature = pre ++ s1 :: mid ++ s2 :: post
         ∧ step_key s1 = e1.1 ∧ step_key s2 = e2.1
         ∧ (e2.1 ∉ map step_key (pre ++ s1 :: mid))).
Proof.
  intros Hf%process_feature_seen. rewrite fold_register in Hf.
  simpl in Hf. rewrite Hf. split; [apply new_entries_NoDup |]. split.
  - intros k v. rewrite new_entries_elem. split.
    + by intros [_ ?].
    + intros ?. split; [apply not_elem_of_nil | done].
  - intros r1 e1 r2 e2 r3 Heq.
    destruct (new_entries_order _ _ _ _ _ _ _ Heq)
      as (pre & s1 & mid & s2 & post & ? & ? & ? & _ & ?).
    by exists pre, s1, mid, s2, post.
Qed.

Lemma X3_witness :
  ∃ st',
    @process_feature en first_seen feature_repeated initial_state = Ok st'
    ∧ NoDup (seen_steps st').*1
    ∧ seen_steps st'
      = [("a user exists", None); ("the user logs in", Some "@{DataTable}")].
Proof.
  destruct (@process_feature en first_seen feature_repeated initial_state)
    as [st'|e] eqn:Hf; [| by vm_compute in Hf].
  exists st'. split; [reflexivity |].
  split; [exact (proj1 (@X3_registry_first_occurrence en first_seen _ _ Hf)) |].
  vm_compute in Hf. by injection Hf as <-.
Defined.

(** ** The lines of a scenario *)

Lemma step_argument_lines (step : Step) (lines : list Line)
    (argument : option string) :
  step_argument [] step = Ok (lines, argument) →
  Forall indented lines ∧ (argument_variable step = None → lines = []).
Proof.
  unfold step_argument, argument_variable.
  destruct (docString step) as [d|], (dataTable step) as [t|]; simpl.
  - intros [= <- _]. split; [| done].
    constructor; [by eexists |]. apply Forall_fmap, Forall_true. intros x.
    simpl. destruct (Py.truthy x); by eexists.
  - intros [= <- _]. split; [| done].
    constructor; [by eexists |]. apply Forall_fmap, Forall_true. intros x.
    simpl. destruct (Py.truthy x); by eexists.
  - unfold process_datatable, generate_datatable_as_list_of_dict.
    destruct (process_datatable_rows (rows t)) as [|h body]; simpl; [done |].
    intros [= <- _]. split; [| done].
    repeat (first [apply Forall_cons; split | apply Forall_app; split]);
      try (by eexists).
    all: try (apply Forall_fmap, Forall_true; intros x; by eexists).
    all: apply Forall_nil_2.
  - intros [= <- _]. by split.
Qed.

Lemma add_step_block `{!Localization} (step : Step) (new : list Line)
    (seen : registry) :
  add_step [] [] step = Ok (new, seen) → step_block step new.
Proof.
  intros Hadd.
  destruct (add_step_Ok _ _ _ _ _ Hadd) as (lines & argument & Harg & -> & _).
  simpl in *. rewrite (step_argument_variable _ _ _ _ Harg).
  destruct (step_argument_lines _ _ _ Harg) as [Hind Hnone].
  by exists lines.
Qed.

Lemma add_steps_blocks `{!Localization} (steps : list Step) (body : list Line)
    (seen : registry) :
  add_steps [] [] steps = Ok (body, seen) →
  ∃ blocks, body = concat blocks ∧ Forall2 step_block steps blocks.
Proof.
  revert body seen. induction steps as [|step rest IH]; intros body seen.
  - intros [= <- _]. by exists [].
  - cbn [add_steps].
    destruct (add_step [] [] step) as [[n1 s1]|e] eqn:Hstep; simpl; [| done].
    rewrite add_steps_frame.
    destruct (add_steps [] [] rest) as [[n2 s2]|e] eqn:Hrest; simpl; [| done].
    intros [= <- _]. destruct (IH _ _ eq_refl) as (blocks & -> & Hblocks).
    exists (n1 :: blocks). split; [done |]. constructor; [| done].
    by apply (add_step_block _ _ s1).
Qed.





(** ** The children of a feature *)

Lemma process_children_app `{!Localization} `{!SetOrder}
    (c1 c2 : list Child) (st : State) :
  process_children (c1 ++ c2) st
  = (st1 ← process_children c1 st; process_children c2 st1).
Proof.
  revert st. induction c1 as [|c c1 IH]; intros st; [done |].
  cbn [app process_children].
  destruct (match c with
            | ChildBackground b => process_background b st
            | ChildScenario s => process_scenario s st
            | ChildOther keys => _
            end) as [st1|e]; simpl; [apply IH | done].
Qed.

Lemma process_scenario_flag `{!Localization} `{!SetOrder}
    (scenario : Scenario) (st st' : State) :
  process_scenario scenario st = Ok st' →
  background_available st' = background_available st.
Proof.
  unfold process_scenario.
  destruct (Py.mem (sc_keyword scenario) _).
  - rewrite process_scenario_plain_eq.
    destruct (add_steps [] [] _) as [[??]|?]; simpl; [| done].
    by intros [= <-].
  - destruct (Py.mem (sc_keyword scenario) _); [| done].
    rewrite process_scenario_outline_eq.
    destruct (process_examples _ _ _ _ _) as [[? [?|]]|?]; simpl; try done.
    destruct (add_steps [] [] _) as [[??]|?]; simpl; [| done].
    by intros [= <-].
Qed.

Lemma process_background_flag `{!Localization} (background : Background)
    (st st' : State) :
  process_background background st = Ok st' →
  background_available st' = true.
Proof.
  rewrite process_background_eq.
  destruct (add_steps [] [] _) as [[??]|?]; simpl; [| done].
  by intros [= <-].
Qed.

(** [background_available] after the children: whether it was set before, or
    there is a background among them. *)
Lemma process_children_flag `{!Localization} `{!SetOrder}
    (children : list Child) (st st' : State) :
  process_children children st = Ok st' →
  background_available st'
  = background_available st || existsb is_background children.
Proof.
  revert st. induction children as [|c rest IH]; intros st.
  - intros [= <-]. simpl. by rewrite orb_false_r.
  - cbn [process_children existsb].
    destruct c as [b|s|keys]; simpl.
    + destruct (process_background b st) as [st1|e] eqn:Hb; simpl; [| done].
      intros Hrest%IH. rewrite Hrest, (process_background_flag _ _ _ Hb).
      by rewrite orb_true_r.
    + destruct (process_scenario s st) as [st1|e] eqn:Hs; simpl; [| done].
      intros Hrest%IH. by rewrite Hrest, (process_scenario_flag _ _ _ Hs).
    + done.
Qed.

(** What the children add, as lists. *)
Lemma process_children_adds `{!Localization} `{!SetOrder}
    (children : list Child) (st st' : State) :
  process_children children st = Ok st' →
  ∃ t k,
    test_cases_lines st' = test_cases_lines st ++ t
    ∧ keywords_lines st' = keywords_lines st ++ k
    ∧ settings_lines st' = settings_lines st
    ∧ ∀ st2, background_available st2 = background_available st →
        ∃ st2', process_children children st2 = Ok st2'
                ∧ test_cases_lines st2' = test_cases_lines st2 ++ t
                ∧ keywords_lines st2' = keywords_lines st2 ++ k
                ∧ settings_lines st2' = settings_lines st2
                ∧ seen_steps st2'
                  = fold_left register (concat (map child_steps children))
                      (seen_steps st2)
                ∧ background_available st2' = background_available st'.
Proof.
  rewrite process_children_frame.
  destruct (process_children children (blank (background_available st)))
    as [d|e] eqn:Hd; simpl; [| done].
  intros [= <-]. exists (test_cases_lines d), (keywords_lines d).
  split; [done |]. split; [done |]. split; [done |].
  intros st2 Hflag. eexists. rewrite process_children_frame, Hflag, Hd.
  simpl. by split.
Qed.

(** X5: what the children of a feature add to the test cases and to the
    keywords depends on what was translated before them by
    [background_available] only: from any state with the same value of it
    they add the same lines, to the same lists, and they never add to the
    settings. *)
Theorem X5_children_add_the_same `{!Localization} `{!SetOrder}
    (children : list Child) (st st' : State) :
  process_children children st = Ok st' →
  ∃ t k,
    test_cases_lines st' = test_cases_lines st ++ t
    ∧ keywords_lines st' = keywords_lines st ++ k
    ∧ settings_lines st' = settings_lines st
    ∧ ∀ st2, background_available st2 = background_available st →
        ∃ st2', process_children children st2 = Ok st2'
                ∧ test_cases_lines st2' = test_cases_lines st2 ++ t
                ∧ keywords_lines st2' = keywords_lines st2 ++ k
                ∧ settings_lines st2' = settings_lines st2
                ∧ background_available st2' = background_available st'.
Proof.
  intros (t & k & Ht & Hk & Hs & Hany)%process_children_adds.
  exists t, k. split; [done |]. split; [done |]. split; [done |].
  intros st2 Hflag.
  destruct (Hany st2 Hflag) as (st2' & ? & ? & ? & ? & _ & ?).
  by exists st2'.
Qed.

Lemma X5_witness :
  ∃ st' t k,
    @process_children en first_seen (f_children feature_repeated)
      initial_state = Ok st'
    ∧ test_cases_lines st' = [] ++ t
    ∧ ∃ st2',
        @process_children en first_seen (f_children feature_repeated)
          (append_test_cases [Text "Earlier"]
             (set_seen_steps [("the user logs in", None)] initial_state))
        = Ok st2'
        ∧ test_cases_lines st2' = [Text "Earlier"] ++ t
        ∧ keywords_lines st2' = [] ++ k.
Proof.
  destruct (@process_children en first_seen (f_children feature_repeated)
              initial_state) as [st'|e] eqn:Hc; [| by vm_compute in Hc].
  destruct (@X5_children_add_the_same en first_seen _ _ _ Hc)
    as (t & k & Ht & _ & _ & Hany).
  destruct (Hany (append_test_cases [Text "Earlier"]
                    (set_seen_steps [("the user logs in", None)]
                       initial_state)) eq_refl)
    as (st2' & H2 & Ht2 & Hk2 & _).
  exists st', t, k. split; [reflexivity |]. split; [exact Ht |].
  exists st2'. split; [exact H2 |]. split; [exact Ht2 | exact Hk2].
Defined.

Lemma plain_head_flag `{!Localization} (scenario : Scenario) (st : State) :
  plain_head scenario st
  = plain_head scenario (blank (background_available st)).
Proof. done. Qed.

Lemma background_call_flag `{!Localization} (st : State) :
  background_call st = background_call (blank (background_available st)).
Proof. done. Qed.

Lemma process_feature_children `{!Localization} `{!SetOrder}
    (feature : Feature) (st st' : State) :
  process_feature feature st = Ok st' →
  ∃ st0, process_children (f_children feature) st0 = Ok st'
         ∧ background_available st0 = false
         ∧ keywords_lines st0 = keywords_lines st
         ∧ test_cases_lines st0 = test_cases_lines st
         ∧ seen_steps st0 = seen_steps st.
Proof.
  unfold process_feature. intros Hc. eexists. split; [exact Hc |].
  by destruct (f_description feature), (f_tags feature).
Qed.

(** The lines of a scenario in what its feature gives: the state it starts
    from has [background_available] set when a background comes before it. *)
Lemma process_feature_scenario `{!Localization} `{!SetOrder}
    (feature : Feature) (st st' : State) (pre post : list Child)
    (scenario : Scenario) :
  process_feature feature st = Ok st' →
  f_children feature = pre ++ ChildScenario scenario :: post →
  ∃ st1 st2 t k,
    process_scenario scenario st1 = Ok st2
    ∧ background_available st1 = existsb is_background pre
    ∧ test_cases_lines st' = test_cases_lines st2 ++ t
    ∧ keywords_lines st' = keywords_lines st2 ++ k.
Proof.
  intros (st0 & Hc & Hflag & _)%process_feature_children Hchildren.
  rewrite Hchildren, process_children_app in Hc.
  destruct (process_children pre st0) as [st1|e] eqn:Hpre; simpl in Hc;
    [| done].
  destruct (process_scenario scenario st1) as [st2|e] eqn:Hs; simpl in Hc;
    [| done].
  destruct (process_children_adds _ _ _ Hc) as (t & k & Ht & Hk & _).
  exists st1, st2, t, k. split; [done |]. split; [| done].
  by rewrite (process_children_flag _ _ _ Hpre), Hflag.
Qed.

(** X6: the test case of a plain scenario calls the keyword of the
    background, after its documentation and its tags and before its steps,
    exactly when a background comes before the scenario among the children
    of the feature; so does the keyword of an outline, after its arguments. *)
Theorem X6_background_call `{!Localization} `{!SetOrder}
    (feature : Feature) (st st' : State) (pre post : list Child)
    (scenario : Scenario) :
  process_feature feature st = Ok st' →
  f_children feature = pre ++ ChildScenario scenario :: post →
  let before_it := blank (existsb is_background pre) in
  (is_plain scenario = true →
   ∃ before blocks after,
     test_cases_lines st'
     = before ++ plain_head scenario before_it ++ concat blocks
       ++ [Text ""] ++ after
     ∧ Forall2 step_block (sc_steps scenario) blocks)
  ∧ (is_plain scenario = false →
     ∃ before example blocks after,
       last (sc_examples scenario) = Some example
       ∧ keywords_lines st'
         = before ++ keyword_head scenario (example_header example)
           ++ background_call before_it ++ concat blocks ++ [Text ""]
           ++ after
       ∧ Forall2 step_block (sc_steps scenario) blocks).
Proof.
  intros Hf Hchildren.
  destruct (process_feature_scenario _ _ _ _ _ _ Hf Hchildren)
    as (st1 & st2 & t & k & Hs & Hflag & Ht & Hk).
  unfold process_scenario in Hs. fold (is_plain scenario) in Hs.
  cbv zeta. split; intros Hplain; rewrite Hplain in Hs.
  - rewrite process_scenario_plain_eq in Hs.
    destruct (add_steps [] [] (sc_steps scenario)) as [[body s]|e] eqn:Hsteps;
      simpl in Hs; [| done].
    assert (test_cases_lines st2
            = test_cases_lines st1 ++ plain_head scenario st1 ++ body
              ++ [Text ""]) as Hst2 by (by injection Hs as <-).
    destruct (add_steps_blocks _ _ _ Hsteps) as (blocks & -> & Hblocks).
    exists (test_cases_lines st1), blocks, t. split; [| done].
    rewrite Ht, Hst2, (plain_head_flag _ st1), Hflag.
    by rewrite <- !(assoc_L (++)).
  - destruct (Py.mem (sc_keyword scenario) _); [| done].
    destruct (process_scenario_outline_Ok _ _ _ Hs)
      as (example & ? & ? & ? & Hlast & _).
    rewrite process_scenario_outline_eq in Hs.
    destruct (process_examples _ _ _ _ _) as [[d [h|]]|?] eqn:Hex;
      simpl in Hs; try done.
    destruct (add_steps [] [] (sc_steps scenario)) as [[body s]|e] eqn:Hsteps;
      simpl in Hs; [| done].
    assert (keywords_lines st2
            = keywords_lines st1 ++ keyword_head scenario h
              ++ background_call st1 ++ body ++ [Text ""]) as Hst2
      by (by injection Hs as <-).
    destruct (add_steps_blocks _ _ _ Hsteps) as (blocks & -> & Hblocks).
    destruct (process_examples_inv scenario (outline_variables scenario)
                (sc_examples scenario) None initial_state)
      as [(lines & Hok & _)|[(ex & v & _ & _ & _ & Hr)|(e & ex & _ & _ & Hr)]];
      rewrite Hex in *; try done.
    injection Hok as _ Hh. unfold last_header in Hh. rewrite Hlast in Hh.
    injection Hh as ->.
    exists (keywords_lines st1), example, blocks, k.
    split; [done |]. split; [| done]. rewrite Hk, Hst2.
    rewrite (background_call_flag st1), Hflag.
    by rewrite <- !(assoc_L (++)).
Qed.

Lemma X6_witness :
  ∃ st' before blocks after,
    @process_feature en first_seen feature_repeated initial_state = Ok st'
    ∧ test_cases_lines st'
      = before ++ [Text "Again"; Fields [""; "Background"]] ++ concat blocks
        ++ [Text ""] ++ after.
Proof.
  destruct (@process_feature en first_seen feature_repeated initial_state)
    as [st'|e] eqn:Hf; [| by vm_compute in Hf].
  destruct (@X6_background_call en first_seen feature_repeated initial_state
              st' [ChildBackground background_user] [] scenario_again Hf
              eq_refl) as [Hplain _].
  destruct (Hplain eq_refl) as (before & blocks & after & Ht & _).
  exists st', before, blocks, after. split; [reflexivity | exact Ht].
Defined.

(** ** The keywords of a feature *)

Lemma app_nonempty_ne {A} (l x k : list A) : x ≠ [] → l ++ x ++ k ≠ l.
Proof.
  intros Hx Heq. apply (f_equal length) in Heq.
  rewrite !length_app in Heq. destruct x; [done |]. simpl in Heq. lia.
Qed.

Lemma process_children_keywords `{!Localization} `{!SetOrder}
    (children : list Child) (st st' : State) :
  process_children children st = Ok st' →
  (keywords_lines st' = keywords_lines st
   ↔ forallb plain_child children = true).
Proof.
  revert st. induction children as [|c rest IH]; intros st.
  - by intros [= <-].
  - cbn [process_children forallb].
    destruct c as [b|s|keys]; simpl; [| | done].
    + rewrite process_background_eq.
      destruct (add_steps [] [] _) as [[body ?]|?]; simpl; [| done].
      intros (t & k & _ & -> & _)%process_children_adds. simpl.
      split; [| done]. rewrite <- !(assoc_L (++)). intros Heq.
      by apply app_nonempty_ne in Heq.
    + unfold process_scenario. fold (is_plain s).
      destruct (is_plain s); simpl.
      * rewrite process_scenario_plain_eq.
        destruct (add_steps [] [] _) as [[body ?]|?]; simpl; [| done].
        intros Hrest%IH. by rewrite <- Hrest.
      * destruct (Py.mem (sc_keyword s) _); [| done].
        rewrite process_scenario_outline_eq.
        destruct (process_examples _ _ _ _ _) as [[d [h|]]|?]; simpl;
          try done.
        destruct (add_steps [] [] _) as [[body ?]|?]; simpl; [| done].
        intros (t & k & _ & -> & _)%process_children_adds. simpl.
        split; [| done]. rewrite <- !(assoc_L (++)). intros Heq.
        by apply app_nonempty_ne in Heq.
Qed.

Lemma keywords_section_empty `{!Localization} (st : State) :
  keywords_section st = "" ↔ keywords_lines st = [].
Proof.
  unfold keywords_section. destruct (keywords_lines st) as [|l ls]; [done |].
  split; [| done]. rewrite write_text.
  by destruct (tr "keywords_section" None).
Qed.

(** X7: the translation of a feature leaves no line for the section of the
    keywords exactly when every child of the feature is a plain scenario: a
    background or an outline gives a keyword, a plain scenario gives none.
    So the script of a feature has a section of keywords exactly when the
    feature has a background or an outline. *)
Theorem X7_keywords_of_a_feature `{!Localization} `{!SetOrder}
    (feature : Feature) (st' : State) :
  process_feature feature initial_state = Ok st' →
  (keywords_lines st' = []
   ↔ Forall (λ child, plain_child child = true) (f_children feature))
  ∧ (keywords_section st' = ""
     ↔ Forall (λ child, plain_child child = true) (f_children feature)).
Proof.
  intros (st0 & Hc & _ & Hk & _)%process_feature_children.
  apply process_children_keywords in Hc. rewrite Hk in Hc. simpl in Hc.
  rewrite keywords_section_empty.
  assert (keywords_lines st' = []
          ↔ Forall (λ child, plain_child child = true) (f_children feature))
    as Hiff; [| done].
  rewrite Hc, forallb_forall, Forall_forall.
  split; intros Hall x Hx; apply Hall; by apply list_elem_of_In.
Qed.

Lemma X7_witness :
  (∃ st', @process_feature en first_seen feature_repeated initial_state
          = Ok st'
          ∧ @keywords_section en st' ≠ "")
  ∧ ∃ st', @process_feature en first_seen
             {| f_name := "Login"; f_description := None; f_tags := [];
                f_children := [ChildScenario login_scenario] |}
             initial_state = Ok st'
           ∧ @keywords_section en st' = "".
Proof.
  split.
  - destruct (@process_feature en first_seen feature_repeated initial_state)
      as [st'|e] eqn:Hf; [| by vm_compute in Hf].
    exists st'. split; [reflexivity |].
    intros Hk.
    apply (proj2 (@X7_keywords_of_a_feature en first_seen _ _ Hf)) in Hk.
    by inversion Hk.
  - destruct (@process_feature en first_seen _ initial_state)
      as [st'|e] eqn:Hf; [| by vm_compute in Hf].
    exists st'. split; [reflexivity |].
    apply (proj2 (@X7_keywords_of_a_feature en first_seen _ _ Hf)).
    by repeat constructor.
Defined.

(** ** Texts and their lines *)

Lemma split_cons (sep : ascii) (s : string) :
  ∃ h t, Py.split sep s = h :: t.
Proof.
  destruct s as [|c s]; simpl; [by eexists _, _ |].
  destruct (Ascii.eqb c sep); [by eexists _, _ |].
  destruct (Py.split sep s); by eexists _, _.
Qed.

Lemma concat_cons2 (sep x y : string) (l : list string) :
  String.concat sep (x :: y :: l) = x +:+ sep +:+ String.concat sep (y :: l).
Proof. done. Qed.

(** Joining the pieces of [s.split(sep)] with [sep] gives [s] back. *)
Lemma join_split (sep : ascii) (s : string) :
  Py.join (String sep "") (Py.split sep s) = s.
Proof.
  unfold Py.join. induction s as [|c s IH]; [done |].
  cbn [Py.split]. destruct (split_cons sep s) as (h & t & Heq).
  rewrite Heq in *. destruct (Ascii.eqb_spec c sep) as [->|Hne].
  - rewrite concat_cons2, IH. done.
  - destruct t as [|y t].
    + simpl in *. by rewrite IH.
    + rewrite concat_cons2 in *. simpl in *. by rewrite IH.
Qed.

Lemma split_pieces (sep : ascii) (s : string) :
  Forall (λ x, all_chars (λ c, negb (Ascii.eqb c sep)) x = true)
         (Py.split sep s).
Proof.
  induction s as [|c s IH]; [by repeat constructor |].
  cbn [Py.split]. destruct (Ascii.eqb c sep) eqn:Hc.
  - by constructor.
  - destruct (Py.split sep s) as [|h t].
    + repeat constructor. simpl. by rewrite Hc.
    + inversion IH; subst. constructor; [| done]. simpl. by rewrite Hc.
Qed.

(** X8: a doc string is carried to the script piece by piece: after the
    line that binds [${DocString}] comes one continuation line for every
    piece of the content between two newlines, in their order, with
    [${EMPTY}] for an empty piece; the pieces have no newline, and joined
    by newlines they are the content. *)
Theorem X8_docstring_pieces (output : list Line) (d : DocString) :
  ∃ pieces,
    process_docstring output d
    = (output
       ++ docstring_binding
          :: map (λ x, Fields [""; "..."; make_empty x]) pieces,
       "${DocString}")
    ∧ Py.join newline pieces = content d
    ∧ Forall (λ x, all_chars (λ c, negb (Ascii.eqb c "010")) x = true)
             pieces.
Proof.
  exists (Py.split "010" (content d)).
  split; [| split; [apply join_split | apply split_pieces]].
  unfold process_docstring. f_equal. rewrite <- (assoc_L (++)). simpl.
  do 2 f_equal. apply map_ext. intros x. unfold make_empty.
  by destruct x.
Qed.

(** ** The templates of a resource *)

Lemma read_keywords_in `{!Localization} (lines : list string)
    (keywords : list (string * string)) :
  read_keywords lines true keywords
  = keywords ++ map template_of (List.filter names_keyword lines).
Proof.
  revert keywords. induction lines as [|line rest IH]; intros keywords.
  - simpl. by rewrite app_nil_r.
  - cbn [read_keywords List.filter]. unfold names_keyword.
    destruct (Py.truthy (Py.strip line)); simpl; [| apply IH].
    destruct (negb (Py.startswith line " ") && negb (Py.startswith line tab));
      simpl; [| apply IH].
    rewrite IH. by rewrite <- (assoc_L (++)).
Qed.

Lemma read_keywords_out `{!Localization} (lines : list string)
    (keywords : list (string * string)) :
  Forall (λ line, starts_keywords line = false) lines →
  read_keywords lines false keywords = keywords.
Proof.
  induction 1 as [|line rest Hline _ IH]; [done |].
  cbn [read_keywords]. unfold starts_keywords in Hline.
  destruct (Py.truthy (Py.strip line)); simpl in *; [| apply IH].
  rewrite Hline. apply IH.
Qed.

Lemma read_keywords_from `{!Localization} (pre post : list string)
    (line : string) (keywords : list (string * string)) :
  Forall (λ line, starts_keywords line = false) pre →
  starts_keywords line = true →
  read_keywords (pre ++ line :: post) false keywords
  = keywords ++ map template_of (List.filter names_keyword post).
Proof.
  intros Hpre Hline. induction Hpre as [|l rest Hl _ IH].
  - cbn [app read_keywords]. unfold starts_keywords in Hline.
    destruct (Py.truthy (Py.strip line)); simpl in *; [| done].
    rewrite Hline. apply read_keywords_in.
  - cbn [app read_keywords]. unfold starts_keywords in Hl.
    destruct (Py.truthy (Py.strip l)); simpl in *; [| apply IH].
    rewrite Hl. apply IH.
Qed.

(** X9: the templates of a resource are read from the lines after the first
    line that opens the section of the keywords: one for every line that is
    not blank and does not start with a space or a tab, whatever it is, in
    their order; its literal is the line without the white space around it
    and its pattern the literal with a group for every placeholder.  The
    lines up to the one that opens the section give no template, and a text
    with no such line gives none at all. *)
Theorem X9_templates_of_a_resource `{!Localization} (lines : list string) :
  (∀ pre line post,
     lines = pre ++ line :: post →
     Forall (λ line, starts_keywords line = false) pre →
     starts_keywords line = true →
     read_keywords lines false []
     = map template_of (List.filter names_keyword post))
  ∧ (Forall (λ line, starts_keywords line = false) lines →
     read_keywords lines false [] = []).
Proof.
  split.
  - intros pre line post -> Hpre Hline.
    by rewrite (read_keywords_from _ _ _ _ Hpre Hline).
  - apply read_keywords_out.
Qed.

Lemma X9_witness :
  @read_keywords en
    ["*** Settings ***" +:+ newline;
     "Library    Collections" +:+ newline;
     "*** Keywords ***" +:+ newline;
     "Given user ${name} logs in" +:+ newline;
     "    Log    logged in" +:+ newline;
     newline;
     "*** Variables ***" +:+ newline] false []
  = [("Given user ${name} logs in",
      "Given user " +:+ Re.wildcard +:+ " logs in");
     ("*** Variables ***", "*** Variables ***")].
Proof.
  refine (proj1 (@X9_templates_of_a_resource en _)
            ["*** Settings ***" +:+ newline;
             "Library    Collections" +:+ newline]
            ("*** Keywords ***" +:+ newline)
            ["Given user ${name} logs in" +:+ newline;
             "    Log    logged in" +:+ newline;
             newline;
             "*** Variables ***" +:+ newline] eq_refl _ eq_refl).
  by repeat constructor.
Defined.

(** ** The report of the missing keywords *)

Section ReportFacts.
Context `{!Localization} `{!Re.Engine} `{!Host}.

Lemma any_missing_total (kw : list (string * string)) (items : registry)
    (found0 : bool) :
  Forall (λ entry, ∃ ff, keyword_found entry.1 kw false = Ok ff) items →
  ∃ found, any_missing kw items found0 = Ok found.
Proof.
  intros Hall. revert found0.
  induction Hall as [|[k v] rest [ff Hk] _ IH]; intros found0.
  - by eexists.
  - cbn [any_missing]. simpl in Hk. rewrite Hk. simpl. apply IH.
Qed.

Lemma is_missing_spec (kw : list (string * string))
    (entry : string * option string) :
  (∀ t, t ∈ kw → is_Some (Re.compile t.2)) →
  is_missing kw entry = true ↔ ¬ ∃ t, t ∈ kw ∧ satisfies t entry.1.
Proof.
  intros Hcompile. unfold is_missing.
  destruct (keyword_found_total entry.1 kw false) as [ff Hff].
  { intros t Ht _. by apply Hcompile. }
  rewrite Hff. pose proof (keyword_found_Ok _ _ _ _ Hff) as Hspec.
  destruct ff.
  - split; [done |]. intros Hnot. destruct Hnot.
    by destruct (proj1 Hspec eq_refl).
  - split; [| done]. intros _ Hex.
    by pose proof (proj2 Hspec (or_intror Hex)).
Qed.

Lemma existsb_filter {A} (p : A → bool) (l : list A) :
  existsb p l = match List.filter p l with [] => false | _ => true end.
Proof.
  induction l as [|x l IH]; [done |]. simpl. by destruct (p x).
Qed.

Lemma report_of_missing (path sdr text : string) (seen : registry)
    (w : World) :
  verbose = false →
  files w !! path_join path sdr = Some text →
  (∀ t, t ∈ read_keywords (Py.readlines text) false [] →
        is_Some (Re.compile t.2)) →
  generate_robot_script_resource path sdr seen w
  = ({| files := files w;
        stdout :=
          stdout w
          ++ match List.filter
                     (is_missing (read_keywords (Py.readlines text) false []))
                     seen with
             | [] => []
             | missing =>
                 [newline +:+ "Missing keywords for: " +:+ path_join path sdr
                  +:+ newline]
                 ++ flat_map report_lines missing ++ [newline]
             end |},
     Ok ()).
Proof.
  intros Hquiet Hfile Hcompile.
  destruct (any_missing_total (read_keywords (Py.readlines text) false [])
              seen false) as [found Hany].
  { apply Forall_forall. intros entry _. apply keyword_found_total.
    intros t Ht _. by apply Hcompile. }
  destruct (reconcile_report _ _ _ _ _ _ Hquiet Hfile Hany) as [Hfound ->].
  rewrite Hfound, existsb_filter.
  by destruct (List.filter _ seen).
Qed.

End ReportFacts.

(** X10: when the resource exists and the patterns of its templates
    compile, a run that is not verbose leaves the files as they are and
    reports the entries of the registry that no template satisfies, and only
    them: when there is none it prints nothing; otherwise it prints the
    title, then, in the order of the registry, for every such entry the text
    of the step, its arguments when it has an argument variable and the body
    that fails, and then an empty line. *)
Theorem X10_report_of_missing `{!Localization} `{!Re.Engine} `{!Host}
    (path step_definitions_resource text : string) (seen : registry)
    (w : World) :
  verbose = false →
  files w !! path_join path step_definitions_resource = Some text →
  let kw := read_keywords (Py.readlines text) false [] in
  (∀ t, t ∈ kw → is_Some (Re.compile t.2)) →
  (∀ entry, is_missing kw entry = true
            ↔ ¬ ∃ t, t ∈ kw ∧ satisfies t entry.1)
  ∧ generate_robot_script_resource path step_definitions_resource seen w
    = ({| files := files w;
          stdout :=
            stdout w
            ++ match List.filter (is_missing kw) seen with
               | [] => []
               | missing =>
                   [newline +:+ "Missing keywords for: "
                    +:+ path_join path step_definitions_resource +:+ newline]
                   ++ flat_map report_lines missing ++ [newline]
               end |},
       Ok ()).
Proof.
  intros Hquiet Hfile kw Hcompile. split.
  - intros entry. by apply is_missing_spec.
  - by apply report_of_missing.
Qed.

Lemma X10_witness :
  @generate_robot_script_resource en Re.fragment quiet_host "out"
    "login_step_definitions.resource" login_registry login_world
  = ({| files := files login_world;
        stdout :=
          [newline
           +:+ "Missing keywords for: out/login_step_definitions.resource"
           +:+ newline;
           "Given user Alice logs out";
           "    [Arguments]    @{DataTable}";
           "    Fail    " +:+ not_implemented "Given user Alice logs out";
           newline] |}, Ok ()).
Proof.
  destruct (@X10_report_of_missing en Re.fragment quiet_host "out"
              "login_step_definitions.resource"
              (String.concat "" login_resource_lines) login_registry
              login_world eq_refl eq_refl) as [_ Hrun].
  - intros t Ht. vm_compute in Ht.
    apply list_elem_of_singleton in Ht as ->. by eexists.
  - rewrite Hrun. reflexivity.
Defined.

(** ** A name that is no pattern *)

Section PatternFacts.
Context `{!Localization} `{!Re.Engine} `{!Host}.

Lemma keyword_found_Raise (key : string) (kw : list (string * string))
    (ff : bool) (e : exn) :
  keyword_found key kw ff = Raise e →
  ∃ t, t ∈ kw ∧ t.1 ≠ key ∧ Re.compile t.2 = None ∧ e = ReError t.2.
Proof.
  revert ff. induction kw as [|[k0 p0] rest IH]; intros ff; [done |].
  cbn [keyword_found]. destruct (String.eqb_spec key k0) as [->|Hne].
  - intros (t & Ht & ?)%IH. exists t. split; [by right | done].
  - destruct (Re.compile p0) as [regex|] eqn:Hp0; simpl.
    + intros (t & Ht & ?)%IH. exists t. split; [by right | done].
    + intros [= <-]. exists (k0, p0). split; [by left |]. by split.
Qed.

Lemma keyword_found_raises (key : string) (kw : list (string * string))
    (ff : bool) (t : string * string) :
  t ∈ kw → t.1 ≠ key → Re.compile t.2 = None →
  ∃ e, keyword_found key kw ff = Raise e.
Proof.
  intros Ht Hne Hnone. revert ff.
  induction kw as [|[k0 p0] rest IH]; intros ff; [by apply elem_of_nil in Ht |].
  cbn [keyword_found]. destruct (String.eqb_spec key k0) as [->|Hne0].
  - apply elem_of_cons in Ht as [->|Ht]; [done | by apply IH].
  - destruct (Re.compile p0) as [regex|] eqn:Hp0; simpl; [| by eexists].
    apply elem_of_cons in Ht as [->|Ht]; [| by apply IH].
    simpl in Hnone. congruence.
Qed.

Lemma any_missing_raises (kw : list (string * string)) (items : registry)
    (found : bool) (entry : string * option string) :
  entry ∈ items →
  (∃ e, keyword_found entry.1 kw false = Raise e) →
  ∃ t, t ∈ kw ∧ Re.compile t.2 = None
       ∧ any_missing kw items found = Raise (ReError t.2).
Proof.
  intros Hin [e He]. revert found.
  induction items as [|[k v] rest IH]; intros found;
    [by apply elem_of_nil in Hin |].
  cbn [any_missing].
  destruct (keyword_found k kw false) as [ff|e'] eqn:Hk; simpl.
  - apply elem_of_cons in Hin as [->|Hin]; [| by apply IH].
    simpl in He. congruence.
  - destruct (keyword_found_Raise _ _ _ _ Hk) as (t & Ht & _ & Hnone & ->).
    by exists t.
Qed.

Lemma reconcile_raises (path sdr text : string) (seen : registry) (w : World)
    (e : exn) :
  verbose = false →
  files w !! path_join path sdr = Some text →
  any_missing (read_keywords (Py.readlines text) false []) seen false
  = Raise e →
  generate_robot_script_resource path sdr seen w = (w, Raise e).
Proof.
  intros Hquiet Hfile Hany.
  rewrite generate_existing by (by eexists).
  unfold reconcile, _read_keywords_from_resource, read_lines.
  rewrite Hquiet. unfold mbind, M_bind, when, mret, M_ret, lift. simpl.
  by rewrite Hfile, Hany.
Qed.

End PatternFacts.

(** X11: a template whose pattern does not compile makes the run fail when
    the resource exists: as soon as the registry has an entry whose text is
    not the literal of such a template, a run that is not verbose ends with
    the error of a pattern that does not compile, whether the entry is
    implemented by another template or not; nothing is reported and no file
    is written. *)
Theorem X11_pattern_error `{!Localization} `{!Re.Engine} `{!Host}
    (path step_definitions_resource text : string) (seen : registry)
    (w : World) (t : string * string) (entry : string * option string) :
  verbose = false →
  files w !! path_join path step_definitions_resource = Some text →
  t ∈ read_keywords (Py.readlines text) false [] →
  Re.compile t.2 = None →
  entry ∈ seen →
  entry.1 ≠ t.1 →
  ∃ t', t' ∈ read_keywords (Py.readlines text) false []
        ∧ Re.compile t'.2 = None
        ∧ generate_robot_script_resource path step_definitions_resource seen w
          = (w, Raise (ReError t'.2)).
Proof.
  intros Hquiet Hfile Ht Hnone Hentry Hne.
  destruct (any_missing_raises (read_keywords (Py.readlines text) false [])
              seen false entry Hentry) as (t' & Ht' & Hnone' & Hany).
  { apply (keyword_found_raises _ _ _ t); [done | | done]. congruence. }
  exists t'. split; [done |]. split; [done |].
  by apply (reconcile_raises _ _ text).
Qed.

Lemma X11_witness :
  @generate_robot_script_resource en Re.fragment quiet_host "out"
    "login_step_definitions.resource"
    [("Open (", None); ("a user exists", None)] unclosed_world
  = (unclosed_world, Raise (ReError "Open (")).
Proof.
  destruct (@X11_pattern_error en Re.fragment quiet_host "out"
              "login_step_definitions.resource"
              ("*** Keywords ***" +:+ newline +:+ "Open (" +:+ newline)
              [("Open (", None); ("a user exists", None)] unclosed_world
              ("Open (", "Open (") ("a user exists", None)
              eq_refl eq_refl)
    as (t' & Ht' & _ & Hrun).
  - vm_compute. apply list_elem_of_here.
  - reflexivity.
  - apply list_elem_of_further, list_elem_of_here.
  - discriminate.
  - vm_compute in Ht'. apply list_elem_of_singleton in Ht' as ->.
    exact Hrun.
Defined.

(** ** The extra settings *)

Lemma readlines_nil (s : string) : Py.readlines s = [] → s = "".
Proof.
  destruct s as [|c s]; [done |]. simpl.
  destruct (Ascii.eqb c "010"); [done |]. by destruct (Py.readlines s).
Qed.

(** What [writelines] writes of what [readlines] read is the text. *)
Lemma concat_readlines (s : string) : String.concat "" (Py.readlines s) = s.
Proof.
  induction s as [|c s IH]; [done |]. cbn [Py.readlines].
  destruct (Ascii.eqb c "010").
  - rewrite concat_cons, IH. done.
  - destruct (Py.readlines s) as [|h t] eqn:Hl.
    + apply readlines_nil in Hl as ->. done.
    + rewrite concat_cons in *. simpl. by rewrite IH.
Qed.

Section SettingsFacts.
Context `{!Host}.

Lemma apply_settings_found (fn text : string) (rest : list string)
    (w : World) :
  files w !! fn = Some text →
  apply_settings_from (fn :: rest) w = (announced fn w, Ok (text +:+ newline)).
Proof.
  intros Hfile. cbn [apply_settings_from].
  unfold mbind, M_bind, path_exists, read_lines, when, announced, print,
    mret, M_ret.
  rewrite Hfile. rewrite bool_decide_eq_true_2 by (by eexists).
  destruct verbose; simpl; rewrite Hfile, concat_readlines; done.
Qed.

Lemma apply_settings_absent (fn : string) (rest : list string) (w : World) :
  files w !! fn = None →
  apply_settings_from (fn :: rest) w = apply_settings_from rest w.
Proof.
  intros Hfile. cbn [apply_settings_from].
  unfold mbind, M_bind, path_exists. rewrite Hfile.
  rewrite bool_decide_eq_false_2; [done |]. by intros [? ?].
Qed.

End SettingsFacts.

(** X12: the extra settings are taken from one file: the file of this name
    in the settings directory when there is one, else the file of this name
    in the working directory when there is one.  Its text is written as it
    is, followed by a newline; when neither file is there, nothing is
    written.  No file is changed, and only a verbose run prints, the path of
    the file it takes. *)
Theorem X12_settings_precedence `{!Host} (filename : string) (w : World) :
  let first := path_join settings_dir filename in
  let second := path_join getcwd filename in
  (∀ text, files w !! first = Some text →
     _apply_settings filename w = (announced first w, Ok (text +:+ newline)))
  ∧ (∀ text, files w !! first = None → files w !! second = Some text →
       _apply_settings filename w
       = (announced second w, Ok (text +:+ newline)))
  ∧ (files w !! first = None → files w !! second = None →
     _apply_settings filename w = (w, Ok "")).
Proof.
  unfold _apply_settings. cbv zeta. repeat split.
  - intros text Hfirst. by apply apply_settings_found.
  - intros text Hfirst Hsecond.
    rewrite apply_settings_absent by done. by apply apply_settings_found.
  - intros Hfirst Hsecond. by rewrite !apply_settings_absent.
Qed.

(** ** Reading back a resource that was written *)

Lemma rstrip_newline (k : string) : Py.rstrip (k +:+ newline) = Py.rstrip k.
Proof.
  induction k as [|c k IH]; [done |].
  cbn [String.append Py.rstrip]. by rewrite IH.
Qed.

Lemma lstrip_length (s : string) :
  String.length (Py.lstrip s) ≤ String.length s.
Proof.
  induction s as [|c s IH]; simpl; [done |].
  destruct (Py.isspace c); simpl; lia.
Qed.

Lemma rstrip_length (s : string) :
  String.length (Py.rstrip s) ≤ String.length s.
Proof.
  induction s as [|c s IH]; simpl; [done |].
  destruct (Py.rstrip s); simpl in *; [destruct (Py.isspace c); simpl |]; lia.
Qed.

Lemma clean_first (k : string) :
  clean k → ∃ c k', k = String c k' ∧ Py.isspace c = false.
Proof.
  intros (Hstrip & Hne & _). destruct k as [|c k]; [done |].
  exists c, k. split; [done |].
  destruct (Py.isspace c) eqn:Hc; [| done].
  apply (f_equal String.length) in Hstrip. unfold Py.strip in Hstrip.
  simpl in Hstrip. rewrite Hc in Hstrip.
  pose proof (rstrip_length (Py.lstrip k)). pose proof (lstrip_length k). lia.
Qed.

Lemma strip_line (k : string) : clean k → Py.strip (k +:+ newline) = k.
Proof.
  intros Hclean. destruct (clean_first k Hclean) as (c & k' & -> & Hc).
  destruct Hclean as (Hstrip & _). unfold Py.strip in *.
  cbn [String.append Py.lstrip] in *. rewrite Hc in *.
  change (String c (k' +:+ newline)) with (String c k' +:+ newline).
  by rewrite rstrip_newline.
Qed.

Lemma startswith_other (c d : ascii) (s : string) :
  c ≠ d → Py.startswith (String c s) (String d "") = false.
Proof.
  intros Hne. unfold Py.startswith. cbn [String.prefix].
  by destruct (ascii_dec d c) as [->|_].
Qed.

Lemma names_keyword_line (k : string) :
  clean k → names_keyword (k +:+ newline) = true.
Proof.
  intros Hclean. unfold names_keyword. rewrite (strip_line k Hclean).
  destruct (clean_first k Hclean) as (c & k' & -> & Hc).
  cbn [String.append]. unfold tab.
  rewrite !startswith_other; [done | |]; intros ->; by vm_compute in Hc.
Qed.

Lemma readlines_line (k rest : string) :
  all_chars (λ c, negb (Ascii.eqb c "010")) k = true →
  Py.readlines (k +:+ newline +:+ rest) = (k +:+ newline) :: Py.readlines rest.
Proof.
  induction k as [|c k IH]; [done |].
  cbn [String.append Py.readlines all_chars].
  intros [Hc Hk]%andb_true_iff. apply negb_true_iff in Hc. rewrite Hc.
  by rewrite (IH Hk).
Qed.

Lemma readlines_app_newline (a b : string) :
  Py.readlines (a +:+ newline +:+ b)
  = Py.readlines (a +:+ newline) ++ Py.readlines b.
Proof.
  induction a as [|c a IH]; [done |].
  cbn [String.append Py.readlines].
  destruct (Ascii.eqb c "010"); rewrite IH; [done |].
  destruct (Py.readlines (a +:+ newline)) as [|h t] eqn:Hl; [| done].
  apply readlines_nil in Hl. by destruct a.
Qed.

Lemma prefix_app (a b : string) : String.prefix a (a +:+ b) = true.
Proof.
  induction a as [|c a IH]; [by destruct b |]. simpl.
  by destruct (ascii_dec c c).
Qed.

Section ReadBack.
Context `{!Localization} `{!Re.Engine} `{!Host}.

Lemma starts_keywords_header :
  clean (tr "keywords_section" None) →
  starts_keywords (tr "keywords_section" None +:+ newline) = true.
Proof.
  intros Hclean. unfold starts_keywords. rewrite (strip_line _ Hclean).
  destruct (clean_first _ Hclean) as (c & k' & Heq & _).
  unfold Py.startswith. rewrite prefix_app, orb_true_r.
  by rewrite Heq.
Qed.

Lemma stub_shape (k : string) (v : option string) :
  ∃ body, stub k v = k +:+ newline +:+ body +:+ newline.
Proof.
  unfold stub. rewrite !write_text.
  set (args := if Py.truthy_opt v then _ else _).
  set (body := write_to_script _).
  exists (args +:+ body). by rewrite !string_app_assoc.
Qed.

(** The line of the name of every stub is among the lines of the stubs. *)
Lemma stubs_lines (seen : registry) (k rest : string) :
  k ∈ seen.*1 →
  all_chars (λ c, negb (Ascii.eqb c "010")) k = true →
  (k +:+ newline) ∈ Py.readlines (stubs seen +:+ rest).
Proof.
  intros Hin Hk. induction seen as [|[k0 v0] seen IH];
    [by apply elem_of_nil in Hin |].
  cbn [stubs]. destruct (stub_shape k0 v0) as [body ->].
  rewrite !string_app_assoc.
  destruct (decide (k = k0)) as [<-|Hne].
  - rewrite readlines_line by done. by left.
  - rewrite <- (string_app_assoc k0), <- (string_app_assoc (k0 +:+ newline)).
    rewrite readlines_app_newline. apply elem_of_app. right.
    apply IH. simpl in Hin. apply elem_of_cons in Hin as [?|?]; done.
Qed.

Lemma head_shape (settings : string) :
  ∃ before,
    resource_head settings
    = before +:+ newline +:+ tr "keywords_section" None +:+ newline.
Proof.
  unfold resource_head. rewrite !write_text.
  set (language := if String.eqb get_language "en" then _ else _).
  set (documentation := write_to_script _).
  set (library := write_to_script _).
  exists (language +:+ (tr "settings_section" None +:+ newline) +:+ settings
          +:+ documentation +:+ library).
  by rewrite !string_app_assoc.
Qed.

Lemma read_keywords_step (line : string) (rest : list string) (b : bool)
    (kws : list (string * string)) :
  ∃ b' kws', read_keywords (line :: rest) b kws = read_keywords rest b' kws'.
Proof.
  cbn [read_keywords].
  destruct (negb (Py.truthy (Py.strip line))); [by eexists _, _ |].
  destruct b.
  - destruct (negb (Py.startswith line " ") && negb (Py.startswith line tab));
      by eexists _, _.
  - destruct (Py.startswith line "*** Keywords ***"
              || Py.startswith line (tr "keywords_section" None));
      by eexists _, _.
Qed.

(** A name after a line that opens the section is read as a template. *)
Lemma read_keywords_after (before after : list string) (hline k : string)
    (b : bool) (kws : list (string * string)) :
  starts_keywords hline = true →
  clean k →
  (k +:+ newline) ∈ after →
  (k, Re.sub_placeholders k)
  ∈ read_keywords (before ++ hline :: after) b kws.
Proof.
  intros Hh Hclean Hin. revert b kws.
  induction before as [|l before IH]; intros b kws.
  - assert (∃ kws', read_keywords ([] ++ hline :: after) b kws
                    = read_keywords after true kws') as [kws' ->].
    { cbn [app read_keywords]. unfold starts_keywords in Hh.
      apply andb_true_iff in Hh as [Htruthy Hstarts]. rewrite Htruthy. simpl.
      destruct b; [| rewrite Hstarts; by eexists].
      destruct (negb (Py.startswith hline " ")
                && negb (Py.startswith hline tab)); by eexists. }
    rewrite read_keywords_in. apply elem_of_app. right.
    replace (k, Re.sub_placeholders k) with (template_of (k +:+ newline))
      by (unfold template_of; by rewrite strip_line).
    apply list_elem_of_fmap_2, list_elem_of_In, filter_In.
    split; [by apply list_elem_of_In | by apply names_keyword_line].
  - destruct (read_keywords_step l (before ++ hline :: after) b kws)
      as (b' & kws' & Hstep).
    cbn [app]. rewrite Hstep. apply IH.
Qed.

(** Every text of the registry is the literal of a template read from the
    resource that was written for it. *)
Lemma read_back (settings : string) (seen : registry) (k : string) :
  clean (tr "keywords_section" None) →
  clean k →
  k ∈ seen.*1 →
  (k, Re.sub_placeholders k)
  ∈ read_keywords (Py.readlines (resource_head settings +:+ stubs seen))
      false [].
Proof.
  intros Hheader Hk Hin. destruct (head_shape settings) as [before ->].
  rewrite !string_app_assoc. rewrite readlines_app_newline.
  rewrite readlines_line by apply Hheader.
  apply read_keywords_after; [by apply starts_keywords_header | done |].
  rewrite <- (string_app_nil_r (stubs seen)).
  apply stubs_lines; [done | apply Hk].
Qed.

End ReadBack.

Lemma filter_none {A} (p : A → bool) (l : list A) :
  (∀ x, x ∈ l → p x = false) → List.filter p l = [].
Proof.
  induction l as [|x l IH]; intros Hall; [done |]. simpl.
  rewrite (Hall x) by (by left). apply IH. intros y Hy. apply Hall. by right.
Qed.

Section Regeneration.
Context `{!Localization} `{!Re.Engine} `{!Host}.

Lemma first_run (path sdr : string) (seen : registry) (w : World) :
  files w !! path_join path sdr = None →
  ∃ w1 settings,
    generate_robot_script_resource path sdr seen w = (w1, Ok ())
    ∧ files w1
      = <[path_join path sdr := resource_head settings +:+ stubs seen]>
          (files w).
Proof.
  intros Hfile. rewrite generate_new by done.
  destruct (create_resource_run (path_join path sdr) sdr seen w)
    as (w1 & settings & Hrun & Hfiles).
  unfold mbind, M_bind. rewrite Hrun. unfold when.
  destruct verbose; [| by exists w1, settings].
  eexists _, settings. split; [reflexivity | done].
Qed.

Lemma second_run (path sdr settings : string) (seen : registry)
    (w1 : World) :
  verbose = false →
  files w1 !! path_join path sdr
  = Some (resource_head settings +:+ stubs seen) →
  clean (tr "keywords_section" None) →
  Forall (λ entry, clean entry.1) seen →
  (∀ t, t ∈ read_keywords
              (Py.readlines (resource_head settings +:+ stubs seen)) false []
        → is_Some (Re.compile t.2)) →
  generate_robot_script_resource path sdr seen w1 = (w1, Ok ()).
Proof.
  intros Hquiet Hfile Hheader Hclean Hcompile.
  rewrite (report_of_missing _ _ _ _ _ Hquiet Hfile Hcompile).
  rewrite filter_none.
  - rewrite app_nil_r. by destruct w1.
  - intros [k v] Hin.
    destruct (is_missing _ (k, v)) eqn:Hmissing; [| done].
    apply is_missing_spec in Hmissing; [| done]. destruct Hmissing.
    exists (k, Re.sub_placeholders k). split; [| by left].
    apply read_back; [done | |].
    + rewrite Forall_forall in Hclean. apply (Hclean (k, v) Hin).
    + apply list_elem_of_fmap. by exists (k, v).
Qed.

End Regeneration.

(** X13: a resource that was written is read back as implementing every
    step it was written for.  When the resource does not exist, a run that
    is not verbose writes it; if the texts of the registry and the title of
    the section of the keywords are each one line, with no white space
    around it, and the patterns of what is read back from the file compile,
    a second run with the same registry reports nothing and changes
    nothing. *)
Theorem X13_second_run_is_silent `{!Localization} `{!Re.Engine} `{!Host}
    (path step_definitions_resource : string) (seen : registry) (w : World) :
  verbose = false →
  files w !! path_join path step_definitions_resource = None →
  clean (tr "keywords_section" None) →
  Forall (λ entry, clean entry.1) seen →
  let w1 :=
    (generate_robot_script_resource path step_definitions_resource seen w).1 in
  (∀ text t,
     files w1 !! path_join path step_definitions_resource = Some text →
     t ∈ read_keywords (Py.readlines text) false [] →
     is_Some (Re.compile t.2)) →
  is_Some (files w1 !! path_join path step_definitions_resource)
  ∧ generate_robot_script_resource path step_definitions_resource seen w1
    = (w1, Ok ()).
Proof.
  intros Hquiet Hfile Hheader Hclean.
  destruct (first_run path step_definitions_resource seen w Hfile)
    as (w1 & settings & -> & Hfiles).
  cbn [fst]. intros Hcompile.
  assert (files w1 !! path_join path step_definitions_resource
          = Some (resource_head settings +:+ stubs seen)) as Htext
    by (by rewrite Hfiles, lookup_insert_eq).
  split; [by eexists |].
  apply (second_run _ _ settings); try done.
  intros t. by apply Hcompile.
Qed.

Lemma X13_witness :
  let w1 :=
    (@generate_robot_script_resource en Re.fragment quiet_host "out"
       "login_step_definitions.resource" two_steps_registry empty_world).1 in
  is_Some (files w1 !! "out/login_step_definitions.resource")
  ∧ @generate_robot_script_resource en Re.fragment quiet_host "out"
      "login_step_definitions.resource" two_steps_registry w1
    = (w1, Ok ()).
Proof.
  apply (@X13_second_run_is_silent en Re.fragment quiet_host "out"
           "login_step_definitions.resource" two_steps_registry empty_world
           eq_refl eq_refl).
  - by repeat split.
  - by repeat constructor.
  - intros text t Htext Ht. vm_compute in Htext. injection Htext as <-.
    vm_compute in Ht.
    repeat (apply elem_of_cons in Ht as [->|Ht]; [by eexists |]).
    by apply elem_of_nil in Ht.
Defined.

(** ** The files of a feature *)

Section WriterFacts.
Context `{!Localization} `{!Re.Engine} `{!Host} `{!Target}.


(** The script is opened: the directory [path] has a name and the directory
    of the script is there. *)
Lemma generate_robot_script_run (path name : string) (st : State)
    (w : World) :
  path ≠ "" →
  has_directory path (path_join path (script_name name)) = true →
  ∃ w2 settings,
    files w2
    = <[path_join path (script_name name) := script_text name settings st]>
        (files w)
    ∧ generate_robot_script path name st w
      = generate_robot_script_resource path (resource_name name)
          (seen_steps st) w2.
Proof.
  intros Hpath Hdir.
  unfold generate_robot_script, make_directory, open_script,
    apply_feature_settings, _apply_settings.
  rewrite Hdir. destruct path as [|c path]; [done |]. cbn [Py.truthy].
  unfold mbind at 1, M_bind at 1, mret at 1, M_ret at 1.
  unfold mbind at 1, M_bind at 1, store at 1.
  unfold mbind at 1, M_bind at 1.
  edestruct apply_settings_from_run as (w1 & settings & -> & Hw1).
  unfold mbind at 1, M_bind at 1, store at 1.
  exists {| files := <[path_join (String c path) (script_name name)
                       := script_text name settings st]> (files w1);
            stdout := stdout w1 |}, settings.
  split; [| done]. cbn [files]. rewrite Hw1. cbn [files].
  by rewrite insert_insert_eq.
Qed.


End WriterFacts.



(** ** A feature that is not translated *)

Section GherkinFacts.
Context `{!Localization} `{!SetOrder} `{!Re.Engine} `{!Host} `{!Target}
  `{!Parser}.

Lemma process_gherkin_failed (gherkin_filename basedir output content : string)
    (feature : Feature) (e : exn) (w : World) :
  files w !! gherkin_filename = Some content →
  parse content = Document (Some feature) →
  process_feature feature initial_state = Raise e →
  process_gherkin gherkin_filename basedir output w
  = ({| files := files w;
        stdout := stdout w ++ processing gherkin_filename basedir output |},
     Failed e).
Proof.
  intros Hfile Hparse Hfeature. unfold process_gherkin. cbn [files].
  by rewrite Hfile, Hparse, Hfeature.
Qed.

Lemma missing_column_raises (scenario : Scenario) (example : Examples)
    (v : string) (st : State) :
  is_plain scenario = false →
  example ∈ sc_examples scenario →
  v ∈ step_variables scenario →
  ¬ (v ∈ example_header example) →
  ∃ e, process_scenario scenario st = Raise e.
Proof.
  intros Hplain Hex Hv Hnot. unfold process_scenario.
  fold (is_plain scenario). rewrite Hplain.
  destruct (Py.mem (sc_keyword scenario) _); [| by eexists].
  destruct (process_scenario_outline scenario st) as [st'|e] eqn:Hout;
    [| by eexists].
  apply process_scenario_outline_Ok in Hout
    as (? & ? & ? & ? & _ & _ & _ & _ & _ & _ & _ & Hall).
  destruct Hnot. by apply (Hall example v).
Qed.

Lemma process_children_raise_at (pre post : list Child) (scenario : Scenario)
    (st : State) :
  (∀ st1, ∃ e, process_scenario scenario st1 = Raise e) →
  ∃ e, process_children (pre ++ ChildScenario scenario :: post) st = Raise e.
Proof.
  intros Hraise. rewrite process_children_app.
  destruct (process_children pre st) as [st1|e]; simpl; [| by eexists].
  destruct (Hraise st1) as [e ->]. by eexists.
Qed.

End GherkinFacts.

(** X15: a feature with an outline that has, in one of its example blocks,
    no column for a variable of its steps is not written at all.  Whatever
    comes before and after the outline in the feature, [process_gherkin]
    ends with an exception after it has printed what it processes: no file
    is created or changed, not even for the scenarios before the outline. *)
Theorem X15_nothing_written `{!Localization} `{!SetOrder} `{!Re.Engine}
    `{!Host} `{!Target} `{!Parser}
    (gherkin_filename basedir output content : string) (feature : Feature)
    (pre post : list Child) (scenario : Scenario) (example : Examples)
    (v : string) (w : World) :
  files w !! gherkin_filename = Some content →
  parse content = Document (Some feature) →
  f_children feature = pre ++ ChildScenario scenario :: post →
  is_plain scenario = false →
  example ∈ sc_examples scenario →
  v ∈ step_variables scenario →
  ¬ (v ∈ example_header example) →
  ∃ e,
    process_gherkin gherkin_filename basedir output w
    = ({| files := files w;
          stdout := stdout w ++ processing gherkin_filename basedir output |},
       Failed e).
Proof.
  intros Hfile Hparse Hchildren Hplain Hex Hv Hnot.
  assert (∃ e, process_feature feature initial_state = Raise e) as [e He].
  { unfold process_feature. rewrite Hchildren.
    apply process_children_raise_at. intros st1.
    by apply (missing_column_raises _ example v). }
  exists e. by apply (process_gherkin_failed _ _ _ content feature).
Qed.

Lemma X15_witness :
  ∃ e,
    @process_gherkin en first_seen Re.fragment quiet_host new_disk
      (parser_of feature_missing_column) "features/account.feature"
      "features" "out" account_world
    = ({| files := files account_world;
          stdout := ["Processing gherkin: features/account.feature"] |},
       Failed e).
Proof.
  apply (@X15_nothing_written en first_seen Re.fragment quiet_host new_disk
           (parser_of feature_missing_column) "features/account.feature"
           "features" "out" "Feature: Account" feature_missing_column
           [] [ChildScenario login_scenario] outline_missing_column
           {| ex_name := "first"; ex_line := 5; ex_description := None;
              ex_tags := []; tableHeader := row ["other"];
              tableBody := [row ["1"]] |} "amount" account_world).
  - reflexivity.
  - reflexivity.
  - reflexivity.
  - reflexivity.
  - apply list_elem_of_here.
  - vm_compute. apply list_elem_of_here.
  - vm_compute. intros Hin. apply list_elem_of_singleton in Hin.
    discriminate.
Defined.

(** ** The directory of the settings *)

Section SettingsDirFacts.
Context `{!Directories}.

Lemma truthy_empty (s : string) : Py.truthy s = false ↔ s = "".
Proof. by destruct s. Qed.

Lemma settings_loop_spec (fuel : nat) (d : string) (t : option string) :
  shortens →
  String.length d < fuel →
  ∃ n,
    climbs n d
    ∧ ((searching (ancestor n d) = false
        ∧ ∃ t', settings_loop fuel d t = Some (ancestor n d, t')
                ∧ (n = 0 → t' = t)
                ∧ (0 < n → Py.truthy_opt t' = true))
       ∨ (searching (ancestor n d) = true
          ∧ (path_split (ancestor n d)).2 = ""
          ∧ settings_loop fuel d t
            = Some ((path_split (ancestor n d)).1, Some ""))).
Proof.
  intros Hshort. revert d t. induction fuel as [|fuel IH]; intros d t Hlen;
    [lia |].
  cbn [settings_loop]. fold (searching d).
  destruct (searching d) eqn:Hs.
  2:{ exists 0. split; [intros i Hi; lia |]. left. split; [done |].
      exists t. split; [done |]. split; [done | lia]. }
  destruct (path_split d) as [d' t'] eqn:Hsplit.
  destruct (Py.truthy t') eqn:Ht'; simpl.
  2:{ exists 0. split; [intros i Hi; lia |]. right. simpl.
      rewrite Hsplit. apply truthy_empty in Ht' as ->. by split. }
  assert (t' ≠ "") as Hne by (by intros ->).
  destruct (IH d' (Some t')) as (n & Hclimb & Hend).
  { pose proof (Hshort d) as Hd. rewrite Hsplit in Hd. simpl in Hd.
    specialize (Hd Hne). lia. }
  exists (S n). split.
  - intros [|i] Hi; simpl.
    + rewrite Hs, Hsplit. by split.
    + rewrite Hsplit. simpl. apply Hclimb. lia.
  - simpl. rewrite Hsplit. simpl.
    destruct Hend as [(Hstop & t'' & Hloop & Hzero & Hpos)|Hbreak];
      [left | by right].
    split; [done |]. exists t''. split; [done |]. split; [lia |].
    intros _. destruct n as [|n]; [| apply Hpos; lia].
    rewrite (Hzero eq_refl). by destruct t'.
Qed.

End SettingsDirFacts.

(** X16: [determine_settings_dir] climbs from the start directory, from a
    directory to the head [os.path.split] gives for it, as long as the
    directory is not the empty path and has no settings.  It ends, when the
    head is shorter than the path whenever the tail is not empty, and it
    leaves in [settings_dir] the first directory on this way that has
    settings or is the empty path; when the way ends before, at a directory
    whose tail is empty, it leaves the start directory. *)
Theorem X16_settings_dir `{!Directories} (start_dir : string) :
  shortens →
  ∃ n,
    climbs n start_dir
    ∧ ((searching (ancestor n start_dir) = false
        ∧ determine_settings_dir start_dir = Some (ancestor n start_dir))
       ∨ (searching (ancestor n start_dir) = true
          ∧ (path_split (ancestor n start_dir)).2 = ""
          ∧ determine_settings_dir start_dir = Some start_dir)).
Proof.
  intros Hshort.
  destruct (settings_loop_spec (S (String.length start_dir)) start_dir None
              Hshort) as (n & Hclimb & Hend); [lia |].
  exists n. split; [done |]. unfold determine_settings_dir.
  destruct Hend as [(Hstop & t' & -> & Hzero & Hpos)|(Hgo & Htail & ->)].
  - left. split; [done |]. simpl. destruct n as [|n].
    + by rewrite (Hzero eq_refl).
    + rewrite Hpos by lia. done.
  - right. by repeat split.
Qed.

Lemma split_last_length (s h t : string) :
  split_last s = Some (h, t) →
  String.length s = String.length h + 1 + String.length t.
Proof.
  revert h. induction s as [|c s IH]; intros h; [done |]. simpl.
  destruct (split_last s) as [[h' t']|].
  - intros [= <- <-]. simpl. by rewrite (IH h').
  - destruct (Ascii.eqb c "/"); [| done]. by intros [= <- <-].
Qed.

Lemma posix_split_shortens : @shortens work_directories.
Proof.
  intros d. simpl. unfold posix_split.
  destruct (split_last d) as [[h t]|] eqn:Hsplit.
  - apply split_last_length in Hsplit. destruct h; simpl in *.
    + intros Ht. destruct t; [done |]. simpl in *. lia.
    + intros _. lia.
  - simpl. intros Hd. destruct d; [done |]. simpl. lia.
Qed.

Lemma X16_witness :
  @determine_settings_dir work_directories "/work/features/login"
  = Some "/work"
  ∧ ∃ n,
      @climbs work_directories n "/work/features/login"
      ∧ ((@searching work_directories
            (@ancestor work_directories n "/work/features/login") = false
          ∧ @determine_settings_dir work_directories "/work/features/login"
            = Some (@ancestor work_directories n "/work/features/login"))
         ∨ (@searching work_directories
              (@ancestor work_directories n "/work/features/login") = true
            ∧ (@path_split work_directories
                 (@ancestor work_directories n "/work/features/login")).2 = ""
            ∧ @determine_settings_dir work_directories "/work/features/login"
              = Some "/work/features/login")).
Proof.
  split; [reflexivity |].
  exact (@X16_settings_dir work_directories "/work/features/login"
           posix_split_shortens).
Defined.

(** ** The settings of a feature *)



(** ** The test cases of an outline *)

Lemma process_examples_lines `{!Localization} (scenario : Scenario)
    (variables : list string) (examples : list Examples)
    (header header' : option (list string)) (st st' : State) :
  process_examples scenario variables examples header st = Ok (st', header') →
  test_cases_lines st'
  = test_cases_lines st ++ concat (map (example_lines scenario) examples)
  ∧ Forall rows_fit examples.
Proof.
  revert header st. induction examples as [|example rest IH];
    intros header st.
  - intros [= <- _]. simpl. by rewrite app_nil_r.
  - cbn [process_examples].
    destruct (process_example scenario variables example st)
      as [[st1 h1]|e] eqn:Hex; simpl; [| done].
    intros [Hrest Hfit]%IH.
    assert (∀ v, v ∈ variables → v ∈ example_header example) as Hvars.
    { destruct (process_example_inv scenario variables example st)
        as [(d & _ & Hv & _)|[(v & _ & _ & Hr)|(e & Hr & _)]];
        [done | congruence | congruence]. }
    destruct (process_example_result scenario variables example st _
                (header_of_col example) Hvars) as [[Hfit1 Hr]|[_ Hr]];
      [| congruence].
    rewrite Hr in Hex. injection Hex as <- _.
    split; [| by constructor]. rewrite Hrest. cbn [map concat].
    unfold example_lines at 2. cbn [test_cases_lines append_test_cases
      set_test_cases_lines].
    by rewrite <- ?(assoc_L (++)).
Qed.

(** X18: the test cases of an outline are the lines of its example blocks,
    in the order of the blocks: for every block what comes before its rows
    (documentation, tags and the reference to the template), a line for
    every row and an empty line.  When the outline is translated, every row
    of every block has a cell for every column of its header. *)
Theorem X18_test_cases_of_an_outline `{!Localization} `{!SetOrder}
    (scenario : Scenario) (st st' : State) :
  process_scenario_outline scenario st = Ok st' →
  test_cases_lines st'
  = test_cases_lines st
    ++ concat (map (example_lines scenario) (sc_examples scenario))
  ∧ Forall rows_fit (sc_examples scenario).
Proof.
  rewrite process_scenario_outline_eq.
  destruct (process_examples scenario _ _ None initial_state)
    as [[d [h|]]|e] eqn:Hex; simpl; try done.
  destruct (add_steps [] [] (sc_steps scenario)) as [[body s]|e]; simpl;
    [| done].
  intros [= <-]. apply process_examples_lines in Hex as [Hd Hfit].
  split; [| done]. simpl. by rewrite Hd.
Qed.

Lemma X18_witness :
  ∃ st',
    @process_scenario_outline en first_seen outline_3_2 initial_state
    = Ok st'
    ∧ test_cases_lines st'
      = [] ++ concat (map (@example_lines en outline_3_2)
                          [examples_small; examples_unnamed]).
Proof.
  destruct (@process_scenario_outline en first_seen outline_3_2
              initial_state) as [st'|e] eqn:Hout; [| by vm_compute in Hout].
  exists st'. split; [reflexivity |].
  exact (proj1 (@X18_test_cases_of_an_outline en first_seen _ _ _ Hout)).
Defined.

(** ** A feature that is translated for the first time *)

Lemma stubs_contains `{!Localization} (seen : registry) (k : string)
    (v : option string) :
  (k, v) ∈ seen →
  ∃ before after, stubs seen = before +:+ stub k v +:+ after.
Proof.
  induction seen as [|[k0 v0] seen IH]; [by intros ?%elem_of_nil |].
  intros [[= -> ->]|Hin]%elem_of_cons.
  - by exists "", (stubs seen).
  - destruct (IH Hin) as (before & after & Heq).
    exists (stub k0 v0 +:+ before), after. cbn [stubs].
    by rewrite Heq, string_app_assoc.
Qed.

Lemma first_occurrence {A} `{EqDecision B} (f : A → B) (l : list A) (x : A) :
  x ∈ l →
  ∃ pre y post, l = pre ++ y :: post ∧ f y = f x ∧ f x ∉ map f pre.
Proof.
  induction l as [|a l IH]; [by intros ?%elem_of_nil |].
  intros Hin. destruct (decide (f a = f x)) as [Heq|Hne].
  - exists [], a, l. split; [done |]. split; [done |]. apply not_elem_of_nil.
  - apply elem_of_cons in Hin as [->|Hin]; [done |].
    destruct (IH Hin) as (pre & y & post & -> & Hy & Hpre).
    exists (a :: pre), y, post. split; [done |]. split; [done |].
    simpl. intros [?|?]%elem_of_cons; [congruence | done].
Qed.

(** X19: a feature that is translated to the end, whose script can be
    opened (its directory has a name, and the directory of the script is
    there) and whose resource does not exist, gives two files and leaves the
    others as they are: the script, with the settings, the test cases and
    the keywords of the translation and the time of line 125, and the
    resource, which has, after its head with the time of line 218, a stub
    for every entry of the registry; so every step of the feature has a stub
    whose name is its text, rewritten. *)
Theorem X19_first_translation `{!Localization} `{!SetOrder} `{!Re.Engine}
    `{!Host} `{!Target} `{!Parser}
    (gherkin_filename basedir output content : string) (feature : Feature)
    (st : State) (w : World) :
  let path := path_join output (feature_sub gherkin_filename basedir) in
  let script := path_join path (script_name (f_name feature)) in
  let resource := path_join path (resource_name (f_name feature)) in
  files w !! gherkin_filename = Some content →
  parse content = Document (Some feature) →
  process_feature feature initial_state = Ok st →
  path ≠ "" →
  has_directory path script = true →
  script ≠ resource →
  files w !! resource = None →
  ∃ w' settings settings',
    process_gherkin gherkin_filename basedir output w = (w', Done)
    ∧ files w'
      = <[resource := resource_head settings' +:+ stubs (seen_steps st)]>
          (<[script := script_text (f_name feature) settings st]> (files w))
    ∧ ∀ step, step ∈ feature_steps feature →
        ∃ v before after,
          stubs (seen_steps st)
          = before +:+ stub (step_key step) v +:+ after.
Proof.
  intros path script resource Hfile Hparse Hfeature Hpath Hdir Hne Hnew.
  unfold process_gherkin. cbn [files]. rewrite Hfile, Hparse, Hfeature.
  fold path.
  destruct (generate_robot_script_run path (f_name feature) st
              {| files := files w;
                 stdout := stdout w
                           ++ processing gherkin_filename basedir output |}
              Hpath Hdir)
    as (w2 & settings & Hw2 & ->).
  cbn [files] in Hw2. fold script in Hw2.
  destruct (first_run path (resource_name (f_name feature)) (seen_steps st) w2)
    as (w' & settings' & -> & Hw').
  { fold resource. by rewrite Hw2, lookup_insert_ne. }
  exists w', settings, settings'. split; [done |].
  split; [by rewrite Hw', Hw2 |].
  intros step Hstep.
  destruct (first_occurrence step_key _ _ Hstep)
    as (pre & y & post & Hsteps & Hy & Hpre).
  destruct (stubs_contains (seen_steps st) (step_key step)
              (argument_variable y)) as (before & after & Heq).
  { pose proof (process_feature_seen _ _ _ Hfeature) as Hseen.
    rewrite fold_register in Hseen. simpl in Hseen. rewrite Hseen.
    apply new_entries_elem. split; [apply not_elem_of_nil |].
    by exists pre, y, post. }
  by exists (argument_variable y), before, after.
Qed.

Lemma X19_witness :
  ∃ w' settings settings' st,
    @process_feature en first_seen feature_repeated initial_state = Ok st
    ∧ @process_gherkin en first_seen Re.fragment posix_host new_disk
        (posix_parser feature_repeated) "features/shop/login.feature"
        "features" "out" shop_world = (w', Done)
    ∧ files w'
      = <["out/shop/login_step_definitions.resource"
          := @resource_head en posix_host settings'
             +:+ @stubs en (seen_steps st)]>
          (<["out/shop/login.robot"
             := @script_text en new_disk "Login" settings st]>
             (files shop_world)).
Proof.
  destruct (@process_feature en first_seen feature_repeated initial_state)
    as [st|e] eqn:Hf; [| by vm_compute in Hf].
  destruct (@X19_first_translation en first_seen Re.fragment posix_host
              new_disk (posix_parser feature_repeated)
              "features/shop/login.feature" "features" "out"
              "Feature: Login" feature_repeated st shop_world
              eq_refl eq_refl Hf)
    as (w' & settings & settings' & Hrun & Hfiles & _).
  - discriminate.
  - reflexivity.
  - discriminate.
  - reflexivity.
  - exists w', settings, settings', st. split; [reflexivity |].
    split; [exact Hrun | exact Hfiles].
Defined.

(** ** The arguments of the keyword of an outline *)

Lemma elem_of_concat {A} (x : A) (l : list A) (ls : list (list A)) :
  x ∈ l → l ∈ ls → x ∈ concat ls.
Proof.
  intros Hx Hl. induction ls as [|l' ls IH]; [by apply elem_of_nil in Hl |].
  simpl. apply elem_of_app.
  apply elem_of_cons in Hl as [->|Hl]; [by left | right; by apply IH].
Qed.

(** X20: the keyword of an outline that is translated declares an argument
    for every variable of its steps: the line of its arguments, which is
    among the keywords after the translation, has the field [${v}] for
    every [<v>] that [re.findall] finds in the text of a step. *)
Theorem X20_variables_are_arguments `{!Localization} `{!SetOrder}
    (scenario : Scenario) (st st' : State) :
  process_scenario_outline scenario st = Ok st' →
  ∃ arguments,
    Fields ([""; "[" +:+ tr "arguments" None +:+ "]"] ++ arguments)
    ∈ keywords_lines st'
    ∧ ∀ step v, step ∈ sc_steps scenario →
                v ∈ Re.findall_variables (step_text step) →
                ("${" +:+ v +:+ "}") ∈ arguments.
Proof.
  intros (example & cases & body & seen' & Hlast & _ & _ & Hk & _ & _ & _
          & Hall)%process_scenario_outline_Ok.
  exists (map (λ arg, "${" +:+ arg +:+ "}") (example_header example)).
  split.
  - rewrite Hk. unfold keyword_head.
    apply elem_of_app. right. apply elem_of_app. left.
    apply elem_of_app. right. apply elem_of_app. right.
    apply list_elem_of_here.
  - intros step v Hstep Hv.
    apply (list_elem_of_fmap_2 (λ arg, "${" +:+ arg +:+ "}")).
    apply (Hall example).
    + apply last_Some in Hlast as [l' ->]. apply elem_of_app. right.
      by left.
    + unfold step_variables.
      apply (elem_of_concat _ (Re.findall_variables (step_text step)));
        [done |].
      by apply (list_elem_of_fmap_2
                  (λ s, Re.findall_variables (step_text s))).
Qed.

Lemma X20_witness :
  ∃ st' arguments,
    @process_scenario_outline en first_seen outline_3_2 initial_state
    = Ok st'
    ∧ Fields ([""; "[Arguments]"] ++ arguments) ∈ keywords_lines st'
    ∧ "${amount}" ∈ arguments.
Proof.
  destruct (@process_scenario_outline en first_seen outline_3_2
              initial_state) as [st'|e] eqn:Hout; [| by vm_compute in Hout].
  destruct (@X20_variables_are_arguments en first_seen _ _ _ Hout)
    as (arguments & Hline & Hall).
  exists st', arguments. split; [reflexivity |]. split; [exact Hline |].
  apply (Hall (plain_step "When " "I withdraw <amount>") "amount").
  - apply list_elem_of_further, list_elem_of_here.
  - vm_compute. apply list_elem_of_here.
Defined.

(** ** The report and the stubs *)

